(** * sermon-uploader: batch-upload test harness and live progress tracker

    A shallow embedding of the parts of the repository that the
    specification talks about:

    - [shared/discord_live_notifier.py]: the live progress message
      ([DiscordLiveNotifier], [SermonPipelineTracker]);
    - [backend/test_automation/api_upload_tests.py]: file categorisation,
      the HTTP upload client, the metrics aggregation and the JSON report;
    - [backend/test_automation/sunday_morning_stress_test.py]: the
      immediate and staggered upload scenarios.

    Python exceptions are modelled by an error monad, Python dictionaries
    by insertion-ordered association lists (or [gmap] where the order is
    never observed), and Python floats by an arithmetic interface with two
    instances: exact rationals and IEEE-754 binary64. *)

From Stdlib Require Import ZArith QArith Qcanon Floats Uint63 Lia Lqa Bool Ascii.
From stdpp Require Import gmap strings list pretty sorting.

Set Warnings "-register-all".
Local Open Scope string_scope.
Local Open Scope Z_scope.

(** ** The Python runtime *)

(** An exception object: its class and the text [str(e)] returns. Only
    subclasses of [Exception] are modelled ([KeyboardInterrupt] and
    [SystemExit] are not). *)
Record exn := Exn { exn_class : string; exn_text : string }.

Inductive outcome (A : Type) : Type :=
| Returned (a : A)
| Raised (e : exn).
Arguments Returned {A} a.
Arguments Raised {A} e.

#[export] Instance outcome_ret : MRet outcome := fun _ a => Returned a.
#[export] Instance outcome_bind : MBind outcome :=
  fun _ _ k m => match m with Returned a => k a | Raised e => Raised e end.

(** [try: body / except Exception as e: handler(e)]. *)
Definition try_except {A} (body : outcome A) (handler : exn → outcome A) : outcome A :=
  match body with
  | Returned a => Returned a
  | Raised e => handler e
  end.

Definition returns {A} (m : outcome A) : Prop := ∃ a, m = Returned a.

(** Text fragments that Python writes with escapes. *)
Definition nl : string := String (Ascii.ascii_of_nat 10) EmptyString.

(** ** Python dictionaries with string keys

    A [dict] keeps its keys in insertion order, and assigning to a key
    that is present keeps the key's position. *)
Definition pydict (V : Type) : Type := list (string * V).

Fixpoint dict_get {V} (k : string) (d : pydict V) : option V :=
  match d with
  | [] => None
  | (k', v) :: d' => if decide (k = k') then Some v else dict_get k d'
  end.

Definition dict_mem {V} (k : string) (d : pydict V) : bool :=
  match dict_get k d with Some _ => true | None => false end.

Fixpoint dict_set {V} (k : string) (v : V) (d : pydict V) : pydict V :=
  match d with
  | [] => [(k, v)]
  | (k', v') :: d' =>
      if decide (k = k') then (k, v) :: d' else (k', v') :: dict_set k v d'
  end.

Definition dict_values {V} (d : pydict V) : list V := d.*2.

(** [{k: v for k in keys}]. *)
Definition dict_from_keys {V} (keys : list string) (v : V) : pydict V :=
  foldl (fun d k => dict_set k v d) [] keys.

(** ** Python numbers

    The arithmetic the code performs on [float] values. Integers stay in
    [Z]; [of_Z] is the implicit conversion of an [int] operand. *)
Class PyFloat (F : Type) : Type := {
  of_Z : Z → F;
  fadd : F → F → F;
  fsub : F → F → F;
  fmul : F → F → F;
  fdiv : F → F → F;
  fltb : F → F → bool;
  fleb : F → F → bool;
  feqb : F → F → bool;
}.

(** Exact rational arithmetic: what the code computes when no operation
    rounds. Results are kept in lowest terms, so that equal values are
    equal terms. *)
#[export] Instance exact_arith : PyFloat Q := {|
  of_Z := inject_Z;
  fadd := fun x y => Qred (x + y);
  fsub := fun x y => Qred (x - y);
  fmul := fun x y => Qred (x * y);
  fdiv := fun x y => Qred (x / y);
  fltb := fun x y => negb (Qle_bool y x);
  fleb := Qle_bool;
  feqb := Qeq_bool;
|}.

(** IEEE-754 binary64, the arithmetic of CPython's [float]. The
    conversion is exact for the integers of magnitude below [2^53] and
    meant for those below [2^63] (lengths, byte counts, seconds). *)
Definition float_of_Z (z : Z) : float :=
  match z with
  | Z0 => PrimFloat.zero
  | Zpos _ => PrimFloat.of_uint63 (Uint63.of_Z z)
  | Zneg p => PrimFloat.opp (PrimFloat.of_uint63 (Uint63.of_Z (Zpos p)))
  end.

#[export] Instance binary64 : PyFloat float := {|
  of_Z := float_of_Z;
  fadd := PrimFloat.add;
  fsub := PrimFloat.sub;
  fmul := PrimFloat.mul;
  fdiv := PrimFloat.div;
  fltb := PrimFloat.ltb;
  fleb := PrimFloat.leb;
  feqb := PrimFloat.eqb;
|}.

(** *** Laws of an arithmetic

    What the proofs below ask of the arithmetic. Exact rational
    arithmetic satisfies all of them ([exact_arith] is proved to). IEEE
    binary64 rounds every operation to the nearest float: away from NaN
    and overflow its order is total and the mean of two floats lies
    between them, its operations are monotone, and they are exact on
    small integers; but a weighted mean of two floats need not lie
    between them. *)

(** The order is total, and the mean of two values lies between them. *)
Class OrderedArith (F : Type) `{PyFloat F} : Prop := {
  fleb_total : ∀ x y : F, fleb x y = true ∨ fleb y x = true;
  fleb_trans : ∀ x y z : F, fleb x y = true → fleb y z = true → fleb x z = true;
  fltb_fleb : ∀ x y : F, fltb x y = negb (fleb y x);
  midpoint_between : ∀ x y : F,
    fleb x y = true →
    fleb x (fdiv (fadd x y) (of_Z 2)) = true
    ∧ fleb (fdiv (fadd x y) (of_Z 2)) y = true;
}.

Definition fle {F : Type} `{PyFloat F} (x y : F) : Prop := fleb x y = true.

(** The interpolation [(a * (n - w) + b * w) / n] of
    [statistics.quantiles] lies between [a] and [b]. *)
Class ExactInterpolation (F : Type) `{PyFloat F} : Prop :=
  interpolation_between : ∀ (a b : F) (n w : Z),
    0 < n → 0 ≤ w ≤ n → fleb a b = true →
    fleb a (fdiv (fadd (fmul a (of_Z (n - w))) (fmul b (of_Z w))) (of_Z n)) = true
    ∧ fleb (fdiv (fadd (fmul a (of_Z (n - w))) (fmul b (of_Z w))) (of_Z n)) b = true.

(** Addition and multiplication are monotone in their second operand,
    and exact on the natural numbers up to 1000. *)
Class MonotoneArith (F : Type) `{PyFloat F} : Prop := {
  fadd_mono : ∀ c x y : F, fleb x y = true → fleb (fadd c x) (fadd c y) = true;
  fmul_mono : ∀ c x y : F,
    fleb (of_Z 0) c = true → fleb x y = true → fleb (fmul c x) (fmul c y) = true;
  fadd_exact : ∀ a b : Z,
    0 ≤ a → 0 ≤ b → a + b ≤ 1000 → fadd (of_Z a) (of_Z b) = of_Z (a + b);
  fsub_exact : ∀ a b : Z,
    0 ≤ b ≤ a → a ≤ 1000 → fsub (of_Z a) (of_Z b) = of_Z (a - b);
  fmul_exact : ∀ a b : Z,
    0 ≤ a → 0 ≤ b → a * b ≤ 1000 → fmul (of_Z a) (of_Z b) = of_Z (a * b);
  fleb_of_Z : ∀ a b : Z, 0 ≤ a ≤ b → b ≤ 1000 → fleb (of_Z a) (of_Z b) = true;
}.

(** [x / n] with an [int] divisor: [ZeroDivisionError] when [n] is zero. *)
Definition truediv {F} `{PyFloat F} (x : F) (n : Z) : outcome F :=
  if decide (n = 0) then Raised (Exn "ZeroDivisionError" "division by zero")
  else Returned (fdiv x (of_Z n)).

(** [sum(xs)]: left to right, starting from the integer 0 (CPython 3.12
    and later add floats with a compensation term; no property below
    depends on the value of a sum). *)
Definition pysum {F} `{PyFloat F} (xs : list F) : F := foldl fadd (of_Z 0) xs.

(** [min(xs)] and [max(xs)]: the first smallest (largest) element;
    [ValueError] on an empty sequence. *)
Definition pymin {F} `{PyFloat F} (xs : list F) : outcome F :=
  match xs with
  | [] => Raised (Exn "ValueError" "min() arg is an empty sequence")
  | x :: xs' => Returned (foldl (fun m y => if fltb y m then y else m) x xs')
  end.

Definition pymax {F} `{PyFloat F} (xs : list F) : outcome F :=
  match xs with
  | [] => Raised (Exn "ValueError" "max() arg is an empty sequence")
  | x :: xs' => Returned (foldl (fun m y => if fltb m y then y else m) x xs')
  end.

(** [sorted(xs)]: a stable sort; insertion after the elements that are
    not greater gives the same list as any other stable sort. *)
Fixpoint insert_sorted {F} `{PyFloat F} (x : F) (xs : list F) : list F :=
  match xs with
  | [] => [x]
  | y :: ys => if fltb x y then x :: y :: ys else y :: insert_sorted x ys
  end.

Definition sorted {F} `{PyFloat F} (xs : list F) : list F :=
  foldl (fun acc x => insert_sorted x acc) [] xs.

(** [xs[i]] on a list, negative indices counting from the end;
    [IndexError] out of range. *)
Definition getitem {A} (xs : list A) (i : Z) : outcome A :=
  let k := if decide (i < 0) then Z.of_nat (length xs) + i else i in
  if decide (k < 0) then Raised (Exn "IndexError" "list index out of range")
  else match xs !! Z.to_nat k with
       | Some x => Returned x
       | None => Raised (Exn "IndexError" "list index out of range")
       end.

(** [s.split(sep)] for a separator of one character: the pieces
    between the occurrences of the separator, empty pieces included;
    never an empty list. *)
Fixpoint str_split (sep : Ascii.ascii) (s : string) : list string :=
  match s with
  | EmptyString => [""]
  | String c s' =>
      if decide (c = sep) then "" :: str_split sep s'
      else match str_split sep s' with
           | [] => [String c ""]
           | piece :: pieces => String c piece :: pieces
           end
  end.

(** [os.path.basename]: the text after the last slash. *)
Definition basename (path : string) : string :=
  default "" (last (str_split "/"%char path)).

(** [s.endswith(suffix)]. *)
Fixpoint str_endswith (suffix s : string) : bool :=
  if decide (s = suffix) then true
  else match s with
       | EmptyString => false
       | String _ s' => str_endswith suffix s'
       end.

(** The characters of a string. *)
Fixpoint chars (s : string) : list Ascii.ascii :=
  match s with
  | EmptyString => []
  | String c s' => c :: chars s'
  end.

(** [xs[:stop]]: a negative [stop] counts from the end. *)
Definition slice_to {A} (xs : list A) (stop : Z) : list A :=
  if decide (stop < 0) then take (Z.to_nat (Z.of_nat (length xs) + stop)) xs
  else take (Z.to_nat stop) xs.

(** ** JSON values, as [response.json()] returns and [json.dump] writes *)
Inductive json (F : Type) : Type :=
| JNull
| JBool (b : bool)
| JInt (z : Z)
| JFloat (x : F)
| JStr (s : string)
| JList (l : list (json F))
| JDict (d : list (string * json F)).
Arguments JNull {F}.
Arguments JBool {F} b.
Arguments JInt {F} z.
Arguments JFloat {F} x.
Arguments JStr {F} s.
Arguments JList {F} l.
Arguments JDict {F} d.

(** [d.get(key)] on a decoded JSON value: [None] when the key is absent,
    [AttributeError] when the value is not an object. *)
Definition json_get {F} (j : json F) (key : string) : outcome (option (json F)) :=
  match j with
  | JDict d => Returned (dict_get key d)
  | _ => Raised (Exn "AttributeError" "object has no attribute 'get'")
  end.

(** ** [json.dumps(value, indent=2, default=str)]

    The layout (brackets, separators, line breaks and indentation) is
    the encoder's; the text of a string ([py_encode_basestring_ascii])
    and of a float ([float.__repr__]) are taken from the runtime. The
    model does not track whether a zero is the [int] 0 or the [float]
    0.0, so [float_repr] stands for the text of either. *)
Module json_dump.
Section WithArith.
Context {F : Type}.

Record Encoder : Type := {
  encode_string : string → string;
  float_repr : F → string;
}.

Fixpoint spaces (n : nat) : string :=
  match n with
  | O => ""
  | S n' => " " +:+ spaces n'
  end.

Definition newline_indent (level : nat) : string := nl +:+ spaces (2 * level).

Fixpoint join_with (sep : string) (items : list string) : string :=
  match items with
  | [] => ""
  | [x] => x
  | x :: rest => x +:+ sep +:+ join_with sep rest
  end.

Fixpoint dumps (enc : Encoder) (level : nat) (j : json F) : string :=
  match j with
  | JNull => "null"
  | JBool true => "true"
  | JBool false => "false"
  | JInt z => pretty z
  | JFloat x => float_repr enc x
  | JStr s => encode_string enc s
  | JList [] => "[]"
  | JList l =>
      "[" +:+ newline_indent (S level)
      +:+ join_with ("," +:+ newline_indent (S level)) (map (dumps enc (S level)) l)
      +:+ newline_indent level +:+ "]"
  | JDict [] => "{}"
  | JDict d =>
      "{" +:+ newline_indent (S level)
      +:+ join_with ("," +:+ newline_indent (S level))
            (map (fun kv => encode_string enc (fst kv) +:+ ": "
                            +:+ dumps enc (S level) (snd kv)) d)
      +:+ newline_indent level +:+ "}"
  end.

End WithArith.

Arguments Encoder F : clear implicits.

End json_dump.

(** ** The [statistics] module of the Python standard library *)
Module statistics.
Section WithArith.
Context {F : Type} `{PyFloat F}.

Definition StatisticsError (text : string) : exn := Exn "StatisticsError" text.

(** [statistics.median]. *)
Definition median (data : list F) : outcome F :=
  let data := sorted data in
  let n := Z.of_nat (length data) in
  if decide (n = 0) then Raised (StatisticsError "no median for empty data")
  else if decide (n `mod` 2 = 1) then getitem data (n `div` 2)
  else
    let i := n `div` 2 in
    a ← getitem data (i - 1);
    b ← getitem data i;
    truediv (fadd a b) 2.

(** One cut point of [statistics.quantiles], method 'exclusive':
    the body of the loop [for i in range(1, n)]. *)
Definition cut_point (data : list F) (n : Z) (i : Z) : outcome F :=
  let ld := Z.of_nat (length data) in
  let m := ld + 1 in
  let j := (i * m) `div` n in
  let j := if decide (j < 1) then 1 else if decide (j > ld - 1) then ld - 1 else j in
  let delta := i * m - j * n in
  a ← getitem data (j - 1);
  b ← getitem data j;
  truediv (fadd (fmul a (of_Z (n - delta))) (fmul b (of_Z delta))) n.

Fixpoint for_each {A B} (f : A → outcome B) (xs : list A) : outcome (list B) :=
  match xs with
  | [] => Returned []
  | x :: xs' => y ← f x; ys ← for_each f xs'; Returned (y :: ys)
  end.

(** [statistics.quantiles(data, n=n)] with the default method. *)
Definition quantiles (data : list F) (n : Z) : outcome (list F) :=
  if decide (n < 1) then Raised (StatisticsError "n must be at least 1")
  else
    let data := sorted data in
    if decide (Z.of_nat (length data) < 2)
    then Raised (StatisticsError "must have at least two data points")
    else for_each (cut_point data n) (seqZ 1 (n - 1)).

End WithArith.
End statistics.

(** * shared/discord_live_notifier.py *)
Module Notifier.

(** [class ProcessingStage(Enum)]. *)
Inductive ProcessingStage : Type :=
| DETECTED | UPLOADING | UPLOADED | PROCESSING | COMPLETED | ERROR.

#[export] Instance ProcessingStage_eq_dec : EqDecision ProcessingStage.
Proof. solve_decision. Defined.

Definition stage_value (s : ProcessingStage) : string :=
  match s with
  | DETECTED => "File Detected"
  | UPLOADING => "Uploading to MinIO"
  | UPLOADED => "Upload Complete"
  | PROCESSING => "Converting to AAC"
  | COMPLETED => "Processing Complete"
  | ERROR => "Error Occurred"
  end.

(** The list [stages_order] of [_get_progress_bar]. *)
Definition stages_order : list ProcessingStage :=
  [DETECTED; UPLOADING; UPLOADED; PROCESSING; COMPLETED].

(** [stages_order.index(stage)]; [ERROR] is not in the list. *)
Definition stage_index (s : ProcessingStage) : option nat :=
  match s with
  | DETECTED => Some 0%nat
  | UPLOADING => Some 1%nat
  | UPLOADED => Some 2%nat
  | PROCESSING => Some 3%nat
  | COMPLETED => Some 4%nat
  | ERROR => None
  end.

(** A moment of [get_est_time()], in seconds. *)
Definition datetime : Type := Z.

Section WithArith.
Context {F : Type} `{PyFloat F}.

(** The per-file dictionary of [file_info], with the keys that the
    callers in the repository ([SermonPipelineTracker]) store and the
    types they store them with; a key that is absent is [None]. *)
Record FileInfo : Type := {
  progress_percent : option Z;
  size : option Z;
  duration : option F;
  size_reduction : option F;
  error : option string;
}.

Definition empty_info : FileInfo :=
  {| progress_percent := None; size := None; duration := None;
     size_reduction := None; error := None |}.

(** [if info:] is false for an empty dictionary. *)
Definition info_truthy (i : FileInfo) : bool :=
  match progress_percent i, size i, duration i, size_reduction i, error i with
  | None, None, None, None, None => false
  | _, _, _, _, _ => true
  end.

(** [old.update(new)]. *)
Definition info_update (old new : FileInfo) : FileInfo :=
  let pick {A} (o n : option A) := match n with Some _ => n | None => o end in
  {| progress_percent := pick (progress_percent old) (progress_percent new);
     size := pick (size old) (size new);
     duration := pick (duration old) (duration new);
     size_reduction := pick (size_reduction old) (size_reduction new);
     error := pick (error old) (error new) |}.

(** [@dataclass class ProgressMessage]. *)
Record ProgressMessage : Type := {
  message_id : string;
  channel_id : string;
  webhook_url : string;
  title : string;
  created_at : datetime;
  last_updated : datetime;
  stages : pydict ProcessingStage;
  file_info : pydict FileInfo;
}.

(** The state of a [DiscordLiveNotifier]. *)
Record DiscordLiveNotifier : Type := {
  notifier_webhook_url : string;
  webhook_id : string;
  webhook_token : string;
  active_messages : gmap string ProgressMessage;
}.

(** What the rendering of an embed takes from outside the program:
    the glyphs of the source text and the formatting of numbers and
    dates by the Python runtime. *)
Record Rendering : Type := {
  glyph_full : string;
  glyph_empty : string;
  glyph_cross : string;
  icon_file : string;
  icon_summary : string;
  glyph_bullet : string;
  format_1f : F → string;
  isoformat : datetime → string;
  strftime_clock : datetime → string;
}.

Record EmbedField : Type := {
  field_name : string;
  field_value : string;
  field_inline : bool;
}.

Record Embed : Type := {
  embed_title : string;
  embed_color : Z;
  embed_fields : list EmbedField;
  embed_timestamp : string;
  embed_footer : string;
}.

Fixpoint repeat_string (s : string) (n : nat) : string :=
  match n with
  | O => ""
  | S n' => s +:+ repeat_string s n'
  end.

(** [_get_progress_bar]. *)
Definition _get_progress_bar (r : Rendering) (stage : ProcessingStage) : string :=
  match stage_index stage with
  | None =>
      glyph_cross r +:+ " " +:+ repeat_string (glyph_empty r) 10 +:+ " Error"
  | Some current_index =>
      let filled := repeat_string (glyph_full r) ((current_index + 1) * 2) in
      let empty :=
        repeat_string (glyph_empty r)
          ((length stages_order - current_index - 1) * 2) in
      filled +:+ empty
  end.

(** [_format_size]: the loop over the units, unrolled by the list. *)
Fixpoint format_size_loop (r : Rendering) (units : list string) (size_bytes : F) : string :=
  match units with
  | [] => format_1f r size_bytes +:+ " TB"
  | unit :: units' =>
      if fltb size_bytes (of_Z 1024) then format_1f r size_bytes +:+ " " +:+ unit
      else format_size_loop r units' (fdiv size_bytes (of_Z 1024))
  end.

Definition _format_size (r : Rendering) (size_bytes : Z) : string :=
  format_size_loop r ["B"; "KB"; "MB"; "GB"] (of_Z size_bytes).

Definition count_stage (s : ProcessingStage) (stages : pydict ProcessingStage) : nat :=
  length (filter (fun st => st = s) (dict_values stages)).

(** [_create_progress_embed]. *)
Definition _create_progress_embed (r : Rendering) (now : datetime) (title : string)
    (stages : pydict ProcessingStage) (file_info : pydict FileInfo) : Embed :=
  let color :=
    if existsb (fun st => bool_decide (st = ERROR)) (dict_values stages) then 0xff0000
    else if forallb (fun st => bool_decide (st = COMPLETED)) (dict_values stages)
         then 0x00ff00
         else 0xffaa00 in
  let field_of (entry : string * ProcessingStage) : EmbedField :=
    let '(file, stage) := entry in
    let value :=
      _get_progress_bar r stage +:+ nl +:+ "**Status:** " +:+ stage_value stage in
    let value :=
      match dict_get file file_info with
      | None => value
      | Some info =>
          let value :=
            match progress_percent info with
            | Some p => value +:+ " (" +:+ pretty p +:+ "%)"
            | None => value
            end in
          let value :=
            match size info with
            | Some sz => value +:+ nl +:+ "**Size:** " +:+ _format_size r sz
            | None => value
            end in
          match duration info with
          | Some d => value +:+ nl +:+ "**Duration:** " +:+ format_1f r d +:+ "s"
          | None => value
          end
      end in
    {| field_name := icon_file r +:+ " " +:+ String.substring 0 50 file;
       field_value := value;
       field_inline := false |} in
  let total := length stages in
  let completed := count_stage COMPLETED stages in
  let errors := count_stage ERROR stages in
  let summary :=
    "**Total:** " +:+ pretty total +:+ " files" +:+ nl
    +:+ "**Completed:** " +:+ pretty completed +:+ nl
    +:+ (if decide (0 < errors)%nat then "**Errors:** " +:+ pretty errors else "") in
  {| embed_title := title;
     embed_color := color;
     embed_fields :=
       map field_of stages
       ++ [{| field_name := icon_summary r +:+ " Summary";
              field_value := summary;
              field_inline := true |}];
     embed_timestamp := isoformat r now;
     embed_footer :=
       "Sermon Processing Pipeline " +:+ glyph_bullet r +:+ " EST "
       +:+ strftime_clock r now |}.

(** A call of [session.patch(edit_url, json={"embeds": [embed]})]. *)
Record PatchRequest : Type := {
  patch_url : string;
  patch_embed : Embed;
}.

(** The answer of the remote service to one request: a status code, or
    an exception raised by the HTTP library. *)
Definition Remote : Type := PatchRequest → outcome Z.

Definition edit_url (n : DiscordLiveNotifier) (message_id : string) : string :=
  "https://discord.com/api/webhooks/" +:+ webhook_id n +:+ "/" +:+ webhook_token n
  +:+ "/messages/" +:+ message_id.

(** The part of [update_progress] that runs under [message_lock]: the
    mutation of the tracked message. *)
Definition record_progress (now : datetime) (file : string) (stage : ProcessingStage)
    (info : option FileInfo) (message : ProgressMessage) : ProgressMessage :=
  let stages' :=
    if dict_mem file (stages message) then dict_set file stage (stages message)
    else stages message in
  let file_info' :=
    match info with
    | Some i =>
        if info_truthy i then
          let old := default empty_info (dict_get file (file_info message)) in
          dict_set file (info_update old i) (file_info message)
        else file_info message
    | None => file_info message
    end in
  {| message_id := message_id message;
     channel_id := channel_id message;
     webhook_url := webhook_url message;
     title := title message;
     created_at := created_at message;
     last_updated := now;
     stages := stages';
     file_info := file_info' |}.

(** [DiscordLiveNotifier.update_progress]: the new state of the
    notifier, the requests sent to the remote service, and the value
    returned. *)
Definition update_progress (r : Rendering) (remote : Remote) (now : datetime)
    (n : DiscordLiveNotifier) (message_id : string) (file : string)
    (stage : ProcessingStage) (info : option FileInfo)
  : DiscordLiveNotifier * list PatchRequest * bool :=
  match active_messages n !! message_id with
  | None => (n, [], false)
  | Some message =>
      let message' := record_progress now file stage info message in
      let n' :=
        {| notifier_webhook_url := notifier_webhook_url n;
           webhook_id := webhook_id n;
           webhook_token := webhook_token n;
           active_messages := <[message_id := message']> (active_messages n) |} in
      let embed :=
        _create_progress_embed r now (title message') (stages message')
          (file_info message') in
      let request := {| patch_url := edit_url n message_id; patch_embed := embed |} in
      match remote request with
      | Returned status_code => (n', [request], bool_decide (status_code = 200))
      | Raised _ => (n', [request], false)
      end
  end.

(** The stage recorded for [file] in the tracked message [message_id]. *)
Definition stage_of (n : DiscordLiveNotifier) (message_id file : string)
  : option ProcessingStage :=
  message ← active_messages n !! message_id; dict_get file (stages message).

(** ** [SermonPipelineTracker]: the callers of [update_progress] *)

Definition truthy_Z (o : option Z) : option Z :=
  match o with Some z => if decide (z = 0) then None else Some z | None => None end.

Definition truthy_F (o : option F) : option F :=
  match o with Some x => if feqb x (of_Z 0) then None else Some x | None => None end.

(** [update_file_upload_progress]. *)
Definition update_file_upload_progress (r : Rendering) (remote : Remote) (now : datetime)
    (n : DiscordLiveNotifier) (batch_id filename : string) (percent : Z)
    (sz : option Z) : DiscordLiveNotifier * list PatchRequest * bool :=
  let info :=
    {| progress_percent := Some percent; size := truthy_Z sz; duration := None;
       size_reduction := None; error := None |} in
  let stage := if decide (percent < 100) then UPLOADING else UPLOADED in
  update_progress r remote now n batch_id filename stage (Some info).

(** [mark_file_processing]. *)
Definition mark_file_processing (r : Rendering) (remote : Remote) (now : datetime)
    (n : DiscordLiveNotifier) (batch_id filename : string)
  : DiscordLiveNotifier * list PatchRequest * bool :=
  update_progress r remote now n batch_id filename PROCESSING None.

(** [mark_file_complete]. *)
Definition mark_file_complete (r : Rendering) (remote : Remote) (now : datetime)
    (n : DiscordLiveNotifier) (batch_id filename : string)
    (dur reduction : option F) : DiscordLiveNotifier * list PatchRequest * bool :=
  let info :=
    {| progress_percent := None; size := None; duration := truthy_F dur;
       size_reduction := truthy_F reduction; error := None |} in
  update_progress r remote now n batch_id filename COMPLETED (Some info).

(** [mark_file_error]. *)
Definition mark_file_error (r : Rendering) (remote : Remote) (now : datetime)
    (n : DiscordLiveNotifier) (batch_id filename : string) (text : string)
  : DiscordLiveNotifier * list PatchRequest * bool :=
  let info :=
    {| progress_percent := None; size := None; duration := None;
       size_reduction := None; error := Some (String.substring 0 200 text) |} in
  update_progress r remote now n batch_id filename ERROR (Some info).

(** ** Sequences of calls

    One call of [update_progress] with what it meets outside the
    program: the answer of the remote service and the clock. *)
Record Call : Type := {
  call_message : string;
  call_file : string;
  call_stage : ProcessingStage;
  call_info : option FileInfo;
  call_remote : Remote;
  call_now : datetime;
}.

Definition do_call (r : Rendering) (n : DiscordLiveNotifier) (c : Call)
  : DiscordLiveNotifier :=
  (update_progress r (call_remote c) (call_now c) n (call_message c) (call_file c)
     (call_stage c) (call_info c)).1.1.

(** The stage recorded for [file] in [message_id] after each of the
    successive calls. *)
Fixpoint recorded (r : Rendering) (n : DiscordLiveNotifier) (message_id file : string)
    (calls : list Call) : list (option ProcessingStage) :=
  match calls with
  | [] => []
  | c :: calls' =>
      let n' := do_call r n c in
      stage_of n' message_id file :: recorded r n' message_id file calls'
  end.

(** The stage last passed for [file] in [message_id] after each call,
    starting from [current]. *)
Fixpoint last_passed (message_id file : string) (current : ProcessingStage)
    (calls : list Call) : list ProcessingStage :=
  match calls with
  | [] => []
  | c :: calls' =>
      let current' :=
        if decide (call_message c = message_id ∧ call_file c = file)
        then call_stage c else current in
      current' :: last_passed message_id file current' calls'
  end.

(** The notifier after the successive calls. *)
Definition run_calls (r : Rendering) (n : DiscordLiveNotifier) (calls : list Call)
  : DiscordLiveNotifier :=
  foldl (do_call r) n calls.

(** The information recorded for [file] in the tracked message
    [message_id]. *)
Definition info_of (n : DiscordLiveNotifier) (message_id file : string)
  : option FileInfo :=
  message ← active_messages n !! message_id; dict_get file (file_info message).

(** Every key of the dictionary [old] is a key of [new]. *)
Definition keeps_keys (old new : FileInfo) : Prop :=
  (is_Some (progress_percent old) → is_Some (progress_percent new))
  ∧ (is_Some (size old) → is_Some (size new))
  ∧ (is_Some (duration old) → is_Some (duration new))
  ∧ (is_Some (size_reduction old) → is_Some (size_reduction new))
  ∧ (is_Some (error old) → is_Some (error new)).

(** ** [DiscordLiveNotifier.__init__]

    The webhook id and token are the last two pieces of the URL. *)
Definition DiscordLiveNotifier_init (url : string) : outcome DiscordLiveNotifier :=
  let parts := str_split "/"%char url in
  if decide (2 ≤ Z.of_nat (length parts)) then
    id ← getitem parts (-2);
    token ← getitem parts (-1);
    mret {| notifier_webhook_url := url;
            webhook_id := id;
            webhook_token := token;
            active_messages := ∅ |}
  else Raised (Exn "ValueError" "Invalid webhook URL format").

(** ** [create_progress_message] *)

(** A call of [session.post(url, json={"embeds": [embed]})]. *)
Record PostRequest : Type := {
  post_url : string;
  post_embed : Embed;
}.

(** The body of the answer as [response.json()] decodes it, as far as
    the code reads it: the entries [id] and [channel_id], which Discord
    sends as strings; an entry that is absent is [None]. *)
Record MessageData : Type := {
  data_id : option string;
  data_channel_id : option string;
}.

(** The answer to a POST: [post_json] is what [response.json()] and the
    first subscript of its value do, which raise when the body is not a
    JSON object. *)
Record PostResponse : Type := {
  post_status : Z;
  post_json : outcome MessageData;
}.

(** What [session.post] does: it returns a response or raises. *)
Definition Webhook : Type := PostRequest → outcome PostResponse.

(** [data[key]]. *)
Definition subscript (key : string) (entry : option string) : outcome string :=
  match entry with
  | Some value => Returned value
  | None => Raised (Exn "KeyError" key)
  end.

(** [create_progress_message]: the new state of the notifier and the
    value returned. [now], [created] and [updated] are the successive
    values of [get_est_time()]. *)
Definition create_progress_message (r : Rendering) (webhook : Webhook)
    (now created updated : datetime) (n : DiscordLiveNotifier) (title : string)
    (files : list string) : DiscordLiveNotifier * option ProgressMessage :=
  let stages := dict_from_keys files DETECTED in
  let embed := _create_progress_embed r now title stages [] in
  let request :=
    {| post_url := notifier_webhook_url n +:+ "?wait=true"; post_embed := embed |} in
  let created_message : outcome (option ProgressMessage) :=
    try_except
      (response ← webhook request;
       if decide (post_status response = 200) then
         data ← post_json response;
         id ← subscript "id" (data_id data);
         channel ← subscript "channel_id" (data_channel_id data);
         mret (Some {| message_id := id;
                       channel_id := channel;
                       webhook_url := notifier_webhook_url n;
                       title := title;
                       created_at := created;
                       last_updated := updated;
                       stages := stages;
                       file_info := [] |})
       else mret None)
      (fun _ => mret None) in
  match created_message with
  | Returned (Some message) =>
      ({| notifier_webhook_url := notifier_webhook_url n;
          webhook_id := webhook_id n;
          webhook_token := webhook_token n;
          active_messages := <[message_id message := message]> (active_messages n) |},
       Some message)
  | _ => (n, None)
  end.

(** ** [cleanup_old_messages] *)

(** [(cutoff - msg.created_at).total_seconds() / 3600]. *)
Definition age_hours (cutoff : datetime) (message : ProgressMessage) : F :=
  fdiv (of_Z (cutoff - created_at message)) (of_Z 3600).

(** [cleanup_old_messages]: the messages whose age exceeds [hours] are
    deleted; [cutoff] is the value of [get_est_time()]. *)
Definition cleanup_old_messages (cutoff : datetime) (hours : Z)
    (n : DiscordLiveNotifier) : DiscordLiveNotifier :=
  {| notifier_webhook_url := notifier_webhook_url n;
     webhook_id := webhook_id n;
     webhook_token := webhook_token n;
     active_messages :=
       filter (fun entry => fltb (of_Z hours) (age_hours cutoff entry.2) = false)
         (active_messages n) |}.

End WithArith.

Arguments FileInfo F : clear implicits.
Arguments ProgressMessage F : clear implicits.
Arguments DiscordLiveNotifier F : clear implicits.
Arguments Rendering F : clear implicits.
Arguments PatchRequest : clear implicits.
Arguments Remote : clear implicits.
Arguments Call F : clear implicits.

(** ** The order of the pipeline stages *)

(** [s'] is earlier than [s] in DETECTED < UPLOADING < UPLOADED <
    PROCESSING < COMPLETED. *)
Definition regresses (s s' : ProcessingStage) : Prop :=
  match stage_index s, stage_index s' with
  | Some i, Some j => (j < i)%nat
  | _, _ => False
  end.

(** A recorded sequence of stages that starts from [s]: no step
    regresses, and no step leaves [ERROR]. *)
Fixpoint monotone_from (s : ProcessingStage) (trace : list ProcessingStage) : Prop :=
  match trace with
  | [] => True
  | s' :: rest => ¬ regresses s s' ∧ (s = ERROR → s' = ERROR) ∧ monotone_from s' rest
  end.

(** ** A tracked batch, for the concrete instances below

    The two files of the example at the end of the source file, over
    exact arithmetic, with stand-ins for the glyphs and formats. *)
Definition sample_rendering : Rendering Q :=
  {| glyph_full := "#"; glyph_empty := "."; glyph_cross := "x";
     icon_file := "file"; icon_summary := "sum"; glyph_bullet := "*";
     format_1f := fun _ => "0.0";
     isoformat := pretty;
     strftime_clock := fun _ => "12:00 PM" |}.

Definition sample_message : ProgressMessage Q :=
  {| message_id := "batch-1"; channel_id := "channel-1";
     webhook_url := "https://discord.com/api/webhooks/1/token";
     title := "Uploading 2 Sermons"; created_at := 0; last_updated := 0;
     stages := dict_from_keys ["sermon_2024_01_01.wav"; "sermon_2024_01_08.wav"] DETECTED;
     file_info := [] |}.

Definition sample_notifier : DiscordLiveNotifier Q :=
  {| notifier_webhook_url := "https://discord.com/api/webhooks/1/token";
     webhook_id := "1"; webhook_token := "token";
     active_messages := {[ "batch-1" := sample_message ]} |}.

(** A call for the first file of the batch that the remote service
    accepts. *)
Definition sample_call (stage : ProcessingStage) : Call Q :=
  {| call_message := "batch-1"; call_file := "sermon_2024_01_01.wav";
     call_stage := stage; call_info := None;
     call_remote := fun _ => Returned 200; call_now := 0 |}.

(** A webhook that accepts every POST and answers with the identifiers
    of the sample batch, and one that the network cuts. *)
Definition sample_webhook : Webhook :=
  fun _ => Returned {| post_status := 200;
                       post_json := Returned {| data_id := Some "batch-1";
                                                data_channel_id := Some "channel-1" |} |}.

Definition failing_webhook : Webhook :=
  fun _ => Raised (Exn "ConnectionError" "Connection reset by peer").

(** An update of the first file of the sample batch that carries its
    size. *)
Definition sample_info_call : Call Q :=
  {| call_message := "batch-1"; call_file := "sermon_2024_01_01.wav";
     call_stage := UPLOADING;
     call_info := Some {| progress_percent := Some 40; size := Some 50000000;
                          duration := None; size_reduction := None; error := None |};
     call_remote := fun _ => Returned 200; call_now := 0 |}.

(** The invariant as the specification states it, for one file under a
    sequence of calls: the recorded stages never regress and never
    leave [ERROR]. *)
Definition stages_never_regress {F : Type} `{PyFloat F} (r : Rendering F)
    (n : DiscordLiveNotifier F) (message_id file : string) (calls : list (Call F))
  : Prop :=
  ∀ s, stage_of n message_id file = Some s →
       ∃ trace, recorded r n message_id file calls = Some <$> trace
                ∧ monotone_from s trace.

End Notifier.

(** * backend/test_automation/api_upload_tests.py *)
Module ApiUploadTests.
Section WithArith.
Context {F : Type} `{PyFloat F}.

(** [@dataclass class TestFile]. *)
Record TestFile : Type := {
  name : string;
  path : string;
  size : Z;
  category : string;
  remote_path : string;
  hash_sha256 : option string;
}.

(** [@dataclass class UploadResult]. *)
Record UploadResult : Type := {
  test_id : string;
  file_name : string;
  file_size : Z;
  method : string;
  success : bool;
  duration : F;
  error : option string;
  throughput_mbps : option F;
  response_data : option (json F);
  api_response_time : option F;
  upload_time : option F;
}.

(** [@dataclass class TestMetrics]; a [datetime] is a number of seconds. *)
Record TestMetrics : Type := {
  test_name : string;
  start_time : F;
  end_time : F;
  total_files : Z;
  successful_uploads : Z;
  failed_uploads : Z;
  total_bytes : Z;
  total_duration : F;
  avg_throughput_mbps : F;
  success_rate : F;
  results : list UploadResult;
  min_duration : F;
  max_duration : F;
  p50_duration : F;
  p95_duration : F;
  p99_duration : F;
  avg_api_response_time : F;
  min_api_response_time : F;
  max_api_response_time : F;
}.

(** ** [RidgepointFileManager._categorize_file] *)
Definition _categorize_file (size : Z) : string :=
  (* the divisor is the non-zero constant 1024 * 1024 *)
  let mb := fdiv (of_Z size) (of_Z (1024 * 1024)) in
  if fltb mb (of_Z 100) then "small"
  else if fltb mb (of_Z 500) then "medium"
  else if fltb mb (of_Z 1000) then "large"
  else "xlarge".

(** ** [SermonUploaderAPI] *)

Definition bytes : Type := list Byte.byte.

Inductive Body : Type :=
| Multipart (filename : string) (file_data : bytes) (content_type : string)
| JsonBody (payload : json F)
| RawBody (file_data : bytes) (content_type : string).

(** A request made through [self.session]. *)
Record Request : Type := {
  verb : string;
  url : string;
  body : Body;
}.

(** A [requests.Response]: [json_body] is what [response.json()] does,
    which raises when the body is not JSON. *)
Record Response : Type := {
  status_code : Z;
  text : string;
  json_body : outcome (json F);
}.

(** What one call of [session.post] or [session.put] does once the
    retries of the adapter are spent: it returns a response or raises a
    transport-level exception. *)
Definition Session : Type := Request → outcome Response.

(** The value of [time.time()] before the request, and after it returned
    or raised. *)
Record Stopwatch : Type := {
  started : F;
  stopped : F;
}.

Definition elapsed (w : Stopwatch) : F := fsub (stopped w) (started w).

Definition http_error (response : Response) : json F :=
  JDict [("error",
          JStr ("HTTP " +:+ pretty (status_code response) +:+ ": " +:+ text response))].

Definition exception_error (e : exn) : json F :=
  JDict [("error", JStr (exn_text e))].

(** The three requests of the client. *)
Definition direct_request (base_url : string) (file_data : bytes) (filename : string)
  : Request :=
  {| verb := "POST"; url := base_url +:+ "/api/upload";
     body := Multipart filename file_data "audio/wav" |}.

Definition presign_request (base_url : string) (filename : string) : Request :=
  {| verb := "POST"; url := base_url +:+ "/api/upload/presigned";
     body := JsonBody (JDict [("filename", JStr filename)]) |}.

Definition put_request (presigned_url : string) (file_data : bytes) : Request :=
  {| verb := "PUT"; url := presigned_url; body := RawBody file_data "audio/wav" |}.

(** [upload_direct]. *)
Definition upload_direct (session : Session) (w : Stopwatch) (base_url : string)
    (file_data : bytes) (filename : string) : outcome (bool * json F * F) :=
  try_except
    (response ← session (direct_request base_url file_data filename);
     let duration := elapsed w in
     if decide (status_code response = 200) then
       payload ← json_body response; mret (true, payload, duration)
     else mret (false, http_error response, duration))
    (fun e => mret (false, exception_error e, elapsed w)).

(** [get_presigned_url]. *)
Definition get_presigned_url (session : Session) (w : Stopwatch) (base_url : string)
    (filename : string) : outcome (bool * json F * F) :=
  try_except
    (response ← session (presign_request base_url filename);
     let duration := elapsed w in
     if decide (status_code response = 200) then
       payload ← json_body response; mret (true, payload, duration)
     else mret (false, http_error response, duration))
    (fun e => mret (false, exception_error e, elapsed w)).

(** [upload_presigned]. The caller passes whatever [response.get]
    returned for the URL; [requests] raises inside the [try] block for a
    value that is not a string ([None] included). *)
Definition upload_presigned (session : Session) (w : Stopwatch)
    (presigned_url : option (json F)) (file_data : bytes)
  : outcome (bool * json F * F) :=
  try_except
    (response ←
       match presigned_url with
       | Some (JStr u) => session (put_request u file_data)
       | _ => Raised (Exn "MissingSchema" "Invalid URL: No scheme supplied")
       end;
     let duration := elapsed w in
     if bool_decide (status_code response = 200 ∨ status_code response = 204) then
       mret (true, JDict [("message", JStr "Upload successful")], duration)
     else mret (false, http_error response, duration))
    (fun e => mret (false, exception_error e, elapsed w)).

(** What the specification asks of an operation of the client, given
    what its request met: the operation returns; an exception of the
    transport is reported as a failure that carries the text of the
    exception; a response outside 200-299 is reported as a failure that
    carries the status and the body of the response. *)
Definition surfaces_failures (met : outcome Response)
    (result : outcome (bool * json F * F)) : Prop :=
  ∃ ok payload t,
    result = Returned (ok, payload, t)
    ∧ (∀ e, met = Raised e →
            ok = false ∧ json_get payload "error" = Returned (Some (JStr (exn_text e))))
    ∧ (∀ response, met = Returned response →
            ¬ (200 ≤ status_code response < 300) →
            ok = false
            ∧ json_get payload "error"
              = Returned (Some (JStr ("HTTP " +:+ pretty (status_code response)
                                      +:+ ": " +:+ text response)))).

(** ** [APIUploadTester] *)

(** What one upload meets outside the program: the HTTP session, the
    clock around the two requests, and [int(time.time())]. *)
Record Env : Type := {
  session : Session;
  api_clock : Stopwatch;
  put_clock : Stopwatch;
  stamp : Z;
}.

(** The text stored in [UploadResult.error] from [response.get("error")];
    the failure payloads of the client always hold a string there. *)
Definition error_text (o : option (json F)) : option string :=
  match o with
  | Some (JStr s) => Some s
  | _ => None
  end.

(** [(test_file.size / (1024 * 1024)) / t if t > 0 else 0]; the guard
    excludes the zero divisor. *)
Definition throughput (size : Z) (t : F) : F :=
  if fltb (of_Z 0) t then fdiv (fdiv (of_Z size) (of_Z (1024 * 1024))) t
  else of_Z 0.

(** [_test_direct_upload]. *)
Definition _test_direct_upload (env : Env) (base_url : string) (test_file : TestFile)
    (file_data : bytes) : outcome UploadResult :=
  let test_id := "direct_" +:+ pretty (stamp env) in
  '(success, response, duration) ←
     upload_direct (session env) (api_clock env) base_url file_data (name test_file);
  err ← (if success then mret None
         else e ← json_get response "error"; mret (error_text e));
  mret {| test_id := test_id;
          file_name := name test_file;
          file_size := size test_file;
          method := "direct";
          success := success;
          duration := duration;
          error := err;
          throughput_mbps := Some (throughput (size test_file) duration);
          response_data := Some response;
          api_response_time := Some duration;
          upload_time := Some duration |}.

(** [_test_presigned_upload]. *)
Definition _test_presigned_upload (env : Env) (base_url : string) (test_file : TestFile)
    (file_data : bytes) : outcome UploadResult :=
  let test_id := "presigned_" +:+ pretty (stamp env) in
  '(success, response, api_time) ←
     get_presigned_url (session env) (api_clock env) base_url (name test_file);
  if negb success then
    e ← json_get response "error";
    mret {| test_id := test_id;
            file_name := name test_file;
            file_size := size test_file;
            method := "presigned";
            success := false;
            duration := api_time;
            error := error_text e;
            throughput_mbps := None;
            response_data := None;
            api_response_time := Some api_time;
            upload_time := None |}
  else
    presigned_url ← json_get response "upload_url";
    '(success, upload_response, upload_time) ←
       upload_presigned (session env) (put_clock env) presigned_url file_data;
    let total_duration := fadd api_time upload_time in
    err ← (if success then mret None
           else e ← json_get upload_response "error"; mret (error_text e));
    mret {| test_id := test_id;
            file_name := name test_file;
            file_size := size test_file;
            method := "presigned";
            success := success;
            duration := total_duration;
            error := err;
            throughput_mbps := Some (throughput (size test_file) upload_time);
            response_data := Some upload_response;
            api_response_time := Some api_time;
            upload_time := Some upload_time |}.

(** The answer to the request for an upload URL on which
    [_test_presigned_upload] raises: a status of 200 and a JSON body
    that is not an object. *)
Definition malformed_answer (env : Env) (base_url : string) (test_file : TestFile)
  : Prop :=
  ∃ response payload,
    session env (presign_request base_url (name test_file)) = Returned response
    ∧ status_code response = 200
    ∧ json_body response = Returned payload
    ∧ ∀ d, payload ≠ JDict d.

(** Truth value of an [Optional[float]]: [None] and zero are false. *)
Definition truthy (o : option F) : bool :=
  match o with
  | Some x => negb (feqb x (of_Z 0))
  | None => false
  end.

Definition positive (x : F) : bool := fltb (of_Z 0) x.

(** [value if xs else 0]. *)
Definition or_zero {A} (xs : list A) (value : outcome F) : outcome F :=
  match xs with
  | [] => mret (of_Z 0)
  | _ :: _ => value
  end.

(** The list [durations] of [_calculate_metrics]. *)
Definition positive_durations (results : list UploadResult) : list F :=
  duration <$> filter (fun r => positive (duration r) = true) results.

(** [_calculate_metrics]. *)
Definition _calculate_metrics (test_name : string) (start_time end_time : F)
    (results : list UploadResult) : outcome TestMetrics :=
  let successful_results : list UploadResult :=
    filter (fun r => success r = true) results in
  let failed_results : list UploadResult :=
    filter (fun r => success r = false) results in
  let durations : list F := positive_durations results in
  let api_times : list F :=
    omap (fun r =>
            match api_response_time r with
            | Some t => if truthy (Some t) && positive t then Some t else None
            | None => None
            end) results in
  let total_bytes := foldl Z.add 0 (file_size <$> successful_results) in
  let total_duration := fsub end_time start_time in
  let n_successful := Z.of_nat (length successful_results) in
  let n_results := Z.of_nat (length results) in
  avg ← or_zero successful_results
          (truediv
             (pysum (omap (fun r => if truthy (throughput_mbps r)
                                    then throughput_mbps r else None)
                       successful_results))
             n_successful);
  rate ← or_zero results
           (q ← truediv (of_Z n_successful) n_results; mret (fmul q (of_Z 100)));
  dmin ← or_zero durations (pymin durations);
  dmax ← or_zero durations (pymax durations);
  p50 ← or_zero durations (statistics.median durations);
  p95 ← (if decide (20 ≤ Z.of_nat (length durations))
         then qs ← statistics.quantiles durations 20; getitem qs 18
         else or_zero durations (pymax durations));
  p99 ← (if decide (100 ≤ Z.of_nat (length durations))
         then qs ← statistics.quantiles durations 100; getitem qs 98
         else or_zero durations (pymax durations));
  api_avg ← or_zero api_times (truediv (pysum api_times) (Z.of_nat (length api_times)));
  api_min ← or_zero api_times (pymin api_times);
  api_max ← or_zero api_times (pymax api_times);
  mret {| test_name := test_name;
          start_time := start_time;
          end_time := end_time;
          total_files := n_results;
          successful_uploads := n_successful;
          failed_uploads := Z.of_nat (length failed_results);
          total_bytes := total_bytes;
          total_duration := total_duration;
          avg_throughput_mbps := avg;
          success_rate := rate;
          results := results;
          min_duration := dmin;
          max_duration := dmax;
          p50_duration := p50;
          p95_duration := p95;
          p99_duration := p99;
          avg_api_response_time := api_avg;
          min_api_response_time := api_min;
          max_api_response_time := api_max |}.

(** The ordering of the duration percentiles that the specification
    states. *)
Definition percentiles_ordered (m : TestMetrics) : Prop :=
  fleb (min_duration m) (p50_duration m) = true
  ∧ fleb (p50_duration m) (p95_duration m) = true
  ∧ fleb (p95_duration m) (p99_duration m) = true
  ∧ fleb (p99_duration m) (max_duration m) = true.

(** The result of a presigned upload of a 600 MB file that took
    [seconds], for the concrete instances below. *)
Definition sample_result (seconds : F) : UploadResult :=
  {| test_id := "presigned_1700000000";
     file_name := "sermon.wav";
     file_size := 629145600;
     method := "presigned";
     success := true;
     duration := seconds;
     error := None;
     throughput_mbps := Some (throughput 629145600 seconds);
     response_data := Some (JDict [("message", JStr "Upload successful")]);
     api_response_time := Some seconds;
     upload_time := Some seconds |}.

(** The result that [_run_immediate_scenario] appends for a future
    that timed out. *)
Definition sample_failure : UploadResult :=
  {| test_id := "immediate_error_sermon.wav";
     file_name := "sermon.wav";
     file_size := 629145600;
     method := "stress_immediate";
     success := false;
     duration := of_Z 0;
     error := Some "";
     throughput_mbps := None;
     response_data := None;
     api_response_time := None;
     upload_time := None |}.

(** ** [APIUploadTester.generate_report] *)

(** The two entries of [self.config] that the report copies; the
    constructor of the tester has already read both keys. *)
Record Config : Type := {
  api_base_url : json F;
  ridgepoint_hostname : json F;
}.

Definition json_opt {A} (f : A → json F) (o : option A) : json F :=
  match o with
  | Some a => f a
  | None => JNull
  end.

(** [dataclasses.asdict(r)]. *)
Definition asdict (r : UploadResult) : json F :=
  JDict [("test_id", JStr (test_id r));
         ("file_name", JStr (file_name r));
         ("file_size", JInt (file_size r));
         ("method", JStr (method r));
         ("success", JBool (success r));
         ("duration", JFloat (duration r));
         ("error", json_opt JStr (error r));
         ("throughput_mbps", json_opt JFloat (throughput_mbps r));
         ("response_data", json_opt id (response_data r));
         ("api_response_time", json_opt JFloat (api_response_time r));
         ("upload_time", json_opt JFloat (upload_time r))].

Definition test_result (metrics : TestMetrics) : json F :=
  JDict [("test_name", JStr (test_name metrics));
         ("duration_seconds", JFloat (total_duration metrics));
         ("files_tested", JInt (total_files metrics));
         ("success_rate_percent", JFloat (success_rate metrics));
         ("total_data_gb",
          JFloat (fdiv (of_Z (total_bytes metrics)) (of_Z (1024 ^ 3))));
         ("avg_throughput_mbps", JFloat (avg_throughput_mbps metrics));
         ("performance_metrics",
          JDict [("min_upload_time", JFloat (min_duration metrics));
                 ("max_upload_time", JFloat (max_duration metrics));
                 ("median_upload_time", JFloat (p50_duration metrics));
                 ("p95_upload_time", JFloat (p95_duration metrics));
                 ("p99_upload_time", JFloat (p99_duration metrics));
                 ("avg_api_response_time", JFloat (avg_api_response_time metrics))]);
         ("failed_uploads",
          JList (map (fun r => JDict [("file", JStr (file_name r));
                                      ("error", json_opt JStr (error r));
                                      ("method", JStr (method r))])
                   (filter (fun r => success r = false) (results metrics))));
         ("detailed_results", JList (map asdict (results metrics)))].

(** The dictionary [report]; [timestamp] is [datetime.now().isoformat()]. *)
Definition report (config : Config) (timestamp : string)
    (metrics_list : list TestMetrics) : json F :=
  JDict [("test_summary",
          JDict [("timestamp", JStr timestamp);
                 ("total_tests", JInt (Z.of_nat (length metrics_list)));
                 ("api_endpoint", api_base_url config);
                 ("ridgepoint_host", ridgepoint_hostname config)]);
         ("test_results", JList (map test_result metrics_list))].

(** [generate_report]: the text written to [output_file]. *)
Definition generate_report (enc : json_dump.Encoder F) (config : Config)
    (timestamp : string) (metrics_list : list TestMetrics) : string :=
  json_dump.dumps enc 0 (report config timestamp metrics_list).

(** ** The other operations of [SermonUploaderAPI] *)

(** [health_check]; [get] is what [session.get] does with a URL. *)
Definition health_check (get : string → outcome Response) (base_url : string) : bool :=
  match get (base_url +:+ "/api/health") with
  | Returned response => bool_decide (status_code response = 200)
  | Raised _ => false
  end.

Definition batch_request (base_url : string) (filenames : list string) : Request :=
  {| verb := "POST"; url := base_url +:+ "/api/upload/presigned-batch";
     body := JsonBody (JDict [("filenames", JList (JStr <$> filenames))]) |}.

(** [get_presigned_urls_batch]. *)
Definition get_presigned_urls_batch (session : Session) (w : Stopwatch)
    (base_url : string) (filenames : list string) : outcome (bool * json F * F) :=
  try_except
    (response ← session (batch_request base_url filenames);
     let duration := elapsed w in
     if decide (status_code response = 200) then
       payload ← json_body response; mret (true, payload, duration)
     else mret (false, http_error response, duration))
    (fun e => mret (false, exception_error e, elapsed w)).

Definition duplicate_request (base_url : string) (file_hash : string) : Request :=
  {| verb := "POST"; url := base_url +:+ "/api/check-duplicate";
     body := JsonBody (JDict [("hash", JStr file_hash)]) |}.

(** [check_duplicate]: the body is decoded whatever the status. *)
Definition check_duplicate (session : Session) (w : Stopwatch) (base_url : string)
    (file_hash : string) : outcome (bool * json F * F) :=
  try_except
    (response ← session (duplicate_request base_url file_hash);
     let duration := elapsed w in
     payload ← json_body response;
     mret (bool_decide (status_code response = 200), payload, duration))
    (fun e => mret (false, exception_error e, elapsed w)).

(** ** [APIUploadTester.select_test_files]

    [None], the empty string and zero are all false in [if category:]
    and [if count:]. *)
Definition select_test_files (test_files : list TestFile) (wanted : option string)
    (count : option Z) : list TestFile :=
  let files :=
    match wanted with
    | Some c =>
        if decide (c = "") then test_files
        else filter (fun f => category f = c) test_files
    | None => test_files
    end in
  match count with
  | Some k => if decide (k = 0) then files else slice_to files k
  | None => files
  end.

(** ** [APIUploadTester.test_single_file_upload] *)

(** What the upload of one file meets: the SFTP read of the file and
    the environment of its HTTP requests. *)
Record Transfer : Type := {
  transfer_read : outcome bytes;
  transfer_env : Env;
}.

(** The log line that follows [results.append(result)]: formatting an
    absent throughput with [:.2f] raises [TypeError]. *)
Definition log_upload (result : UploadResult) : outcome unit :=
  if success result then
    match throughput_mbps result with
    | Some _ => mret ()
    | None =>
        Raised (Exn "TypeError" "unsupported format string passed to NoneType.__format__")
    end
  else mret ().

(** The result appended by an [except] branch of the tester. *)
Definition error_result (test_id : string) (test_file : TestFile) (method : string)
    (e : exn) : UploadResult :=
  {| test_id := test_id;
     file_name := name test_file;
     file_size := size test_file;
     method := method;
     success := false;
     duration := of_Z 0;
     error := Some (exn_text e);
     throughput_mbps := None;
     response_data := None;
     api_response_time := None;
     upload_time := None |}.

(** One round of the loop of [test_single_file_upload], for the file
    numbered [i]: what it appends to [results]. *)
Definition single_upload (base_url method : string) (i : nat)
    (entry : TestFile * Transfer) : list UploadResult :=
  let '(test_file, t) := entry in
  let failure :=
    error_result ("single_" +:+ method +:+ "_" +:+ pretty i) test_file method in
  match
    file_data ← transfer_read t;
    if decide (method = "direct") then
      _test_direct_upload (transfer_env t) base_url test_file file_data
    else if decide (method = "presigned") then
      _test_presigned_upload (transfer_env t) base_url test_file file_data
    else Raised (Exn "ValueError" ("Unknown method: " +:+ method))
  with
  | Returned result =>
      match log_upload result with
      | Returned _ => [result]
      | Raised e => [result; failure e]
      end
  | Raised e => [failure e]
  end.

(** [test_single_file_upload]; the files are numbered from 1. *)
Definition test_single_file_upload (base_url : string) (start_time end_time : F)
    (test_files : list (TestFile * Transfer)) (method : string) : outcome TestMetrics :=
  let results := mjoin (imap (fun i => single_upload base_url method (S i)) test_files) in
  _calculate_metrics ("single_" +:+ method) start_time end_time results.

(** ** [APIUploadTester.test_batch_upload] *)

(** [range(0, n, batch_size)] for a length [n]. *)
Definition batch_starts (n : Z) (batch_size : Z) : outcome (list Z) :=
  if decide (batch_size = 0) then
    Raised (Exn "ValueError" "range() arg 3 must not be zero")
  else if decide (batch_size < 0) then Returned []
  else Returned ((fun k => k * batch_size)
                   <$> seqZ 0 ((n + batch_size - 1) `div` batch_size)).

(** [xs[i:i+batch_size]] for [0 <= i] and [0 < batch_size]. *)
Definition batch_at {A} (xs : list A) (batch_size : Z) (i : Z) : list A :=
  take (Z.to_nat batch_size) (drop (Z.to_nat i) xs).

(** [value[key]] on a decoded JSON value. *)
Definition json_item (value : json F) (key : string) : outcome (json F) :=
  match value with
  | JDict d =>
      match dict_get key d with
      | Some v => Returned v
      | None => Raised (Exn "KeyError" key)
      end
  | _ => Raised (Exn "TypeError" "object is not subscriptable by a string")
  end.

(** [key in value] on a decoded JSON value: a key of an object, an
    element of an array, a substring of a string; [TypeError] for the
    other values. *)
Definition json_contains (value : json F) (key : string) : outcome bool :=
  match value with
  | JDict d => Returned (dict_mem key d)
  | JList l =>
      Returned (existsb (fun v => match v with
                                  | JStr s => bool_decide (s = key)
                                  | _ => false
                                  end) l)
  | JStr s => Returned (bool_decide (is_Some (String.index 0 key s)))
  | _ => Raised (Exn "TypeError" "argument is not iterable")
  end.

(** An upload submitted to the executor: its file, what the file meets,
    and what [future.result()] does. *)
Definition Job : Type := TestFile * Transfer * outcome (bool * json F * F).

(** The first loop of [_upload_batch_concurrent], for one file: the
    job submitted, if the file has an upload URL. *)
Definition submit_upload (presigned_urls : json F) (entry : TestFile * Transfer)
  : outcome (option Job) :=
  let '(test_file, t) := entry in
  known ← json_contains presigned_urls (name test_file);
  if (known : bool) then
    presigned_url ← json_item presigned_urls (name test_file);
    file_data ← transfer_read t;
    mret (Some (test_file, t,
                upload_presigned (session (transfer_env t)) (put_clock (transfer_env t))
                  (Some presigned_url) file_data))
  else mret None.

(** The second loop of [_upload_batch_concurrent], for one job: the
    result appended. *)
Definition collect_upload (n_batch : Z) (api_time : F) (job : Job) : UploadResult :=
  let '(test_file, t, future) := job in
  match
    '(success, response, upload_time) ← future;
    err ← (if success then mret None
           else e ← json_get response "error"; mret (error_text e));
    mret {| test_id := "batch_" +:+ pretty (stamp (transfer_env t)) +:+ "_"
                       +:+ name test_file;
            file_name := name test_file;
            file_size := size test_file;
            method := "batch_presigned";
            success := success;
            duration := upload_time;
            error := err;
            throughput_mbps := Some (throughput (size test_file) upload_time);
            response_data := Some response;
            api_response_time := Some (fdiv api_time (of_Z n_batch));
            upload_time := Some upload_time |}
  with
  | Returned result => result
  | Raised e =>
      error_result ("batch_error_" +:+ name test_file) test_file "batch_presigned" e
  end.

(** [_upload_batch_concurrent]; [as_completed] is the order in which
    the futures complete. The executor refuses an empty batch. *)
Definition _upload_batch_concurrent (as_completed : list Job → list Job)
    (batch : list (TestFile * Transfer)) (presigned_urls : json F) (api_time : F)
  : outcome (list UploadResult) :=
  match batch with
  | [] => Raised (Exn "ValueError" "max_workers must be greater than 0")
  | _ :: _ =>
      futures ← statistics.for_each (submit_upload presigned_urls) batch;
      mret (collect_upload (Z.of_nat (length batch)) api_time
              <$> as_completed (omap id futures))
  end.

(** One round of the loop of [test_batch_upload]: what the batch adds
    to [results]. [api] and [w] are the session and the clock of the
    request for the upload URLs. *)
Definition batch_upload (as_completed : list Job → list Job) (api : Session)
    (w : Stopwatch) (base_url : string) (batch : list (TestFile * Transfer))
  : list UploadResult :=
  match
    '(success, response, api_time) ←
       get_presigned_urls_batch api w base_url (name <$> batch.*1);
    if negb success then mret []
    else
      urls ← json_item response "urls";
      _upload_batch_concurrent as_completed batch urls api_time
  with
  | Returned batch_results => batch_results
  | Raised _ => []
  end.

(** [test_batch_upload]; [clock] gives the clock of the request of each
    batch, by the index at which the batch starts. *)
Definition test_batch_upload (as_completed : list Job → list Job) (api : Session)
    (clock : Z → Stopwatch) (base_url : string) (start_time end_time : F)
    (test_files : list (TestFile * Transfer)) (batch_size : Z) : outcome TestMetrics :=
  starts ← batch_starts (Z.of_nat (length test_files)) batch_size;
  let results :=
    mjoin ((fun i => batch_upload as_completed api (clock i) base_url
                       (batch_at test_files batch_size i)) <$> starts) in
  _calculate_metrics "batch_presigned" start_time end_time results.

(** ** [RidgepointFileManager.discover_wav_files] *)

(** What the parsing of the listing takes from the Python runtime:
    [str.strip] and [int], which is [None] where [int] raises
    [ValueError]. *)
Record Parsing : Type := {
  str_strip : string → string;
  int_of_str : string → option Z;
}.

(** [line.split('|', 1)] on a line that holds the separator: the text
    before its first occurrence and the text after it. *)
Fixpoint split_once (sep : Ascii.ascii) (s : string) : option (string * string) :=
  match s with
  | EmptyString => None
  | String c s' =>
      if decide (c = sep) then Some ("", s')
      else '(before, after) ← split_once sep s'; Some (String c before, after)
  end.

(** One round of the loop of [discover_wav_files]: the file that a line
    of the listing adds, if any. *)
Definition discover_line (p : Parsing) (line : string) : option TestFile :=
  '(path, size_str) ← split_once "|"%char (str_strip p line);
  size ← int_of_str p size_str;
  if decide (0 < size) then
    Some {| name := basename path;
            path := path;
            size := size;
            category := _categorize_file size;
            remote_path := path;
            hash_sha256 := None |}
  else None.

(** The keys of the dictionary [categories] of [_log_file_distribution]. *)
Definition known_categories : list string := ["small"; "medium"; "large"; "xlarge"].

(** One round of the loop of [_log_file_distribution]:
    [categories[file.category] += 1] and [total_size += file.size]. *)
Definition count_file (acc : outcome (pydict Z * Z)) (file : TestFile)
  : outcome (pydict Z * Z) :=
  '(categories, total_size) ← acc;
  match dict_get (category file) categories with
  | Some count =>
      Returned (dict_set (category file) (count + 1) categories, total_size + size file)
  | None => Raised (Exn "KeyError" (category file))
  end.

(** [_log_file_distribution]: the counts by category and the total
    size that it logs. *)
Definition _log_file_distribution (files : list TestFile) : outcome (pydict Z * Z) :=
  foldl count_file (Returned (dict_from_keys known_categories 0, 0)) files.

(** The number of files of a category. *)
Definition counted (files : list TestFile) (c : string) : Z :=
  Z.of_nat (length (filter (fun f => category f = c) files)).

(** [discover_wav_files] on a connected manager: [listing] is what
    the remote command prints, line by line. *)
Definition discover_wav_files (p : Parsing) (listing : list string)
  : outcome (list TestFile) :=
  let files := omap (discover_line p) listing in
  _ ← _log_file_distribution files;
  mret files.

End WithArith.

Arguments UploadResult F : clear implicits.
Arguments Transfer F : clear implicits.
Arguments Job F : clear implicits.
Arguments TestMetrics F : clear implicits.
Arguments Body F : clear implicits.
Arguments Request F : clear implicits.
Arguments Response F : clear implicits.
Arguments Session F : clear implicits.
Arguments Stopwatch F : clear implicits.
Arguments Env F : clear implicits.
Arguments Config F : clear implicits.

(** The float nearest to 1.01. *)
Definition seconds_1_01 : float := 0x1.028f5c28f5c29p+0%float.

(** A file of 1 050 000 000 bytes: more than 1000 * 1024 * 1024 bytes,
    fewer than 1024 ^ 3. *)
Definition size_between_1000_MB_and_1_GB : Z := 1050000000.

End ApiUploadTests.

(** * backend/test_automation/sunday_morning_stress_test.py *)
Module SundayMorningStressTest.
Import ApiUploadTests.
Section WithArith.
Context {F : Type} `{PyFloat F}.

(** [@dataclass class StressScenario]. *)
Record StressScenario : Type := {
  scenario_name : string;
  description : string;
  file_count : Z;
  concurrent_uploads : Z;
  duration_minutes : Z;
  upload_pattern : string;
  file_size_preference : string;
  simulate_interruptions : bool;
  network_delay_ms : Z;
}.

(** What one submitted upload meets: the SFTP read of its file, the
    environment of its two HTTP requests, and whether its future
    delivers before the timeout of [future.result]. Pauses
    ([time.sleep]) change none of these values. *)
Record Task : Type := {
  read_file_chunk : outcome bytes;
  env : Env F;
  finishes : bool;
}.

Definition failed_result (test_id : string) (test_file : TestFile) (method : string)
    (e : exn) : UploadResult F :=
  {| test_id := test_id;
     file_name := name test_file;
     file_size := size test_file;
     method := method;
     success := false;
     duration := of_Z 0;
     error := Some (exn_text e);
     throughput_mbps := None;
     response_data := None;
     api_response_time := None;
     upload_time := None |}.

(** [_upload_with_monitoring]. *)
Definition _upload_with_monitoring (t : Task) (base_url : string) (test_file : TestFile)
    (test_id : string) (scenario : StressScenario) : outcome (UploadResult F) :=
  try_except
    (file_data ← read_file_chunk t;
     _test_presigned_upload (env t) base_url test_file file_data)
    (fun e => mret (failed_result test_id test_file "stress_monitored" e)).

(** [future.result(timeout=...)]. *)
Definition future_result {A} (t : Task) (worker : outcome A) : outcome A :=
  if finishes t then worker else Raised (Exn "TimeoutError" "").

(** The log line after a result is appended: formatting an absent
    throughput with [:.2f] raises [TypeError]. *)
Definition log_result (result : UploadResult F) : outcome unit :=
  if success result then
    match throughput_mbps result with
    | Some _ => mret ()
    | None =>
        Raised (Exn "TypeError" "unsupported format string passed to NoneType.__format__")
    end
  else mret ().

(** One round of the loop that collects the futures of
    [_run_immediate_scenario]: what it appends to [results]. *)
Definition collect_immediate (base_url : string) (scenario : StressScenario) (i : nat)
    (entry : TestFile * Task) : list (UploadResult F) :=
  let '(test_file, t) := entry in
  let failure := failed_result ("immediate_error_" +:+ name test_file) test_file
                   "stress_immediate" in
  match future_result t
          (_upload_with_monitoring t base_url test_file ("immediate_" +:+ pretty i)
             scenario) with
  | Returned result =>
      match log_result result with
      | Returned _ => [result]
      | Raised e => [result; failure e]
      end
  | Raised e => [failure e]
  end.

(** The upload of a task succeeds: the file is read, the API answers
    200 with an object that holds the upload URL, and the PUT to that URL
    answers 200 or 204, all before the timeout. *)
Definition upload_succeeds (base_url : string) (test_file : TestFile) (t : Task) : Prop :=
  finishes t = true
  ∧ ∃ file_data presigned d u put,
      read_file_chunk t = Returned file_data
      ∧ session (env t) (presign_request base_url (name test_file)) = Returned presigned
      ∧ status_code presigned = 200
      ∧ json_body presigned = Returned (JDict d)
      ∧ dict_get "upload_url" d = Some (JStr u)
      ∧ session (env t) (put_request u file_data) = Returned put
      ∧ (status_code put = 200 ∨ status_code put = 204).

(** The upload of a task raises the transport exception [e]: in the
    SFTP read of the file, in the request for the upload URL, or in the
    PUT to that URL. *)
Definition upload_raises (base_url : string) (test_file : TestFile) (t : Task)
    (e : exn) : Prop :=
  finishes t = true
  ∧ (read_file_chunk t = Raised e
     ∨ ∃ file_data,
         read_file_chunk t = Returned file_data
         ∧ (session (env t) (presign_request base_url (name test_file)) = Raised e
            ∨ ∃ presigned d u,
                session (env t) (presign_request base_url (name test_file))
                = Returned presigned
                ∧ status_code presigned = 200
                ∧ json_body presigned = Returned (JDict d)
                ∧ dict_get "upload_url" d = Some (JStr u)
                ∧ session (env t) (put_request u file_data) = Raised e)).

(** [_calculate_stress_metrics]: the base metrics; what it adds is only
    logged. *)
Definition _calculate_stress_metrics (test_name : string) (start_time end_time : F)
    (results : list (UploadResult F)) : outcome (TestMetrics F) :=
  _calculate_metrics test_name start_time end_time results.

(** [ThreadPoolExecutor(max_workers=scenario.concurrent_uploads)]: the
    constructor refuses a number of workers that is not positive. *)
Definition ThreadPoolExecutor (max_workers : Z) : outcome unit :=
  if decide (max_workers ≤ 0)
  then Raised (Exn "ValueError" "max_workers must be greater than 0")
  else mret ().

(** [_run_immediate_scenario]: the executor is created before any
    upload is submitted. *)
Definition _run_immediate_scenario (base_url : string) (start_time end_time : F)
    (scenario : StressScenario) (test_files : list (TestFile * Task))
  : outcome (TestMetrics F) :=
  _ ← ThreadPoolExecutor (concurrent_uploads scenario);
  let results := mjoin (imap (collect_immediate base_url scenario) test_files) in
  _calculate_stress_metrics (scenario_name scenario) start_time end_time results.

(** ** The staggered schedule *)

(** [interval_seconds = (scenario.duration_minutes * 60) / total_files]. *)
Definition interval_seconds (scenario : StressScenario) (total_files : Z) : outcome F :=
  truediv (of_Z (duration_minutes scenario * 60)) total_files.

(** [random.uniform(a, b)], which is [a + (b - a) * random()]; [r] is
    the value of [random.random()], a float in [0.0, 1.0). *)
Definition uniform (a b r : F) : F := fadd a (fmul (fsub b a) r).

(** The literal [0.3]: the float nearest to 3/10. *)
Definition literal_0_3 : F := fdiv (of_Z 3) (of_Z 10).

(** [delay = i * interval_seconds + random.uniform(0, interval_seconds * 0.3)]. *)
Definition staggered_delay (interval : F) (i : Z) (r : F) : F :=
  fadd (fmul (of_Z i) interval) (uniform (of_Z 0) (fmul interval literal_0_3) r).

(** The delays that the loop of [_run_staggered_scenario] computes, one
    per file, from the successive draws of the jitter source. *)
Definition delays_of (interval : F) (draws : list F) : list F :=
  imap (fun i r => staggered_delay interval (Z.of_nat i) r) draws.

Definition staggered_delays (scenario : StressScenario) (total_files : Z)
    (draws : list F) : outcome (list F) :=
  interval ← interval_seconds scenario total_files;
  mret (delays_of interval draws).

(** One round of the collecting loop of [_run_staggered_scenario]: a
    future that raises is logged and appends nothing. *)
Definition collect_staggered (base_url : string) (scenario : StressScenario) (i : nat)
    (entry : TestFile * Task) : list (UploadResult F) :=
  let '(test_file, t) := entry in
  match future_result t
          (_upload_with_monitoring t base_url test_file ("staggered_" +:+ pretty i)
             scenario) with
  | Returned result => [result]
  | Raised e => []
  end.

(** [_run_staggered_scenario]: the interval is computed first, so an
    empty file list raises [ZeroDivisionError]; then the executor is
    created; each delay only postpones the start of its upload. *)
Definition _run_staggered_scenario (base_url : string) (start_time end_time : F)
    (scenario : StressScenario) (draws : list F) (test_files : list (TestFile * Task))
  : outcome (TestMetrics F) :=
  interval ← interval_seconds scenario (Z.of_nat (length test_files));
  _ ← ThreadPoolExecutor (concurrent_uploads scenario);
  let delays := delays_of interval draws in
  let results := mjoin (imap (collect_staggered base_url scenario) test_files) in
  _calculate_stress_metrics (scenario_name scenario) start_time end_time results.

(** ** [_run_random_scenario] *)

(** The files that the first loop of [_run_random_scenario] submits:
    the loop stops at the first round at which [datetime.now() >=
    end_time]; [late i] is that test in round [i]. *)
Fixpoint submitted {A} (late : nat → bool) (i : nat) (xs : list A) : list A :=
  match xs with
  | [] => []
  | x :: xs' => if late i then [] else x :: submitted late (S i) xs'
  end.

(** One round of the collecting loop of [_run_random_scenario]. *)
Definition collect_random (base_url : string) (scenario : StressScenario) (i : nat)
    (entry : TestFile * Task) : list (UploadResult F) :=
  let '(test_file, t) := entry in
  match future_result t
          (_upload_with_monitoring t base_url test_file ("random_" +:+ pretty i)
             scenario) with
  | Returned result => [result]
  | Raised e => []
  end.

(** [_run_random_scenario]: the executor is created before the first
    round; the random delays only postpone the uploads. *)
Definition _run_random_scenario (base_url : string) (start_time end_time : F)
    (scenario : StressScenario) (late : nat → bool) (test_files : list (TestFile * Task))
  : outcome (TestMetrics F) :=
  _ ← ThreadPoolExecutor (concurrent_uploads scenario);
  let results :=
    mjoin (imap (collect_random base_url scenario) (submitted late 0 test_files)) in
  _calculate_stress_metrics (scenario_name scenario) start_time end_time results.

(** ** [_select_scenario_files] and [run_scenario] *)

(** [_select_scenario_files]; [shuffle] is what [random.shuffle] makes
    of the list. *)
Definition _select_scenario_files (shuffle : list TestFile → list TestFile)
    (scenario : StressScenario) (all_files : list TestFile) : list TestFile :=
  let of_category (c : string) := filter (fun f => category f = c) all_files in
  let files :=
    if decide (file_size_preference scenario = "large") then
      filter (fun f => category f ∈ ["large"; "xlarge"]) all_files
    else if decide (file_size_preference scenario = "xlarge") then of_category "xlarge"
    else (slice_to (of_category "small") 2 ++ slice_to (of_category "medium") 3
          ++ slice_to (of_category "large") 10 ++ slice_to (of_category "xlarge") 5)%list in
  slice_to (shuffle files) (file_count scenario).

(** [run_scenario]; [task_of] is what the upload of each file meets. *)
Definition run_scenario (shuffle : list TestFile → list TestFile)
    (task_of : TestFile → Task) (draws : list F) (late : nat → bool)
    (base_url : string) (start_time end_time : F) (scenario : StressScenario)
    (all_files : list TestFile) : outcome (TestMetrics F) :=
  let test_files :=
    (fun f => (f, task_of f)) <$> _select_scenario_files shuffle scenario all_files in
  if decide (upload_pattern scenario = "immediate") then
    _run_immediate_scenario base_url start_time end_time scenario test_files
  else if decide (upload_pattern scenario = "staggered") then
    _run_staggered_scenario base_url start_time end_time scenario draws test_files
  else if decide (upload_pattern scenario = "random") then
    _run_random_scenario base_url start_time end_time scenario late test_files
  else Raised (Exn "ValueError" ("Unknown upload pattern: " +:+ upload_pattern scenario)).

(** [run_all_scenarios]; [run] is [self.run_scenario] with what each
    scenario meets. A scenario that raises is logged and skipped. *)
Definition run_all_scenarios (run : StressScenario → outcome (TestMetrics F))
    (scenarios : list StressScenario) : list (TestMetrics F) :=
  omap (fun scenario =>
          match run scenario with
          | Returned metrics => Some metrics
          | Raised _ => None
          end) scenarios.

(** A delay within the jitter bound of the specification: it differs
    from [i * 60] by less than 18 seconds. *)
Definition strictly_within_jitter (i : Z) (delay : F) : Prop :=
  fltb (of_Z (i * 60 - 18)) delay = true ∧ fltb delay (of_Z (i * 60 + 18)) = true.

(** A delay between [i * 60] and [i * 60 + 18] seconds, both included. *)
Definition within_jitter (i : Z) (delay : F) : Prop :=
  fleb (of_Z (i * 60)) delay = true ∧ fleb delay (of_Z (i * 60 + 18)) = true.

End WithArith.

Arguments Task F : clear implicits.

(** The staggered scenario of the specification: a budget of 600
    seconds, for 10 files. *)
Definition staggered_600 : StressScenario :=
  {| scenario_name := "Sunday_Staggered_Upload";
     description := "Staff uploads files over 10 minutes";
     file_count := 10;
     concurrent_uploads := 8;
     duration_minutes := 10;
     upload_pattern := "staggered";
     file_size_preference := "mixed";
     simulate_interruptions := false;
     network_delay_ms := 0 |}.

(** Three uploads over exact arithmetic, for the concrete instances
    below: the API hands out an upload URL, and the PUT to it either
    answers 200 or is cut by the network. *)
Definition sample_file (file_name : string) : TestFile :=
  {| name := file_name;
     path := "/home/gaius/data/" +:+ file_name;
     size := 629145600;
     category := "large";
     remote_path := "/home/gaius/data/" +:+ file_name;
     hash_sha256 := None |}.

Definition sample_session (network_fails : bool) : Session Q :=
  fun request =>
    if decide (verb request = "POST") then
      Returned {| status_code := 200; text := "";
                  json_body :=
                    Returned (JDict [("upload_url", JStr "https://minio.local/put")]) |}
    else if network_fails then
      Raised (Exn "ConnectionError" "Connection reset by peer")
    else
      Returned {| status_code := 200; text := "";
                  json_body := Raised (Exn "JSONDecodeError" "Expecting value") |}.

Definition sample_task (network_fails : bool) : Task Q :=
  {| read_file_chunk := Returned [];
     env := {| session := sample_session network_fails;
               api_clock := {| started := inject_Z 0; stopped := inject_Z 1 |};
               put_clock := {| started := inject_Z 1; stopped := inject_Z 3 |};
               stamp := 1700000000 |};
     finishes := true |}.

Definition sample_uploads : list (TestFile * Task Q) :=
  [(sample_file "sermon_1.wav", sample_task false);
   (sample_file "sermon_2.wav", sample_task true);
   (sample_file "sermon_3.wav", sample_task false)].

(** An error field that is populated: a text that is not empty. *)
Definition populated (error : option string) : Prop :=
  ∃ text, error = Some text ∧ text ≠ "".

(** The immediate scenario of the source, and three uploads in
    binary64 of which the second meets an SFTP connection that closes:
    the read raises an exception without a message, as [EOFError()]. *)
Definition immediate_rush : StressScenario :=
  {| scenario_name := "Sunday_Immediate_Rush";
     description := "Everyone uploads immediately after service (worst case)";
     file_count := 25;
     concurrent_uploads := 15;
     duration_minutes := 5;
     upload_pattern := "immediate";
     file_size_preference := "large";
     simulate_interruptions := false;
     network_delay_ms := 0 |}.

Definition accepting_session : Session float :=
  fun request =>
    if decide (verb request = "POST") then
      Returned {| status_code := 200; text := "";
                  json_body :=
                    Returned (JDict [("upload_url", JStr "https://minio.local/put")]) |}
    else
      Returned {| status_code := 200; text := "";
                  json_body := Raised (Exn "JSONDecodeError" "Expecting value") |}.

Definition accepted_task (read : outcome bytes) : Task float :=
  {| read_file_chunk := read;
     env := {| session := accepting_session;
               api_clock := {| started := of_Z 0; stopped := of_Z 1 |};
               put_clock := {| started := of_Z 1; stopped := of_Z 3 |};
               stamp := 1700000000 |};
     finishes := true |}.

Definition closed_connection : exn := Exn "EOFError" "".

Definition uploads_with_closed_connection : list (TestFile * Task float) :=
  [(sample_file "sermon_1.wav", accepted_task (Returned []));
   (sample_file "sermon_2.wav", accepted_task (Raised closed_connection));
   (sample_file "sermon_3.wav", accepted_task (Returned []))].

(** The same uploads for the single-file and batch tests, and an API
    that hands out the upload URL of the first two files only. *)
Definition sample_transfers : list (TestFile * Transfer Q) :=
  (fun entry : TestFile * Task Q =>
     (entry.1, {| transfer_read := read_file_chunk entry.2;
                  transfer_env := env entry.2 |})) <$> sample_uploads.

Definition sample_batch_api : Session Q :=
  fun _ =>
    Returned {| status_code := 200; text := "";
                json_body :=
                  Returned (JDict [("urls",
                                    JDict [("sermon_1.wav", JStr "https://minio.local/1");
                                           ("sermon_2.wav", JStr "https://minio.local/2")])])
             |}.

(** The largest value of [random.random()]: 1 - 2^-53. *)
Definition largest_draw : float := 0x1.fffffffffffffp-1%float.

End SundayMorningStressTest.

(** * shared/discord_live_notifier.py: [SermonPipelineTracker]

    The tracker and its notifier hold the same [ProgressMessage]
    objects: [create_progress_message] stores the object it returns in
    [active_messages], [start_batch_upload] stores it again in
    [active_batches], and [update_progress] and [complete_batch] change
    it in place. The objects live in a store, and the two dictionaries
    map message ids to addresses of the store. *)
Module Tracker.
Import Notifier.
Section WithArith.
Context {F : Type} `{PyFloat F}.

(** The state of a [SermonPipelineTracker] and of its notifier. *)
Record SermonPipelineTracker : Type := {
  store : list (ProgressMessage F);
  tracker_webhook_url : string;
  tracker_webhook_id : string;
  tracker_webhook_token : string;
  message_refs : gmap string nat;
  active_batches : gmap string nat;
}.

(** [self.notifier]: its dictionary [active_messages], with the objects
    that it refers to. *)
Definition notifier (t : SermonPipelineTracker) : DiscordLiveNotifier F :=
  {| notifier_webhook_url := tracker_webhook_url t;
     webhook_id := tracker_webhook_id t;
     webhook_token := tracker_webhook_token t;
     active_messages := omap (fun a => store t !! a) (message_refs t) |}.

(** [self.notifier.update_progress(...)]: the call on the notifier; the
    object that it changed is changed in the store. *)
Definition notifier_update_progress (r : Rendering F) (remote : Remote) (now : datetime)
    (t : SermonPipelineTracker) (message_id file : string) (stage : ProcessingStage)
    (info : option (FileInfo F)) : SermonPipelineTracker * list PatchRequest * bool :=
  let '(n', requests, ok) :=
    update_progress r remote now (notifier t) message_id file stage info in
  let store' :=
    match message_refs t !! message_id, active_messages n' !! message_id with
    | Some a, Some message' => <[a := message']> (store t)
    | _, _ => store t
    end in
  ({| store := store';
      tracker_webhook_url := tracker_webhook_url t;
      tracker_webhook_id := tracker_webhook_id t;
      tracker_webhook_token := tracker_webhook_token t;
      message_refs := message_refs t;
      active_batches := active_batches t |}, requests, ok).

(** The glyphs of the titles. *)
Record Icons : Type := {
  icon_upload : string;
  icon_warning : string;
  icon_check : string;
}.

(** ['s' if count > 1 else '']. *)
Definition plural (count : nat) : string := if decide (1 < count)%nat then "s" else "".

(** [start_batch_upload]: the message that the notifier creates is a
    new object, stored in both dictionaries. *)
Definition start_batch_upload (r : Rendering F) (icons : Icons) (webhook : Webhook)
    (now created updated : datetime) (t : SermonPipelineTracker) (files : list string)
  : SermonPipelineTracker * option string :=
  let title :=
    icon_upload icons +:+ " Uploading " +:+ pretty (length files) +:+ " Sermon"
    +:+ plural (length files) in
  match (create_progress_message r webhook now created updated (notifier t) title
           files).2 with
  | Some message =>
      let a := length (store t) in
      ({| store := store t ++ [message];
          tracker_webhook_url := tracker_webhook_url t;
          tracker_webhook_id := tracker_webhook_id t;
          tracker_webhook_token := tracker_webhook_token t;
          message_refs := <[message_id message := a]> (message_refs t);
          active_batches := <[message_id message := a]> (active_batches t) |},
       Some (message_id message))
  | None => (t, None)
  end.

(** The title that [complete_batch] gives the message. *)
Definition completion_title (icons : Icons) (stages : pydict ProcessingStage) : string :=
  let completed := count_stage COMPLETED stages in
  let errors := count_stage ERROR stages in
  if decide (0 < errors)%nat then
    icon_warning icons +:+ " Batch Complete with " +:+ pretty errors +:+ " Error"
    +:+ plural errors
  else
    icon_check icons +:+ " Successfully Processed " +:+ pretty completed +:+ " Sermon"
    +:+ plural completed.

(** [complete_batch]: the new state and the request sent; what the
    request meets is only logged. The dictionaries hold addresses of
    the store only. *)
Definition complete_batch (r : Rendering F) (icons : Icons) (now : datetime)
    (t : SermonPipelineTracker) (batch_id : string)
  : SermonPipelineTracker * list PatchRequest :=
  match active_batches t !! batch_id with
  | None => (t, [])
  | Some a =>
      match store t !! a with
      | None => (t, [])
      | Some message =>
          let new_title := completion_title icons (stages message) in
          let message' :=
            {| message_id := message_id message;
               channel_id := channel_id message;
               webhook_url := webhook_url message;
               title := new_title;
               created_at := created_at message;
               last_updated := last_updated message;
               stages := stages message;
               file_info := file_info message |} in
          let embed :=
            _create_progress_embed r now new_title (stages message) (file_info message) in
          let request :=
            {| patch_url := edit_url (notifier t) batch_id; patch_embed := embed |} in
          ({| store := <[a := message']> (store t);
              tracker_webhook_url := tracker_webhook_url t;
              tracker_webhook_id := tracker_webhook_id t;
              tracker_webhook_token := tracker_webhook_token t;
              message_refs := message_refs t;
              active_batches := delete batch_id (active_batches t) |}, [request])
      end
  end.

(** One call of [update_progress] through the tracker. *)
Definition tracker_call (r : Rendering F) (t : SermonPipelineTracker) (c : Call F)
  : SermonPipelineTracker :=
  (notifier_update_progress r (call_remote c) (call_now c) t (call_message c)
     (call_file c) (call_stage c) (call_info c)).1.1.

(** The dictionaries hold addresses of the store, and no two message
    ids of the notifier share an object. *)
Definition well_formed (t : SermonPipelineTracker) : Prop :=
  (∀ id a, message_refs t !! id = Some a → (a < length (store t))%nat)
  ∧ (∀ id a, active_batches t !! id = Some a → (a < length (store t))%nat)
  ∧ (∀ id id' a, message_refs t !! id = Some a → message_refs t !! id' = Some a
                 → id = id').

(** The batch is held by both dictionaries as one object. *)
Definition shared (t : SermonPipelineTracker) (batch_id : string) : Prop :=
  ∃ a, active_batches t !! batch_id = Some a ∧ message_refs t !! batch_id = Some a.

End WithArith.

Arguments SermonPipelineTracker F : clear implicits.

(** A tracker that has tracked nothing yet, and stand-ins for the
    glyphs. *)
Definition sample_tracker : SermonPipelineTracker Q :=
  {| store := [];
     tracker_webhook_url := "https://discord.com/api/webhooks/1/token";
     tracker_webhook_id := "1";
     tracker_webhook_token := "token";
     message_refs := ∅;
     active_batches := ∅ |}.

Definition sample_icons : Icons :=
  {| icon_upload := "up"; icon_warning := "warning"; icon_check := "ok" |}.

End Tracker.

(** * pi-processor/sermon_processor_live.py: the caller of the tracker *)
Module SermonProcessorLive.
Import Notifier Tracker.
Section WithArith.
Context {F : Type} `{PyFloat F}.

(** What the processing of one file meets: the download, the sizes of
    the two temporary files, FFmpeg (its return code, or the exception
    of [subprocess.run], a timeout included), the clock around the
    conversion, the upload, and for each of its two calls of the tracker
    the answer of the remote service and the clock. *)
Record Work : Type := {
  fget_object : outcome unit;
  original_size : outcome Z;
  ffmpeg : outcome Z;
  conversion_started : F;
  conversion_stopped : F;
  converted_size : outcome Z;
  fput_object : outcome unit;
  processing_remote : Remote;
  processing_now : datetime;
  final_remote : Remote;
  final_now : datetime;
}.

(** [convert_wav_to_aac]. *)
Definition convert_wav_to_aac (w : Work) : bool :=
  match ffmpeg w with
  | Returned returncode => bool_decide (returncode = 0)
  | Raised _ => false
  end.

(** The [try] block of [process_file] up to the call of the tracker:
    the conversion time and the size reduction in percent.
    [update_metadata] catches its own exceptions. *)
Definition convert (w : Work) : outcome (F * F) :=
  _ ← fget_object w;
  original ← original_size w;
  if convert_wav_to_aac w then
    let conversion_time := fsub (conversion_stopped w) (conversion_started w) in
    converted ← converted_size w;
    ratio ← truediv (of_Z (original - converted)) original;
    let size_reduction := fmul ratio (of_Z 100) in
    _ ← fput_object w;
    mret (conversion_time, size_reduction)
  else Raised (Exn "Exception" "Conversion failed").

(** The calls of [update_progress] that [mark_file_processing],
    [mark_file_complete] and [mark_file_error] make. *)
Definition processing_call (remote : Remote) (now : datetime) (batch_id filename : string)
  : Call F :=
  {| call_message := batch_id; call_file := filename; call_stage := PROCESSING;
     call_info := None; call_remote := remote; call_now := now |}.

Definition complete_call (remote : Remote) (now : datetime) (batch_id filename : string)
    (dur reduction : option F) : Call F :=
  {| call_message := batch_id; call_file := filename; call_stage := COMPLETED;
     call_info := Some {| progress_percent := None; size := None;
                          duration := truthy_F dur;
                          size_reduction := truthy_F reduction; error := None |};
     call_remote := remote; call_now := now |}.

Definition error_call (remote : Remote) (now : datetime) (batch_id filename : string)
    (text : string) : Call F :=
  {| call_message := batch_id; call_file := filename; call_stage := ERROR;
     call_info := Some {| progress_percent := None; size := None; duration := None;
                          size_reduction := None;
                          error := Some (String.substring 0 200 text) |};
     call_remote := remote; call_now := now |}.

(** [if self.current_batch_id:] is false for [None] and for the empty
    string. *)
Definition when_tracking (current_batch_id : option string) (call : string → Call F)
  : list (Call F) :=
  match current_batch_id with
  | Some batch_id => if decide (batch_id = "") then [] else [call batch_id]
  | None => []
  end.

(** [process_file]: the calls of the tracker that it makes, the new
    set [processed_files] and the value returned. *)
Definition process_file (w : Work) (current_batch_id : option string)
    (processed_files : gset string) (wav_object_name : string)
  : list (Call F) * gset string * bool :=
  let filename := basename wav_object_name in
  let started :=
    when_tracking current_batch_id
      (fun batch_id =>
         processing_call (processing_remote w) (processing_now w) batch_id filename) in
  match convert w with
  | Returned (conversion_time, size_reduction) =>
      ((started
        ++ when_tracking current_batch_id
             (fun batch_id =>
                complete_call (final_remote w) (final_now w) batch_id filename
                  (Some conversion_time) (Some size_reduction)))%list,
       {[ filename ]} ∪ processed_files, true)
  | Raised e =>
      ((started
        ++ when_tracking current_batch_id
             (fun batch_id =>
                error_call (final_remote w) (final_now w) batch_id filename
                  (exn_text e)))%list,
       processed_files, false)
  end.

(** The loop of [process_pending_files]: it stops at the first round
    at which [self.running] is false ([running i] is the flag at round
    [i]). *)
Fixpoint process_files (current_batch_id : option string) (running : nat → bool)
    (i : nat) (processed_files : gset string) (pending : list (string * Work))
  : list (Call F) * gset string :=
  match pending with
  | [] => ([], processed_files)
  | (wav_object, w) :: rest =>
      if running i then
        let '(calls, processed_files', _) :=
          process_file w current_batch_id processed_files wav_object in
        let '(calls', processed_files'') :=
          process_files current_batch_id running (S i) processed_files' rest in
        ((calls ++ calls')%list, processed_files'')
      else ([], processed_files)
  end.

(** The stage that [process_file] passes last: [COMPLETED] at the end
    of its [try] block, [ERROR] in its handler. *)
Definition final_stage (w : Work) : ProcessingStage :=
  match convert w with Returned _ => COMPLETED | Raised _ => ERROR end.

(** The stage of [file] after a loop that runs to its end, from the
    stage [s] before it: the one passed last for the last pending file
    of this name. *)
Definition stage_left (file : string) (s : ProcessingStage)
    (pending : list (string * Work)) : ProcessingStage :=
  foldl (fun s p => if decide (basename p.1 = file) then final_stage p.2 else s)
    s pending.

(** [get_pending_files]; [listing] holds the names of the objects that
    the listing of the bucket yields before it ends or raises. *)
Definition get_pending_files (listing : list string) (processed_files : gset string)
  : list string :=
  filter (fun object_name =>
            str_endswith ".wav" object_name = true
            ∧ basename object_name ∉ processed_files) listing.

(** [process_pending_files]: the new state of the tracker and the new
    set [processed_files]. [now], [created] and [updated] are the clock
    when the batch starts, [final_now] when it is completed, and
    [work_at k] is what the processing of the pending file at position
    [k] meets. *)
Definition process_pending_files (r : Rendering F) (icons : Icons) (webhook : Webhook)
    (now created updated : datetime) (running : nat → bool) (work_at : nat → Work)
    (final_now : datetime) (t : SermonPipelineTracker F) (processed_files : gset string)
    (listing : list string) : SermonPipelineTracker F * gset string :=
  let pending := get_pending_files listing processed_files in
  if decide (pending = []) then (t, processed_files)
  else
    let filenames := basename <$> pending in
    let '(t1, current_batch_id) :=
      start_batch_upload r icons webhook now created updated t filenames in
    let '(calls, processed_files') :=
      process_files current_batch_id running 0 processed_files
        (imap (fun k wav_object => (wav_object, work_at k)) pending) in
    let t2 := foldl (tracker_call r) t1 calls in
    match current_batch_id with
    | Some batch_id =>
        if decide (batch_id = "") then (t2, processed_files')
        else ((complete_batch r icons final_now t2 batch_id).1, processed_files')
    | None => (t2, processed_files')
    end.

End WithArith.

Arguments Work F : clear implicits.

(** The processing of a file that succeeds, and one whose conversion
    fails, over exact arithmetic. *)
Definition sample_work (converts : bool) : Work Q :=
  {| fget_object := Returned ();
     original_size := Returned 629145600;
     ffmpeg := Returned (if converts then 0 else 1);
     conversion_started := inject_Z 0;
     conversion_stopped := inject_Z 5;
     converted_size := Returned 62914560;
     fput_object := Returned ();
     processing_remote := fun _ => Returned 200;
     processing_now := 0;
     final_remote := fun _ => Returned 200;
     final_now := 0 |}.

End SermonProcessorLive.

(** * Proofs *)

(** * Facts about the runtime *)

(** Linear arithmetic with floor division by constants. *)
Ltac zlia := Z.div_mod_to_equations; lia.

Lemma getitem_lookup {A} (xs : list A) (i : Z) (x : A) :
  0 ≤ i → xs !! Z.to_nat i = Some x → getitem xs i = Returned x.
Proof.
  intros Hi Hx. unfold getitem. cbv zeta.
  repeat case_decide; try lia. by rewrite Hx.
Qed.

Lemma getitem_in_range {A} (xs : list A) (i : Z) :
  0 ≤ i < Z.of_nat (length xs) → ∃ x, getitem xs i = Returned x ∧ xs !! Z.to_nat i = Some x.
Proof.
  intros Hi. destruct (lookup_lt_is_Some_2 xs (Z.to_nat i)) as [x Hx]; [lia|].
  exists x. split; [|done]. apply getitem_lookup; [lia|done].
Qed.

Lemma truediv_nonzero {F} `{PyFloat F} (x : F) (n : Z) :
  n ≠ 0 → truediv x n = Returned (fdiv x (of_Z n)).
Proof. intros Hn. unfold truediv. by rewrite decide_False. Qed.

Section ForEach.
Context {A B : Type} (f : A → outcome B).

Lemma for_each_returns (xs : list A) :
  (∀ x, x ∈ xs → returns (f x)) →
  ∃ ys, statistics.for_each f xs = Returned ys
        ∧ Forall2 (fun x y => f x = Returned y) xs ys.
Proof.
  induction xs as [|x xs IH]; intros Hall.
  - exists []. split; [done|constructor].
  - destruct (Hall x) as [y Hy]; [apply list_elem_of_here|].
    destruct IH as (ys & Hys & Hrel);
      [intros; by apply Hall, list_elem_of_further|].
    exists (y :: ys). split; [|by constructor].
    simpl. rewrite Hy. simpl. rewrite Hys. done.
Qed.
End ForEach.

(** * Sorting, without any law of the arithmetic *)
Section SortShape.
Context {F : Type} `{PyFloat F}.

Lemma insert_sorted_perm (x : F) (l : list F) : insert_sorted x l ≡ₚ x :: l.
Proof.
  induction l as [|y l IH]; simpl; [done|].
  destruct (fltb x y); [done|]. rewrite IH. apply Permutation_swap.
Qed.

Lemma sorted_perm (l : list F) : sorted l ≡ₚ l.
Proof.
  unfold sorted.
  assert (G : ∀ acc, foldl (fun acc x => insert_sorted x acc) acc l ≡ₚ l ++ acc).
  { induction l as [|x l IH]; intros acc; simpl; [done|].
    rewrite IH, insert_sorted_perm. by rewrite Permutation_middle. }
  rewrite G. by rewrite app_nil_r.
Qed.

Lemma length_sorted (l : list F) : length (sorted l) = length l.
Proof. by rewrite sorted_perm. Qed.

Lemma elem_of_sorted (x : F) (l : list F) : x ∈ sorted l ↔ x ∈ l.
Proof. by rewrite sorted_perm. Qed.

Lemma cut_point_returns (data : list F) (n i : Z) :
  2 ≤ Z.of_nat (length data) → n ≠ 0 → returns (statistics.cut_point data n i).
Proof.
  intros Hld Hn. unfold statistics.cut_point.
  set (ld := Z.of_nat (length data)) in *.
  set (j := if decide ((i * (ld + 1)) `div` n < 1) then 1
            else if decide ((i * (ld + 1)) `div` n > ld - 1) then ld - 1
                 else (i * (ld + 1)) `div` n).
  assert (Hj : 1 ≤ j ≤ ld - 1) by (subst j; repeat case_decide; lia).
  destruct (getitem_in_range data (j - 1)) as (a & -> & _); [lia|].
  destruct (getitem_in_range data j) as (b & -> & _); [lia|].
  simpl. rewrite truediv_nonzero by done. by eexists.
Qed.

Lemma quantiles_returns (ds : list F) (n : Z) :
  1 ≤ n → 2 ≤ Z.of_nat (length ds) →
  ∃ qs, statistics.quantiles ds n = Returned qs
        ∧ Forall2 (fun i q => statistics.cut_point (sorted ds) n i = Returned q)
            (seqZ 1 (n - 1)) qs.
Proof.
  intros Hn Hld. unfold statistics.quantiles.
  rewrite decide_False by lia. rewrite length_sorted. rewrite decide_False by lia.
  apply for_each_returns. intros i _. apply cut_point_returns; [|lia].
  by rewrite length_sorted.
Qed.

Lemma quantiles_getitem (ds : list F) (n k : Z) :
  1 ≤ n → 2 ≤ Z.of_nat (length ds) → 0 ≤ k < n - 1 →
  ∃ qs q, statistics.quantiles ds n = Returned qs
          ∧ getitem qs k = Returned q
          ∧ statistics.cut_point (sorted ds) n (1 + k) = Returned q.
Proof.
  intros Hn Hld Hk.
  destruct (quantiles_returns ds n) as (qs & Hqs & Hrel); [done..|].
  assert (Hi : seqZ 1 (n - 1) !! Z.to_nat k = Some (1 + k)).
  { rewrite lookup_seqZ. split; lia. }
  destruct (Forall2_lookup_l _ _ _ _ _ Hrel Hi) as (q & Hq & Hcut).
  exists qs, q. split; [done|]. split; [|done]. by apply getitem_lookup; [lia|].
Qed.

Lemma median_returns (ds : list F) : ds ≠ [] → returns (statistics.median ds).
Proof.
  intros Hne. unfold statistics.median. cbv zeta. rewrite length_sorted.
  assert (0 < Z.of_nat (length ds)) by (destruct ds; [done|simpl; lia]).
  remember (Z.of_nat (length ds)) as n eqn:Hn.
  destruct (decide (n = 0)) as [?|_]; [lia|].
  case_decide.
  - destruct (getitem_in_range (sorted ds) (n `div` 2)) as (x & -> & _);
      [rewrite length_sorted, <- Hn; zlia|]. by eexists.
  - destruct (getitem_in_range (sorted ds) (n `div` 2 - 1)) as (a & -> & _);
      [rewrite length_sorted, <- Hn; zlia|].
    destruct (getitem_in_range (sorted ds) (n `div` 2)) as (b & -> & _);
      [rewrite length_sorted, <- Hn; zlia|].
    simpl. rewrite truediv_nonzero by done. by eexists.
Qed.

Lemma pymin_returns (x : F) (xs : list F) : returns (pymin (x :: xs)).
Proof. by eexists. Qed.

Lemma pymax_returns (x : F) (xs : list F) : returns (pymax (x :: xs)).
Proof. by eexists. Qed.

End SortShape.

(** * Facts about Python dictionaries *)
Section DictFacts.
Context {V : Type}.
Implicit Types (d : pydict V) (k : string) (v : V).

Lemma dict_get_set_eq k v d : dict_get k (dict_set k v d) = Some v.
Proof.
  induction d as [|[k' v'] d IH]; simpl.
  - by rewrite decide_True.
  - destruct (decide (k = k')) as [->|Hne]; simpl.
    + by rewrite decide_True.
    + by rewrite decide_False.
Qed.

Lemma dict_get_set_ne k k' v d : k ≠ k' → dict_get k' (dict_set k v d) = dict_get k' d.
Proof.
  intros Hne. induction d as [|[k0 v0] d IH]; simpl.
  - by rewrite decide_False.
  - destruct (decide (k = k0)) as [->|Hk]; simpl.
    + by rewrite !decide_False.
    + destruct (decide (k' = k0)); done.
Qed.

Lemma dict_mem_true k d : dict_mem k d = true ↔ is_Some (dict_get k d).
Proof. unfold dict_mem. destruct (dict_get k d); split; eauto; try done; by intros [? ?]. Qed.

Lemma dict_mem_false k d : dict_mem k d = false ↔ dict_get k d = None.
Proof. unfold dict_mem. destruct (dict_get k d); split; done. Qed.
End DictFacts.

Module NotifierFacts.
Import Notifier.
Section WithArith.
Context {F : Type} `{PyFloat F}.
Implicit Types (n : DiscordLiveNotifier F) (message : ProgressMessage F).

Lemma stages_record_progress_known now file stage info message :
  is_Some (dict_get file (stages message)) →
  stages (record_progress now file stage info message)
  = dict_set file stage (stages message).
Proof.
  intros Hin. apply dict_mem_true in Hin. unfold record_progress. simpl. by rewrite Hin.
Qed.

Lemma stages_record_progress_unknown now file stage info message :
  dict_get file (stages message) = None →
  stages (record_progress now file stage info message) = stages message.
Proof.
  intros Hin. apply dict_mem_false in Hin. unfold record_progress. simpl. by rewrite Hin.
Qed.

(** The stage that [record_progress] leaves for any file of the message. *)
Lemma stage_after_record_progress now file stage info message file' :
  dict_get file' (stages (record_progress now file stage info message))
  = if decide (file = file' ∧ is_Some (dict_get file (stages message)))
    then Some stage else dict_get file' (stages message).
Proof.
  destruct (dict_get file (stages message)) as [s|] eqn:Hget.
  - rewrite stages_record_progress_known by (rewrite Hget; eauto).
    destruct (decide (file = file')) as [<-|Hne].
    + rewrite dict_get_set_eq, decide_True; eauto.
    + rewrite dict_get_set_ne by done. rewrite decide_False; [done|]. by intros [? _].
  - rewrite stages_record_progress_unknown by done.
    rewrite decide_False; [done|]. intros [_ [? ?]]. done.
Qed.

Lemma active_messages_update_progress r remote now n message_id file stage info :
  active_messages (update_progress r remote now n message_id file stage info).1.1
  = match active_messages n !! message_id with
    | Some message =>
        <[message_id := record_progress now file stage info message]> (active_messages n)
    | None => active_messages n
    end.
Proof.
  unfold update_progress. destruct (active_messages n !! message_id); [|done].
  by destruct (remote _).
Qed.

(** The stage of any file of any message after one call. *)
Lemma stage_of_do_call r n c message_id file s :
  stage_of n message_id file = Some s →
  stage_of (do_call r n c) message_id file
  = Some (if decide (call_message c = message_id ∧ call_file c = file)
          then call_stage c else s).
Proof.
  unfold stage_of, do_call. intros Hs.
  rewrite active_messages_update_progress.
  destruct (active_messages n !! message_id) as [message|] eqn:Hm; [|done].
  simpl in Hs.
  destruct (decide (call_message c = message_id)) as [Heq|Hne].
  - rewrite Heq, Hm, lookup_insert_eq. cbn [mbind option_bind].
    rewrite stage_after_record_progress.
    destruct (decide (call_file c = file)) as [Hf|Hf].
    + rewrite Hf, !decide_True; [done| |]; rewrite ?Hs; eauto.
    + rewrite !decide_False; [done| |]; by intros [? ?].
  - rewrite decide_False by (by intros [? ?]).
    destruct (active_messages n !! call_message c).
    + rewrite lookup_insert_ne, Hm by done. done.
    + rewrite Hm. done.
Qed.

End WithArith.

(** C1 (amended). For every tracked batch message and every file in
    its stage mapping, the stage recorded for that file after each of
    the successive calls of [update_progress] is the stage last passed
    for that message and file: a call overwrites the stage whatever it
    was, [ERROR] included, and a call for another message or file
    leaves it as it was. The recorded sequence is the sequence that the
    callers pass; it never regresses only if they pass none that does. *)
Theorem recorded_stages_are_the_stages_passed {F : Type} `{PyFloat F}
    (r : Rendering F) (n : DiscordLiveNotifier F) (message_id file : string)
    (s : ProcessingStage) (calls : list (Call F)) :
  stage_of n message_id file = Some s →
  recorded r n message_id file calls = Some <$> last_passed message_id file s calls.
Proof.
  revert n s. induction calls as [|c calls IH]; intros n s Hs; [done|].
  simpl. pose proof (stage_of_do_call r n c _ _ _ Hs) as Hstep.
  rewrite Hstep. f_equal. by apply IH.
Qed.


(** C10. For every tracked message and every filename that is not a
    key of its stage mapping, [update_progress] leaves the stage mapping
    as it was, sends one edit of the message (to its edit URL, with
    the embed of the unchanged stages), and returns true exactly when
    the remote service answers that edit with status 200. *)
Theorem update_progress_unknown_file {F : Type} `{PyFloat F}
    (r : Rendering F) (remote : Remote) (now : datetime) (n : DiscordLiveNotifier F)
    (message_id file : string) (stage : ProcessingStage) (info : option (FileInfo F))
    (message : ProgressMessage F) :
  active_messages n !! message_id = Some message →
  dict_get file (stages message) = None →
  ∃ n' request ok,
    update_progress r remote now n message_id file stage info = (n', [request], ok)
    ∧ (∃ message', active_messages n' !! message_id = Some message'
                   ∧ stages message' = stages message)
    ∧ patch_url request = edit_url n message_id
    ∧ patch_embed request
      = _create_progress_embed r now (title message) (stages message)
          (file_info (record_progress now file stage info message))
    ∧ (ok = true ↔ remote request = Returned 200).
Proof.
  intros Hm Hfile. unfold update_progress. rewrite Hm.
  set (message' := record_progress now file stage info message).
  assert (Hst : stages message' = stages message)
    by by apply stages_record_progress_unknown.
  set (request := {| patch_url := _; patch_embed := _ |}).
  destruct (remote request) as [status|e] eqn:Hr.
  - eexists _, request, _. split; [done|]. split; [|split; [done|split]].
    + eexists. split; [apply lookup_insert_eq|done].
    + subst request. cbn [patch_embed]. by rewrite Hst.
    + rewrite bool_decide_eq_true, Hr. split; congruence.
  - eexists _, request, false. split; [done|]. split; [|split; [done|split]].
    + eexists. split; [apply lookup_insert_eq|done].
    + subst request. cbn [patch_embed]. by rewrite Hst.
    + rewrite Hr. split; [done|congruence].
Qed.

(** C1, as stated, fails. On a tracked batch whose first file is at
    DETECTED, the calls with COMPLETED and then UPLOADING record
    COMPLETED and then UPLOADING, a regression; the calls with ERROR and
    then COMPLETED record ERROR and then COMPLETED, so ERROR does not
    freeze the file. *)
Lemma update_progress_regresses_and_leaves_error :
  ¬ stages_never_regress sample_rendering sample_notifier "batch-1"
      "sermon_2024_01_01.wav" [sample_call COMPLETED; sample_call UPLOADING]
  ∧ ¬ stages_never_regress sample_rendering sample_notifier "batch-1"
        "sermon_2024_01_01.wav" [sample_call ERROR; sample_call COMPLETED].
Proof.
  split; intros Hclaim;
    destruct (Hclaim DETECTED eq_refl) as (trace & Htrace & Hmono);
    vm_compute in Htrace;
    destruct trace as [|s1 [|s2 [|s3 trace]]]; simplify_eq/=.
  - destruct Hmono as (_ & _ & Hregress & _). apply Hregress.
    unfold regresses. simpl. lia.
  - destruct Hmono as (_ & _ & _ & Hfrozen & _). by specialize (Hfrozen eq_refl).
Qed.

(** An instance of C1 (amended): three calls on the first file of the
    sample batch. *)
Lemma recorded_stages_are_the_stages_passed_witness :
  stage_of sample_notifier "batch-1" "sermon_2024_01_01.wav" = Some DETECTED
  ∧ recorded sample_rendering sample_notifier "batch-1" "sermon_2024_01_01.wav"
      [sample_call UPLOADING; sample_call ERROR; sample_call COMPLETED]
    = Some <$> last_passed "batch-1" "sermon_2024_01_01.wav" DETECTED
                 [sample_call UPLOADING; sample_call ERROR; sample_call COMPLETED].
Proof.
  split; [reflexivity|].
  apply (recorded_stages_are_the_stages_passed sample_rendering sample_notifier).
  reflexivity.
Defined.

(** An instance of C10: a file that the sample batch does not list. *)
Lemma update_progress_unknown_file_witness :
  ∃ n' request ok,
    update_progress sample_rendering (fun _ => Returned 200) 0 sample_notifier
      "batch-1" "unknown.wav" COMPLETED None = (n', [request], ok)
    ∧ (∃ message', active_messages n' !! "batch-1" = Some message'
                   ∧ stages message' = stages sample_message)
    ∧ patch_url request = edit_url sample_notifier "batch-1"
    ∧ patch_embed request
      = _create_progress_embed sample_rendering 0 (title sample_message)
          (stages sample_message)
          (file_info (record_progress 0 "unknown.wav" COMPLETED None sample_message))
    ∧ (ok = true ↔ (fun _ => Returned 200) request = Returned 200).
Proof.
  apply (update_progress_unknown_file sample_rendering (fun _ => Returned 200) 0
           sample_notifier "batch-1" "unknown.wav" COMPLETED None sample_message);
    reflexivity.
Defined.

End NotifierFacts.

Module MetricsFacts.
Import ApiUploadTests.
Section WithArith.
Context {F : Type} `{PyFloat F}.
Implicit Types (results : list (UploadResult F)) (xs : list F).

Lemma or_zero_nonempty {A} (l : list A) (value : outcome F) :
  l ≠ [] → or_zero l value = value.
Proof. by destruct l. Qed.

Lemma or_zero_returns {A} (l : list A) (value : outcome F) :
  (l ≠ [] → returns value) → returns (or_zero l value).
Proof. destruct l; [by eexists|]. intros Hv. by apply Hv. Qed.

Lemma length_nonempty {A} (l : list A) : l ≠ [] → Z.of_nat (length l) ≠ 0.
Proof. destruct l; [done|simpl; lia]. Qed.

Lemma pymin_nonempty_returns xs : xs ≠ [] → returns (pymin xs).
Proof. destruct xs; [done|]. intros _. apply pymin_returns. Qed.

Lemma pymax_nonempty_returns xs : xs ≠ [] → returns (pymax xs).
Proof. destruct xs; [done|]. intros _. apply pymax_returns. Qed.

(** The expression that computes [p95_duration] ([n] = 20, [k] = 18) and
    [p99_duration] ([n] = 100, [k] = 98). *)
Lemma percentile_returns xs (n k : Z) :
  2 ≤ n → 0 ≤ k < n - 1 →
  returns (if decide (n ≤ Z.of_nat (length xs))
           then qs ← statistics.quantiles xs n; getitem qs k
           else or_zero xs (pymax xs)).
Proof.
  intros Hn Hk. case_decide as Hlen.
  - destruct (quantiles_getitem xs n k) as (qs & q & -> & Hq & _); [lia..|].
    simpl. rewrite Hq. by eexists.
  - apply or_zero_returns, pymax_nonempty_returns.
Qed.

(** [_calculate_metrics] never raises, and these are the values it
    stores: each field is the value of the expression that the source
    writes for it. *)
Lemma calculate_metrics_returns (test_name : string) (start_time end_time : F) results :
  let durations := positive_durations results in
  let n_successful := Z.of_nat (length (filter (fun r => success r = true) results)) in
  ∃ m, _calculate_metrics test_name start_time end_time results = Returned m
       ∧ ApiUploadTests.results m = results
       ∧ total_files m = Z.of_nat (length results)
       ∧ successful_uploads m = n_successful
       ∧ failed_uploads m
         = Z.of_nat (length (filter (fun r => success r = false) results))
       ∧ or_zero results
           (q ← truediv (of_Z n_successful) (Z.of_nat (length results));
            mret (fmul q (of_Z 100)))
         = Returned (success_rate m)
       ∧ or_zero durations (pymin durations) = Returned (min_duration m)
       ∧ or_zero durations (pymax durations) = Returned (max_duration m)
       ∧ or_zero durations (statistics.median durations) = Returned (p50_duration m)
       ∧ (if decide (20 ≤ Z.of_nat (length durations))
          then qs ← statistics.quantiles durations 20; getitem qs 18
          else or_zero durations (pymax durations)) = Returned (p95_duration m)
       ∧ (if decide (100 ≤ Z.of_nat (length durations))
          then qs ← statistics.quantiles durations 100; getitem qs 98
          else or_zero durations (pymax durations)) = Returned (p99_duration m).
Proof.
  intros durations n_successful. unfold _calculate_metrics. cbv zeta.
  fold durations. fold n_successful.
  match goal with |- context [or_zero ?l (truediv ?x n_successful)] =>
    destruct (or_zero_returns l (truediv x n_successful)) as [avg ->] end.
  { intros Hne. rewrite truediv_nonzero by by apply length_nonempty. by eexists. }
  match goal with |- context [or_zero results ?v] =>
    destruct (or_zero_returns results v) as [rate Hrate] end.
  { intros Hne. rewrite truediv_nonzero by by apply length_nonempty. by eexists. }
  rewrite Hrate.
  destruct (or_zero_returns durations (pymin durations)) as [dmin Hmin];
    [apply pymin_nonempty_returns|rewrite Hmin].
  destruct (or_zero_returns durations (pymax durations)) as [dmax Hmax];
    [apply pymax_nonempty_returns|rewrite Hmax].
  destruct (or_zero_returns durations (statistics.median durations)) as [p50 Hp50];
    [apply median_returns|rewrite Hp50].
  destruct (percentile_returns durations 20 18) as [p95 Hp95]; [lia..|].
  destruct (percentile_returns durations 100 98) as [p99 Hp99]; [lia..|].
  rewrite Hmax in Hp95, Hp99. rewrite Hp95, Hp99.
  match goal with |- context [or_zero ?l (truediv ?x ?n)] =>
    destruct (or_zero_returns l (truediv x n)) as [api_avg ->] end.
  { intros Hne. rewrite truediv_nonzero by by apply length_nonempty. by eexists. }
  match goal with |- context [or_zero ?l (pymin ?l)] =>
    destruct (or_zero_returns l (pymin l)) as [api_min ->];
      [apply pymin_nonempty_returns|] end.
  match goal with |- context [or_zero ?l (pymax ?l)] =>
    destruct (or_zero_returns l (pymax l)) as [api_max ->];
      [apply pymax_nonempty_returns|] end.
  eexists. split; [reflexivity|]. simpl. repeat split; done.
Qed.

End WithArith.
End MetricsFacts.

(** * Sorting and extrema in an ordered arithmetic *)
Section OrderFacts.
Context {F : Type} `{PyFloat F} `{!OrderedArith F}.
Implicit Types (x y z : F) (l xs : list F).

Lemma fle_refl x : fle x x.
Proof. by destruct (fleb_total x x). Qed.

Lemma fle_trans x y z : fle x y → fle y z → fle x z.
Proof. apply fleb_trans. Qed.

Lemma fltb_true_fle x y : fltb x y = true → fle x y.
Proof.
  rewrite fltb_fleb, negb_true_iff. intros Hyx.
  destruct (fleb_total x y) as [?|Hle]; [done|]. congruence.
Qed.

Lemma fltb_false_fle x y : fltb x y = false → fle y x.
Proof. rewrite fltb_fleb, negb_false_iff. done. Qed.

Lemma insert_sorted_StronglySorted x l :
  StronglySorted fle l → StronglySorted fle (insert_sorted x l).
Proof.
  induction 1 as [|y l Hl IH Hy]; simpl.
  - repeat constructor.
  - destruct (fltb x y) eqn:Hxy.
    + apply fltb_true_fle in Hxy. constructor; [by constructor|].
      constructor; [done|]. eapply Forall_impl; [exact Hy|].
      intros z Hz. by eapply fle_trans.
    + apply fltb_false_fle in Hxy. constructor; [done|].
      rewrite insert_sorted_perm. by constructor.
Qed.

Lemma sorted_StronglySorted l : StronglySorted fle (sorted l).
Proof.
  unfold sorted.
  assert (G : ∀ acc, StronglySorted fle acc →
                     StronglySorted fle (foldl (fun acc x => insert_sorted x acc) acc l)).
  { induction l as [|x l IH]; intros acc Hacc; simpl; [done|].
    by apply IH, insert_sorted_StronglySorted. }
  apply G. constructor.
Qed.

Lemma StronglySorted_lookup l (i j : nat) x y :
  StronglySorted fle l → (i ≤ j)%nat → l !! i = Some x → l !! j = Some y → fle x y.
Proof.
  intros Hl. revert i j. induction Hl as [|z l Hl IH Hz]; intros i j Hij Hi Hj; [done|].
  destruct i as [|i], j as [|j]; simpl in *; simplify_eq.
  - apply fle_refl.
  - rewrite Forall_forall in Hz. apply Hz. by eapply list_elem_of_lookup_2.
  - lia.
  - apply (IH i j); [lia|done..].
Qed.

(** The element that a left-to-right scan keeps, replacing the one it
    holds by each element that is [better]: it is an element of the
    list and is related to all of them. *)
Lemma scan_extremum (better : F → F → bool) (R : F → F → Prop) xs x :
  (∀ y, R y y) →
  (∀ a b c, R a b → R b c → R a c) →
  (∀ m y, better y m = true → R y m) →
  (∀ m y, better y m = false → R m y) →
  let m := foldl (fun m y => if better y m then y else m) x xs in
  m ∈ x :: xs ∧ ∀ y, y ∈ x :: xs → R m y.
Proof.
  intros Hrefl Htrans Hyes Hno. revert x.
  induction xs as [|y xs IH]; intros x; simpl.
  - split; [apply list_elem_of_here|].
    intros y ->%list_elem_of_singleton. apply Hrefl.
  - destruct (better y x) eqn:Hyx.
    + destruct (IH y) as [Hm Hle]. split; [by apply list_elem_of_further|].
      intros z [->|Hz]%elem_of_cons; [|by apply Hle].
      apply Htrans with y; [apply Hle, list_elem_of_here|by apply Hyes].
    + destruct (IH x) as [Hm Hle]. split.
      * apply elem_of_cons in Hm as [->|Hm]; [apply list_elem_of_here|].
        by do 2 apply list_elem_of_further.
      * intros z [->|[->|Hz]%elem_of_cons]%elem_of_cons.
        -- apply Hle, list_elem_of_here.
        -- apply Htrans with x; [apply Hle, list_elem_of_here|by apply Hno].
        -- by apply Hle, list_elem_of_further.
Qed.

(** [min] returns an element that is below every element. *)
Lemma pymin_spec xs :
  xs ≠ [] → ∃ m, pymin xs = Returned m ∧ m ∈ xs ∧ ∀ y, y ∈ xs → fle m y.
Proof.
  destruct xs as [|x xs]; [done|]. intros _. eexists. split; [done|].
  apply (scan_extremum (fun y m => fltb y m) fle).
  - apply fle_refl.
  - apply fle_trans.
  - intros m y. apply fltb_true_fle.
  - intros m y. apply fltb_false_fle.
Qed.

(** [max] returns an element that is above every element. *)
Lemma pymax_spec xs :
  xs ≠ [] → ∃ m, pymax xs = Returned m ∧ m ∈ xs ∧ ∀ y, y ∈ xs → fle y m.
Proof.
  destruct xs as [|x xs]; [done|]. intros _. eexists. split; [done|].
  apply (scan_extremum (fun y m => fltb m y) (fun m y => fle y m)).
  - apply fle_refl.
  - intros a b c Hab Hbc. by apply fle_trans with b.
  - intros m y. apply fltb_true_fle.
  - intros m y. apply fltb_false_fle.
Qed.

(** The median lies between an element of the data and the element of
    rank [n // 2] of the sorted data. *)
Lemma median_spec xs :
  xs ≠ [] →
  ∃ m a b, statistics.median xs = Returned m
           ∧ a ∈ xs
           ∧ sorted xs !! Z.to_nat (Z.of_nat (length xs) `div` 2) = Some b
           ∧ fle a m ∧ fle m b.
Proof.
  intros Hne. unfold statistics.median. cbv zeta. rewrite length_sorted.
  assert (0 < Z.of_nat (length xs)) by (destruct xs; [done|simpl; lia]).
  remember (Z.of_nat (length xs)) as n eqn:Hn.
  destruct (decide (n = 0)) as [?|_]; [lia|].
  case_decide.
  - destruct (getitem_in_range (sorted xs) (n `div` 2)) as (x & -> & Hx);
      [rewrite length_sorted, <- Hn; zlia|].
    exists x, x, x. split; [done|]. split; [|split; [done|split; apply fle_refl]].
    apply elem_of_sorted. by eapply list_elem_of_lookup_2.
  - destruct (getitem_in_range (sorted xs) (n `div` 2 - 1)) as (a & -> & Ha);
      [rewrite length_sorted, <- Hn; zlia|].
    destruct (getitem_in_range (sorted xs) (n `div` 2)) as (b & -> & Hb);
      [rewrite length_sorted, <- Hn; zlia|].
    simpl. rewrite truediv_nonzero by done.
    assert (Hab : fle a b).
    { eapply (StronglySorted_lookup (sorted xs)); [apply sorted_StronglySorted| |done..].
      zlia. }
    destruct (midpoint_between a b Hab) as [Hlo Hhi].
    eexists _, a, b. split; [done|]. split; [|done].
    apply elem_of_sorted. by eapply list_elem_of_lookup_2.
Qed.

(** A cut point that needs no clamping lies between the two elements
    of the sorted data around its rank. *)
Lemma cut_point_spec `{!ExactInterpolation F} (data : list F) (n i : Z) :
  StronglySorted fle data → 0 < n →
  let j := (i * (Z.of_nat (length data) + 1)) `div` n in
  1 ≤ j ≤ Z.of_nat (length data) - 1 →
  ∃ q a b, statistics.cut_point data n i = Returned q
           ∧ data !! Z.to_nat (j - 1) = Some a
           ∧ data !! Z.to_nat j = Some b
           ∧ fle a q ∧ fle q b.
Proof.
  intros Hsorted Hn j Hj. unfold statistics.cut_point. cbv zeta. fold j.
  rewrite decide_False by (clearbody j; lia).
  rewrite decide_False by (clearbody j; lia).
  destruct (getitem_in_range data (j - 1)) as (a & -> & Ha); [clearbody j; lia|].
  destruct (getitem_in_range data j) as (b & -> & Hb); [clearbody j; lia|].
  simpl. rewrite truediv_nonzero by lia.
  assert (Hab : fle a b).
  { eapply (StronglySorted_lookup data); [done| |done..]. clearbody j. lia. }
  set (delta := i * (Z.of_nat (length data) + 1) - j * n).
  assert (Hdelta : 0 ≤ delta ≤ n).
  { subst delta j. clear Hj Ha Hb.
    generalize (i * (Z.of_nat (length data) + 1)). intros X.
    pose proof (Z.mod_pos_bound X n Hn) as Hmod.
    rewrite (Z.mul_comm (X `div` n) n), <- Z.mod_eq by lia. lia. }
  destruct (interpolation_between a b n delta Hn Hdelta Hab) as [Hlo Hhi].
  by eexists _, a, b.
Qed.

End OrderFacts.

(** * Exact rational arithmetic satisfies the laws *)
Section ExactArith.
Local Open Scope Q_scope.

Lemma Qred_inject_Z (z : Z) : Qred (inject_Z z) = inject_Z z.
Proof. apply Qred_identity. simpl. apply Z.gcd_1_r. Qed.

Lemma exact_fleb (x y : Q) : fleb x y = true ↔ x <= y.
Proof. apply Qle_bool_iff. Qed.

#[export] Instance exact_arith_ordered : OrderedArith Q.
Proof.
  split.
  - intros x y. rewrite !exact_fleb. destruct (Qlt_le_dec x y); [left|right]; lra.
  - intros x y z. rewrite !exact_fleb. lra.
  - done.
  - intros x y. rewrite !exact_fleb. simpl. rewrite !Qred_correct.
    change (inject_Z 2) with 2. intros Hxy. split.
    + apply Qle_shift_div_l; lra.
    + apply Qle_shift_div_r; lra.
Qed.

#[export] Instance exact_arith_interpolation : ExactInterpolation Q.
Proof.
  intros a b n w Hn Hw. rewrite !exact_fleb. simpl. rewrite !Qred_correct.
  intros Hab.
  assert (HN : 0 < inject_Z n) by (change 0 with (inject_Z 0); by rewrite <- Zlt_Qlt).
  assert (HW : 0 <= inject_Z w) by (change 0 with (inject_Z 0); rewrite <- Zle_Qle; lia).
  assert (HWN : inject_Z w <= inject_Z n) by (rewrite <- Zle_Qle; lia).
  replace (n - w)%Z with (n + - w)%Z by lia.
  rewrite inject_Z_plus, inject_Z_opp.
  set (N := inject_Z n) in *. set (W := inject_Z w) in *.
  assert (Hprod : 0 <= (b - a) * W) by (apply Qmult_le_0_compat; lra).
  assert (Hprod' : 0 <= (b - a) * (N - W)) by (apply Qmult_le_0_compat; lra).
  split.
  - apply Qle_shift_div_l; [done|]. lra.
  - apply Qle_shift_div_r; [done|]. lra.
Qed.

#[export] Instance exact_arith_monotone : MonotoneArith Q.
Proof.
  split.
  - intros c x y. rewrite !exact_fleb. simpl. rewrite !Qred_correct. lra.
  - intros c x y. rewrite !exact_fleb. simpl. rewrite !Qred_correct.
    change (inject_Z 0) with 0. intros Hc Hxy.
    assert (0 <= c * (y - x)) by (apply Qmult_le_0_compat; lra). lra.
  - intros a b _ _ _. simpl. rewrite <- (Qred_inject_Z (a + b)).
    apply Qred_complete. by rewrite inject_Z_plus.
  - intros a b _ _. simpl. rewrite <- (Qred_inject_Z (a - b)).
    apply Qred_complete. replace (a - b)%Z with (a + - b)%Z by lia.
    by rewrite inject_Z_plus, inject_Z_opp.
  - intros a b _ _ _. simpl. rewrite <- (Qred_inject_Z (a * b)).
    apply Qred_complete. by rewrite inject_Z_mult.
  - intros a b Hab _. rewrite exact_fleb. simpl. rewrite <- Zle_Qle. lia.
Qed.

End ExactArith.

Module MetricsTheorems.
Import ApiUploadTests MetricsFacts.

(** C2. For the empty list of results, and any start and end times,
    [_calculate_metrics] returns, and every count, byte total, rate,
    throughput, duration statistic and API response time of the metrics
    is zero. *)
Theorem empty_results_give_zero_metrics {F : Type} `{PyFloat F}
    (test_name : string) (start_time end_time : F) :
  ∃ m, _calculate_metrics test_name start_time end_time [] = Returned m
       ∧ total_files m = 0
       ∧ successful_uploads m = 0
       ∧ failed_uploads m = 0
       ∧ total_bytes m = 0
       ∧ avg_throughput_mbps m = of_Z 0
       ∧ success_rate m = of_Z 0
       ∧ min_duration m = of_Z 0
       ∧ max_duration m = of_Z 0
       ∧ p50_duration m = of_Z 0
       ∧ p95_duration m = of_Z 0
       ∧ p99_duration m = of_Z 0
       ∧ avg_api_response_time m = of_Z 0
       ∧ min_api_response_time m = of_Z 0
       ∧ max_api_response_time m = of_Z 0.
Proof. eexists. split; [reflexivity|]. simpl. repeat split. Qed.

Lemma length_filter_success {F : Type} (results : list (UploadResult F)) :
  (length (filter (fun r => success r = true) results)
   + length (filter (fun r => success r = false) results))%nat
  = length results.
Proof.
  induction results as [|r results IH]; [done|].
  rewrite !filter_cons. destruct (success r); simpl; lia.
Qed.

(** C3. For every non-empty list of results, [_calculate_metrics]
    returns metrics in which [total_files] is [successful_uploads] plus
    [failed_uploads], [success_rate] is [successful_uploads / total_files
    * 100], and [successful_uploads] counts the results whose [success]
    is true. *)
Theorem counts_and_success_rate {F : Type} `{PyFloat F}
    (test_name : string) (start_time end_time : F) (results : list (UploadResult F)) :
  results ≠ [] →
  ∃ m, _calculate_metrics test_name start_time end_time results = Returned m
       ∧ total_files m = successful_uploads m + failed_uploads m
       ∧ success_rate m
         = fmul (fdiv (of_Z (successful_uploads m)) (of_Z (total_files m))) (of_Z 100)
       ∧ successful_uploads m
         = Z.of_nat (length (filter (fun r => success r = true) results)).
Proof.
  intros Hne.
  destruct (calculate_metrics_returns test_name start_time end_time results)
    as (m & Hm & _ & Htotal & Hsucc & Hfail & Hrate & _).
  exists m. split; [done|]. rewrite Htotal, Hsucc, Hfail. split; [|split; [|done]].
  - rewrite <- (length_filter_success results). lia.
  - rewrite or_zero_nonempty in Hrate by done.
    rewrite truediv_nonzero in Hrate by by apply length_nonempty.
    simpl in Hrate. by inversion Hrate.
Qed.


(** An instance of C3: two successes and one failure. *)
Lemma counts_and_success_rate_witness :
  [sample_result (inject_Z 2); sample_failure; sample_result (inject_Z 3)] ≠ []
  ∧ ∃ m, _calculate_metrics "immediate" (inject_Z 0) (inject_Z 10)
           [sample_result (inject_Z 2); sample_failure; sample_result (inject_Z 3)]
         = Returned m
         ∧ total_files m = successful_uploads m + failed_uploads m
         ∧ success_rate m
           = fmul (fdiv (of_Z (successful_uploads m)) (of_Z (total_files m))) (of_Z 100)
         ∧ successful_uploads m
           = Z.of_nat (length (filter (fun r => success r = true)
                                 [sample_result (inject_Z 2); sample_failure;
                                  sample_result (inject_Z 3)])).
Proof.
  split; [discriminate|].
  apply (counts_and_success_rate "immediate" (inject_Z 0) (inject_Z 10)
           [sample_result (inject_Z 2); sample_failure; sample_result (inject_Z 3)]).
  discriminate.
Defined.



End MetricsTheorems.

Module ClientTheorems.
Import ApiUploadTests.
Section WithArith.
Context {F : Type} `{PyFloat F}.

(** The body shared by [upload_direct] and [get_presigned_url]: only a
    status of 200 is a success. *)
Lemma post_surfaces_failures (met : outcome (Response F)) (w : Stopwatch F) :
  surfaces_failures met
    (try_except
       (response ← met;
        let duration := elapsed w in
        if decide (status_code response = 200) then
          payload ← json_body response; mret (true, payload, duration)
        else mret (false, http_error response, duration))
       (fun e => mret (false, exception_error e, elapsed w))).
Proof.
  unfold surfaces_failures. destruct met as [response|e]; simpl.
  - destruct (decide (status_code response = 200)) as [H200|Hne].
    + destruct (json_body response) as [payload|e]; simpl.
      * eexists _, _, _. split; [done|]. split; [done|]. intros ? [= <-] ?. lia.
      * eexists _, _, _. split; [done|]. split; [done|]. intros ? [= <-] ?. lia.
    + eexists _, _, _. split; [done|]. split; [done|]. by intros ? [= <-] _.
  - eexists _, _, _. split; [done|]. split; [|done]. by intros ? [= <-].
Qed.

End WithArith.

(** C5. Each operation of the client ([upload_direct],
    [get_presigned_url], [upload_presigned]) returns whatever its
    request meets: when the session raises, the result is a failure
    whose payload holds the text of the exception under "error"; when
    the response has a status outside 200-299, the result is a failure
    whose payload holds "HTTP <status>: <body>" under "error". The PUT
    also returns for any value passed as its URL. *)
Theorem client_surfaces_failures {F : Type} `{PyFloat F}
    (session : Session F) (w : Stopwatch F) (base_url filename presigned_url : string)
    (file_data : bytes) :
  surfaces_failures (session (direct_request base_url file_data filename))
    (upload_direct session w base_url file_data filename)
  ∧ surfaces_failures (session (presign_request base_url filename))
      (get_presigned_url session w base_url filename)
  ∧ surfaces_failures (session (put_request presigned_url file_data))
      (upload_presigned session w (Some (JStr presigned_url)) file_data)
  ∧ ∀ url_value, returns (upload_presigned session w url_value file_data).
Proof.
  split; [apply post_surfaces_failures|]. split; [apply post_surfaces_failures|].
  split.
  - unfold surfaces_failures, upload_presigned.
    destruct (session (put_request presigned_url file_data)) as [response|e]; simpl.
    + case_bool_decide as Hok.
      * eexists _, _, _. split; [done|]. split; [done|]. intros ? [= <-] ?. lia.
      * eexists _, _, _. split; [done|]. split; [done|]. by intros ? [= <-] _.
    + eexists _, _, _. split; [done|]. split; [|done]. by intros ? [= <-].
  - intros url_value. unfold upload_presigned.
    destruct url_value as [[| | | |u| |]|]; simpl; try by eexists.
    destruct (session (put_request u file_data)) as [response|e]; simpl;
      [case_bool_decide|]; by eexists.
Qed.

End ClientTheorems.

Module ScenarioFacts.
Import ApiUploadTests SundayMorningStressTest MetricsFacts.
Section WithArith.
Context {F : Type} `{PyFloat F}.
Implicit Types (t : Task F) (r : UploadResult F) (e : exn).

Lemma succeeding_upload base_url test_file t test_id scenario :
  upload_succeeds base_url test_file t →
  ∃ r, _upload_with_monitoring t base_url test_file test_id scenario = Returned r
       ∧ success r = true ∧ is_Some (throughput_mbps r).
Proof.
  intros (_ & file_data & presigned & d & u & put & Hread & Hpost & H200 & Hjson
          & Hurl & Hput & Hstatus).
  unfold _upload_with_monitoring, _test_presigned_upload, get_presigned_url,
    upload_presigned.
  rewrite Hread. simpl. rewrite Hpost. simpl.
  rewrite decide_True by done. rewrite Hjson. simpl. rewrite Hurl, Hput. simpl.
  rewrite bool_decide_eq_true_2 by done. simpl.
  eexists. split; [done|]. simpl. eauto.
Qed.

Lemma raising_upload base_url test_file t test_id scenario e :
  upload_raises base_url test_file t e →
  ∃ r, _upload_with_monitoring t base_url test_file test_id scenario = Returned r
       ∧ success r = false ∧ error r = Some (exn_text e).
Proof.
  intros (_ & [Hread | (file_data & Hread & [Hpost | Hput])]);
    unfold _upload_with_monitoring, _test_presigned_upload, get_presigned_url,
      upload_presigned.
  - rewrite Hread. simpl. by eexists.
  - rewrite Hread. simpl. rewrite Hpost. simpl. by eexists.
  - destruct Hput as (presigned & d & u & Hpost & H200 & Hjson & Hurl & Hput).
    rewrite Hread. simpl. rewrite Hpost. simpl.
    rewrite decide_True by done. rewrite Hjson. simpl. rewrite Hurl, Hput. simpl.
    by eexists.
Qed.

Lemma collect_succeeding base_url scenario (i : nat) test_file t :
  upload_succeeds base_url test_file t →
  ∃ r, collect_immediate base_url scenario i (test_file, t) = [r] ∧ success r = true.
Proof.
  intros Hok. pose proof Hok as [Hfin _].
  destruct (succeeding_upload _ _ _ ("immediate_" +:+ pretty i) scenario Hok)
    as (r & Hr & Hsuccess & [x Hx]).
  exists r. split; [|done].
  unfold collect_immediate, future_result, log_result.
  by rewrite Hfin, Hr, Hsuccess, Hx.
Qed.

Lemma collect_raising base_url scenario (i : nat) test_file t e :
  upload_raises base_url test_file t e →
  ∃ r, collect_immediate base_url scenario i (test_file, t) = [r]
       ∧ success r = false ∧ error r = Some (exn_text e).
Proof.
  intros Hbad. pose proof Hbad as [Hfin _].
  destruct (raising_upload _ _ _ ("immediate_" +:+ pretty i) scenario _ Hbad)
    as (r & Hr & Hsuccess & Herror).
  exists r. split; [|done].
  unfold collect_immediate, future_result, log_result.
  by rewrite Hfin, Hr, Hsuccess.
Qed.

(** The results collected when every upload succeeds: one per file,
    none of them a failure. The test identifiers [ids] play no part. *)
Lemma collected_successes base_url scenario (entries : list (TestFile * Task F))
    (ids : nat → nat) :
  (∀ j test_file t, entries !! j = Some (test_file, t) →
                    upload_succeeds base_url test_file t) →
  let results :=
    mjoin (imap (fun i => collect_immediate base_url scenario (ids i)) entries) in
  length results = length entries
  ∧ filter (fun r => success r = false) results = [].
Proof.
  revert ids. induction entries as [|[test_file t] entries IH]; intros ids Hall; [done|].
  destruct (collect_succeeding base_url scenario (ids 0%nat) test_file t)
    as (r & Hr & Hs); [by apply (Hall 0%nat)|].
  destruct (IH (ids ∘ S)) as [Hlen Hnil].
  { intros j f' t' Hj. by apply (Hall (S j)). }
  cbv zeta in *.
  change (mjoin (imap (fun i => collect_immediate base_url scenario (ids i))
                   ((test_file, t) :: entries)))
    with (collect_immediate base_url scenario (ids 0%nat) (test_file, t)
          ++ mjoin (imap (fun i => collect_immediate base_url scenario ((ids ∘ S) i))
                      entries))%list.
  rewrite Hr, length_app, filter_app, Hlen, Hnil. split; [done|].
  by rewrite filter_cons, decide_False by (rewrite Hs; done).
Qed.

(** The results collected when the upload at position [k] raises and
    every other upload succeeds: one result per file, and the only
    failure is the one of position [k]. *)
Lemma collected_results base_url scenario (entries : list (TestFile * Task F))
    (k : nat) e (ids : nat → nat) :
  (∀ j test_file t, entries !! j = Some (test_file, t) →
       if decide (j = k) then upload_raises base_url test_file t e
       else upload_succeeds base_url test_file t) →
  (k < length entries)%nat →
  let results :=
    mjoin (imap (fun i => collect_immediate base_url scenario (ids i)) entries) in
  length results = length entries
  ∧ ∃ r, filter (fun r => success r = false) results = [r]
         ∧ error r = Some (exn_text e).
Proof.
  revert k ids. induction entries as [|[test_file t] entries IH];
    intros k ids Hentries Hk; [simpl in Hk; lia|].
  pose proof (Hentries 0%nat test_file t eq_refl) as Hhead.
  destruct k as [|k].
  - (* the first upload raises, the others succeed *)
    rewrite decide_True in Hhead by done.
    destruct (collect_raising base_url scenario (ids 0%nat) _ _ _ Hhead)
      as (r & Hr & Hs & He).
    destruct (collected_successes base_url scenario entries (ids ∘ S)) as [Hlen Hnil].
    { intros j f' t' Hj. pose proof (Hentries (S j) f' t' Hj) as Hok.
      by rewrite decide_False in Hok by lia. }
    cbv zeta in *.
    change (mjoin (imap (fun i => collect_immediate base_url scenario (ids i))
                     ((test_file, t) :: entries)))
      with (collect_immediate base_url scenario (ids 0%nat) (test_file, t)
            ++ mjoin (imap (fun i => collect_immediate base_url scenario ((ids ∘ S) i))
                        entries))%list.
    rewrite Hr, length_app, filter_app, Hlen, Hnil. split; [done|]. exists r.
    by rewrite filter_cons, decide_True by done.
  - (* the first upload succeeds *)
    rewrite decide_False in Hhead by lia.
    destruct (collect_succeeding base_url scenario (ids 0%nat) _ _ Hhead)
      as (r0 & Hr0 & Hs0).
    destruct (IH k (ids ∘ S)) as (Hlen & r & Hfilter & He).
    { intros j f' t' Hj. pose proof (Hentries (S j) f' t' Hj) as Hcase.
      destruct (decide (j = k)) as [->|Hne].
      - by rewrite decide_True in Hcase.
      - by rewrite decide_False in Hcase by lia. }
    { simpl in Hk. lia. }
    cbv zeta in *.
    change (mjoin (imap (fun i => collect_immediate base_url scenario (ids i))
                     ((test_file, t) :: entries)))
      with (collect_immediate base_url scenario (ids 0%nat) (test_file, t)
            ++ mjoin (imap (fun i => collect_immediate base_url scenario ((ids ∘ S) i))
                        entries))%list.
    rewrite Hr0, length_app, filter_app, Hlen, Hfilter. split; [done|]. exists r.
    by rewrite filter_cons, decide_False by (rewrite Hs0; done).
Qed.

End WithArith.


(** C6, as stated, fails. The second of three uploads meets an SFTP
    connection that closes, which raises an exception without a
    message; the other two succeed. The scenario returns three results
    and exactly one is a failure, but its [error] is [str(e)], the
    empty string: no failed entry has a populated error field. *)
Lemma immediate_scenario_error_can_be_empty :
  (∀ j test_file t, uploads_with_closed_connection !! j = Some (test_file, t) →
       if decide (j = 1%nat)
       then upload_raises "http://localhost:8000" test_file t closed_connection
       else upload_succeeds "http://localhost:8000" test_file t)
  ∧ ∃ m, _run_immediate_scenario "http://localhost:8000" (of_Z 0) (of_Z 5)
           immediate_rush uploads_with_closed_connection = Returned m
         ∧ length (results m) = 3%nat
         ∧ (∃ r, filter (fun r => success r = false) (results m) = [r]
                 ∧ error r = Some "")
         ∧ ¬ ∃ r, r ∈ results m ∧ success r = false ∧ populated (error r).
Proof.
  split.
  - intros [|[|[|j]]] test_file t Hj; simplify_eq/=.
    + split; [done|]. eexists _, _, _, _, _.
      repeat split; try reflexivity. by left.
    + split; [done|]. by left.
    + split; [done|]. eexists _, _, _, _, _.
      repeat split; try reflexivity. by left.
  - eexists. split; [by vm_compute|]. split; [by vm_compute|]. split.
    + eexists. split; [by vm_compute|]. by vm_compute.
    + intros (r & Hin & Hfailed & text & Herror & Htext). revert Hin.
      vm_compute results. intros Hin.
      repeat (apply elem_of_cons in Hin as [->|Hin]);
        [done| |done|by apply elem_of_nil in Hin].
      simpl in Herror. congruence.
Qed.


End ScenarioFacts.

Module ScheduleTheorems.
Import ApiUploadTests SundayMorningStressTest.

(** The two constants of the schedule, in binary64: the interval is
    exactly 60 seconds and the width of the jitter exactly 18. *)
Lemma binary64_schedule_constants :
  interval_seconds (F:=float) staggered_600 10 = Returned (of_Z 60)
  ∧ fmul (of_Z 60) (literal_0_3 (F:=float)) = of_Z 18.
Proof. split; vm_compute; reflexivity. Qed.




End ScheduleTheorems.

Module CatalogTheorems.
Import ApiUploadTests.

(** In exact arithmetic, [size / (1024 * 1024) < k] compares the size
    in bytes with [k] times 1024 * 1024. *)
Lemma megabytes_below (size k : Z) :
  fltb (fdiv (of_Z size) (of_Z (1024 * 1024))) (of_Z k : Q) = true
  ↔ size < k * (1024 * 1024).
Proof.
  cbn [fltb fdiv of_Z exact_arith]. rewrite negb_true_iff, <- not_true_iff_false.
  rewrite Qle_bool_iff, Qred_correct. unfold Qle, Qdiv, Qmult, Qinv. simpl. lia.
Qed.

(** The thresholds of [_categorize_file], in bytes. *)
Lemma categorize_file_thresholds (size : Z) :
  _categorize_file (F:=Q) size
  = if decide (size < 100 * (1024 * 1024)) then "small"
    else if decide (size < 500 * (1024 * 1024)) then "medium"
    else if decide (size < 1000 * (1024 * 1024)) then "large"
    else "xlarge".
Proof.
  unfold _categorize_file.
  repeat match goal with
         | |- context [fltb ?x (of_Z ?k)] =>
             let Hk := fresh "Hk" in
             pose proof (megabytes_below size k) as Hk;
             destruct (fltb x (of_Z k))
         end;
    repeat case_decide; try done;
    repeat match goal with
           | H : true = true ↔ _ |- _ => destruct H as [H _]; specialize (H eq_refl)
           | H : false = true ↔ _ |- _ => destruct H as [_ H]
           end; try lia;
    exfalso; auto with lia.
Qed.


End CatalogTheorems.

Lemma string_app_assoc (a b c : string) : (a +:+ b) +:+ c = a +:+ (b +:+ c).
Proof.
  induction a as [|x a IH]; [reflexivity|].
  change (String x ((a +:+ b) +:+ c) = String x (a +:+ (b +:+ c))). by rewrite IH.
Qed.

Module ReportTheorems.
Import ApiUploadTests json_dump.

(** C9. For a given configuration and list of metrics, the text of
    the report is a fixed text, then the encoded timestamp, then a
    fixed text: two reports generated from the same metrics differ in
    the bytes of the timestamp and nowhere else. *)
Theorem report_differs_only_in_timestamp {F : Type} `{PyFloat F}
    (enc : Encoder F) (config : Config F) (metrics_list : list (TestMetrics F)) :
  ∃ before after,
    ∀ timestamp,
      generate_report enc config timestamp metrics_list
      = before +:+ encode_string enc timestamp +:+ after.
Proof.
  exists ("{" +:+ newline_indent 1 +:+ encode_string enc "test_summary" +:+ ": "
          +:+ "{" +:+ newline_indent 2 +:+ encode_string enc "timestamp" +:+ ": ").
  exists ("," +:+ newline_indent 2
          +:+ encode_string enc "total_tests" +:+ ": "
          +:+ pretty (Z.of_nat (length metrics_list))
          +:+ "," +:+ newline_indent 2
          +:+ encode_string enc "api_endpoint" +:+ ": "
          +:+ dumps enc 2 (api_base_url config)
          +:+ "," +:+ newline_indent 2
          +:+ encode_string enc "ridgepoint_host" +:+ ": "
          +:+ dumps enc 2 (ridgepoint_hostname config)
          +:+ newline_indent 1 +:+ "}"
          +:+ "," +:+ newline_indent 1
          +:+ encode_string enc "test_results" +:+ ": "
          +:+ dumps enc 1 (JList (map test_result metrics_list))
          +:+ newline_indent 0 +:+ "}").
  intros timestamp. unfold generate_report, report.
  cbn [dumps map join_with fst snd]. by rewrite !string_app_assoc.
Qed.

End ReportTheorems.

Section SplitFacts.
Implicit Types (sep c : Ascii.ascii) (s a b : string).

Lemma str_split_nonempty sep s : str_split sep s ≠ [].
Proof.
  induction s as [|c s IH]; simpl; [done|].
  case_decide; [done|]. by destruct (str_split sep s).
Qed.

Lemma str_split_without sep s : sep ∉ chars s → str_split sep s = [s].
Proof.
  induction s as [|c s IH]; simpl; [done|].
  intros Hnot. apply not_elem_of_cons in Hnot as [Hc Hs].
  rewrite decide_False by done. by rewrite IH.
Qed.

Lemma str_split_app sep a b :
  str_split sep (a +:+ String sep b) = (str_split sep a ++ str_split sep b)%list.
Proof.
  induction a as [|c a IH].
  - simpl. change ("" +:+ String sep b) with (String sep b). simpl.
    by rewrite decide_True.
  - change (String c a +:+ String sep b) with (String c (a +:+ String sep b)).
    simpl. rewrite IH. case_decide; [done|].
    pose proof (str_split_nonempty sep a). by destruct (str_split sep a).
Qed.

Lemma length_str_split sep s :
  (2 ≤ length (str_split sep s))%nat ↔ sep ∈ chars s.
Proof.
  induction s as [|c s IH]; simpl.
  - split; [lia|]. by intros ?%elem_of_nil.
  - pose proof (str_split_nonempty sep s) as Hne.
    case_decide as Hc.
    + subst c. split; [intros _; apply list_elem_of_here|intros _].
      destruct (str_split sep s); [done|simpl; lia].
    + rewrite elem_of_cons. destruct (str_split sep s) as [|p ps] eqn:Hs; [done|].
      simpl in *. rewrite IH. split; [tauto|]. intros [?|?]; [congruence|done].
Qed.

End SplitFacts.

Lemma getitem_from_end {A} (xs : list A) (i : Z) (x : A) :
  i < 0 → 0 ≤ Z.of_nat (length xs) + i →
  xs !! Z.to_nat (Z.of_nat (length xs) + i) = Some x → getitem xs i = Returned x.
Proof.
  intros Hi Hk Hx. unfold getitem. cbv zeta.
  repeat case_decide; try lia. by rewrite Hx.
Qed.

Lemma getitem_last_two {A} (xs : list A) (a b : A) :
  getitem (xs ++ [a; b]) (-2) = Returned a ∧ getitem (xs ++ [a; b]) (-1) = Returned b.
Proof.
  split; apply getitem_from_end; rewrite ?length_app; simpl length; try lia.
  - replace (Z.to_nat (Z.of_nat (length xs + 2) + -2)) with (length xs + 0)%nat by lia.
    by rewrite lookup_app_r, Nat.add_sub' by lia.
  - replace (Z.to_nat (Z.of_nat (length xs + 2) + -1)) with (length xs + 1)%nat by lia.
    by rewrite lookup_app_r, Nat.add_sub' by lia.
Qed.

Module WebhookTheorems.
Import Notifier.

(** X1. A webhook URL that ends in [/<id>/<token>], where neither the
    id nor the token holds a slash, gives a notifier with that id and
    that token and no tracked message, and the edit URL of a message is
    built from them: the id and token read by [__init__] are the ones
    written into the URL. *)
Theorem webhook_url_round_trip {F : Type} `{PyFloat F}
    (base id token message_id : string) :
  "/"%char ∉ chars id →
  "/"%char ∉ chars token →
  ∃ n : DiscordLiveNotifier F,
    DiscordLiveNotifier_init (base +:+ "/" +:+ id +:+ "/" +:+ token) = Returned n
    ∧ webhook_id n = id
    ∧ webhook_token n = token
    ∧ active_messages n = ∅
    ∧ edit_url n message_id
      = "https://discord.com/api/webhooks/" +:+ id +:+ "/" +:+ token
        +:+ "/messages/" +:+ message_id.
Proof.
  intros Hid Htoken. unfold DiscordLiveNotifier_init.
  change (base +:+ "/" +:+ id +:+ "/" +:+ token)
    with (base +:+ String "/" (id +:+ String "/" token)).
  rewrite str_split_app, str_split_app.
  rewrite (str_split_without _ id), (str_split_without _ token) by done.
  cbn [app]. cbv zeta. rewrite decide_True by (rewrite length_app; simpl; lia).
  destruct (getitem_last_two (str_split "/" base) id token) as [-> ->].
  eexists. split; [reflexivity|]. done.
Qed.

Lemma webhook_url_round_trip_witness :
  ∃ n : DiscordLiveNotifier Q,
    DiscordLiveNotifier_init
      ("https://discord.com/api/webhooks" +:+ "/" +:+ "1234" +:+ "/" +:+ "s3cr3t")
    = Returned n
    ∧ webhook_id n = "1234"
    ∧ webhook_token n = "s3cr3t"
    ∧ active_messages n = ∅
    ∧ edit_url n "42"
      = "https://discord.com/api/webhooks/" +:+ "1234" +:+ "/" +:+ "s3cr3t"
        +:+ "/messages/" +:+ "42".
Proof.
  apply (webhook_url_round_trip "https://discord.com/api/webhooks" "1234" "s3cr3t" "42").
  - by apply (bool_decide_unpack _).
  - by apply (bool_decide_unpack _).
Defined.

(** X2. [DiscordLiveNotifier.__init__] raises [ValueError] exactly
    for the URLs that hold no slash; for every other URL it returns a
    notifier that keeps the URL. *)
Theorem webhook_url_needs_a_slash {F : Type} `{PyFloat F} (url : string) :
  match DiscordLiveNotifier_init (F:=F) url with
  | Returned n => ("/"%char ∈ chars url) ∧ notifier_webhook_url n = url
  | Raised e => ("/"%char ∉ chars url) ∧ e = Exn "ValueError" "Invalid webhook URL format"
  end.
Proof.
  unfold DiscordLiveNotifier_init. cbv zeta.
  pose proof (length_str_split "/" url) as Hlen.
  case_decide as H2.
  - assert (Hin : "/"%char ∈ chars url) by (apply Hlen; lia).
    destruct (getitem_in_range (str_split "/" url)
                (Z.of_nat (length (str_split "/" url)) - 2)) as (a & _ & Ha); [lia|].
    destruct (getitem_in_range (str_split "/" url)
                (Z.of_nat (length (str_split "/" url)) - 1)) as (b & _ & Hb); [lia|].
    rewrite (getitem_from_end _ (-2) a), (getitem_from_end _ (-1) b); try lia; try done.
  - split; [|done]. intros Hin. apply Hlen in Hin. lia.
Qed.

End WebhookTheorems.

Section MoreDictFacts.
Context {V : Type}.
Implicit Types (d : pydict V) (k : string) (v : V).

Lemma dict_get_from_keys k (keys : list string) v :
  dict_get k (dict_from_keys keys v) = if decide (k ∈ keys) then Some v else None.
Proof.
  unfold dict_from_keys.
  assert (G : ∀ acc, dict_get k (foldl (fun d k => dict_set k v d) acc keys)
                     = if decide (k ∈ keys) then Some v else dict_get k acc).
  { induction keys as [|k' keys IH]; intros acc; cbn [foldl].
    - rewrite decide_False; [done|]. by intros ?%elem_of_nil.
    - rewrite IH. destruct (decide (k ∈ keys)) as [Hin|Hnot].
      + rewrite decide_True; [done|]. by apply list_elem_of_further.
      + destruct (decide (k = k')) as [->|Hne].
        * rewrite dict_get_set_eq, decide_True; [done|]. apply list_elem_of_here.
        * rewrite dict_get_set_ne by done. rewrite decide_False; [done|].
          by intros [?|?]%elem_of_cons. }
  rewrite G. by destruct (decide _).
Qed.

Lemma dict_set_keys k v d : is_Some (dict_get k d) → (dict_set k v d).*1 = d.*1.
Proof.
  induction d as [|[k' v'] d IH]; cbn [dict_set dict_get].
  - by intros [? ?].
  - destruct (decide (k = k')) as [->|Hne]; [done|].
    intros Hk. rewrite !fmap_cons. by rewrite IH.
Qed.

End MoreDictFacts.

Module TrackingFacts.
Import Notifier NotifierFacts.
Section WithArith.
Context {F : Type} `{PyFloat F}.
Implicit Types (n : DiscordLiveNotifier F) (message : ProgressMessage F).

Lemma keys_record_progress now file stage info message :
  (stages (record_progress now file stage info message)).*1 = (stages message).*1.
Proof.
  destruct (dict_get file (stages message)) as [s|] eqn:Hget.
  - rewrite stages_record_progress_known by (rewrite Hget; eauto).
    apply dict_set_keys. rewrite Hget; eauto.
  - by rewrite stages_record_progress_unknown.
Qed.

Lemma lookup_do_call r n c message_id :
  active_messages (do_call r n c) !! message_id
  = if decide (call_message c = message_id)
    then record_progress (call_now c) (call_file c) (call_stage c) (call_info c)
           <$> active_messages n !! message_id
    else active_messages n !! message_id.
Proof.
  unfold do_call. rewrite active_messages_update_progress.
  destruct (decide (call_message c = message_id)) as [->|Hne].
  - destruct (active_messages n !! message_id) as [message|] eqn:Hm.
    + by rewrite lookup_insert_eq.
    + by rewrite Hm.
  - destruct (active_messages n !! call_message c); [|done].
    by rewrite lookup_insert_ne.
Qed.

Lemma keeps_keys_refl (i : FileInfo F) : keeps_keys i i.
Proof. by repeat split. Qed.

Lemma keeps_keys_trans (a b c : FileInfo F) :
  keeps_keys a b → keeps_keys b c → keeps_keys a c.
Proof.
  intros (a1 & a2 & a3 & a4 & a5) (b1 & b2 & b3 & b4 & b5). repeat split; auto.
Qed.

Lemma keeps_keys_info_update (old new : FileInfo F) :
  keeps_keys old (info_update old new).
Proof.
  unfold keeps_keys, info_update. simpl.
  repeat split; intros Hold;
    match goal with |- is_Some (match ?x with _ => _ end) => destruct x end; eauto.
Qed.

Lemma info_after_record_progress now file stage info message file' old :
  dict_get file' (file_info message) = Some old →
  ∃ new, dict_get file' (file_info (record_progress now file stage info message))
         = Some new
         ∧ keeps_keys old new.
Proof.
  intros Hold. unfold record_progress. simpl.
  destruct info as [i|]; [|exists old; split; [done|apply keeps_keys_refl]].
  destruct (info_truthy i); [|exists old; split; [done|apply keeps_keys_refl]].
  destruct (decide (file = file')) as [->|Hne].
  - rewrite dict_get_set_eq, Hold. simpl. eexists. split; [done|].
    apply keeps_keys_info_update.
  - rewrite dict_get_set_ne by done. exists old. split; [done|apply keeps_keys_refl].
Qed.

Lemma update_progress_identity r remote now n message_id file stage info :
  let n' := (update_progress r remote now n message_id file stage info).1.1 in
  notifier_webhook_url n' = notifier_webhook_url n
  ∧ webhook_id n' = webhook_id n
  ∧ webhook_token n' = webhook_token n.
Proof.
  unfold update_progress.
  destruct (active_messages n !! message_id); [destruct (remote _)|]; done.
Qed.

End WithArith.
End TrackingFacts.

Module TrackingTheorems.
Import Notifier NotifierFacts TrackingFacts.

(** X3. When the webhook answers the POST of
    [create_progress_message] with status 200 and a body that holds
    [id] and [channel_id], the message is returned and tracked under
    its id, with the title and the creation time given; every file of
    the list is at DETECTED, no other file has a stage, no file has
    information yet, and the other tracked messages are as they were. *)
Theorem create_progress_message_tracks_files {F : Type} `{PyFloat F}
    (r : Rendering F) (webhook : Webhook) (now created updated : datetime)
    (n : DiscordLiveNotifier F) (title : string) (files : list string)
    (response : PostResponse) (id channel : string) :
  webhook {| post_url := notifier_webhook_url n +:+ "?wait=true";
             post_embed := _create_progress_embed r now title
                             (dict_from_keys files DETECTED) [] |}
  = Returned response →
  post_status response = 200 →
  post_json response = Returned {| data_id := Some id; data_channel_id := Some channel |} →
  ∃ n' message,
    create_progress_message r webhook now created updated n title files
    = (n', Some message)
    ∧ message_id message = id
    ∧ Notifier.title message = title
    ∧ created_at message = created
    ∧ active_messages n' !! id = Some message
    ∧ (∀ file, stage_of n' id file
               = if decide (file ∈ files) then Some DETECTED else None)
    ∧ (∀ file, info_of n' id file = None)
    ∧ (∀ other, other ≠ id → active_messages n' !! other = active_messages n !! other).
Proof.
  intros Hpost Hstatus Hjson. unfold create_progress_message. cbv zeta.
  rewrite Hpost. simpl. rewrite decide_True by done. rewrite Hjson. simpl.
  eexists _, _. split; [reflexivity|]. simpl.
  split; [done|]. split; [done|]. split; [done|].
  split; [apply lookup_insert_eq|]. split; [|split].
  - intros file. unfold stage_of. simpl. rewrite lookup_insert_eq. simpl.
    apply dict_get_from_keys.
  - intros file. unfold info_of. simpl. by rewrite lookup_insert_eq.
  - intros other Hne. simpl. by rewrite lookup_insert_ne.
Qed.

Lemma create_progress_message_tracks_files_witness :
  ∃ n' message,
    create_progress_message sample_rendering sample_webhook 0 0 0 sample_notifier
      "Uploading 1 Sermon" ["sermon.wav"]
    = (n', Some message)
    ∧ message_id message = "batch-1"
    ∧ Notifier.title message = "Uploading 1 Sermon"
    ∧ created_at message = 0
    ∧ active_messages n' !! "batch-1" = Some message
    ∧ (∀ file, stage_of n' "batch-1" file
               = if decide (file ∈ ["sermon.wav"]) then Some DETECTED else None)
    ∧ (∀ file, info_of n' "batch-1" file = None)
    ∧ (∀ other, other ≠ "batch-1"
                → active_messages n' !! other = active_messages sample_notifier !! other).
Proof.
  apply (create_progress_message_tracks_files sample_rendering sample_webhook 0 0 0
           sample_notifier "Uploading 1 Sermon" ["sermon.wav"]
           {| post_status := 200;
              post_json := Returned {| data_id := Some "batch-1";
                                       data_channel_id := Some "channel-1" |} |}
           "batch-1" "channel-1"); reflexivity.
Defined.

(** X4. [create_progress_message] returns a message only when the
    webhook answers with status 200 and a body that holds [id] and
    [channel_id]; in every other case (an exception of the session,
    another status, a body that cannot be decoded, a missing entry) it
    returns [None] and leaves the notifier as it was. *)
Theorem create_progress_message_failure {F : Type} `{PyFloat F}
    (r : Rendering F) (webhook : Webhook) (now created updated : datetime)
    (n : DiscordLiveNotifier F) (title : string) (files : list string) :
  let request :=
    {| post_url := notifier_webhook_url n +:+ "?wait=true";
       post_embed := _create_progress_embed r now title
                       (dict_from_keys files DETECTED) [] |} in
  let accepted :=
    ∃ response id channel,
      webhook request = Returned response
      ∧ post_status response = 200
      ∧ post_json response
        = Returned {| data_id := Some id; data_channel_id := Some channel |} in
  match (create_progress_message r webhook now created updated n title files).2 with
  | Some message => accepted
  | None =>
      ¬ accepted
      ∧ create_progress_message r webhook now created updated n title files = (n, None)
  end.
Proof.
  intros request accepted. unfold create_progress_message. cbv zeta. fold request.
  destruct (webhook request) as [response|e] eqn:Hpost; simpl.
  - destruct (decide (post_status response = 200)) as [H200|Hne]; simpl.
    + destruct (post_json response) as [[[id|] [channel|]]|e] eqn:Hjson; simpl.
      * by exists response, id, channel.
      * split; [|done]. intros (? & ? & ? & ? & _ & ?). congruence.
      * split; [|done]. intros (? & ? & ? & ? & _ & ?). congruence.
      * split; [|done]. intros (? & ? & ? & ? & _ & ?). congruence.
      * split; [|done]. intros (? & ? & ? & ? & _ & ?). congruence.
    + split; [|done]. intros (? & ? & ? & ? & ? & _). congruence.
  - split; [|done]. intros (? & ? & ? & ? & _). congruence.
Qed.

(** X5. [update_progress] never adds or removes a tracked message and
    never changes the webhook of the notifier; it leaves every message
    but the addressed one untouched, and of the addressed one it keeps
    the identifiers, the title, the creation time and the list of
    files. *)
Theorem update_progress_touches_one_message {F : Type} `{PyFloat F}
    (r : Rendering F) (remote : Remote) (now : datetime) (n : DiscordLiveNotifier F)
    (message_id file : string) (stage : ProcessingStage) (info : option (FileInfo F)) :
  let n' := (update_progress r remote now n message_id file stage info).1.1 in
  dom (active_messages n') = dom (active_messages n)
  ∧ notifier_webhook_url n' = notifier_webhook_url n
  ∧ webhook_id n' = webhook_id n
  ∧ webhook_token n' = webhook_token n
  ∧ (∀ other, other ≠ message_id
              → active_messages n' !! other = active_messages n !! other)
  ∧ (∀ message, active_messages n !! message_id = Some message →
       ∃ message', active_messages n' !! message_id = Some message'
                   ∧ Notifier.message_id message' = Notifier.message_id message
                   ∧ channel_id message' = channel_id message
                   ∧ webhook_url message' = webhook_url message
                   ∧ title message' = title message
                   ∧ created_at message' = created_at message
                   ∧ (stages message').*1 = (stages message).*1).
Proof.
  intros n'.
  destruct (update_progress_identity r remote now n message_id file stage info)
    as (Hurl & Hid & Htoken).
  pose proof (active_messages_update_progress r remote now n message_id file stage info)
    as Hnew.
  fold n' in Hnew. split; [|split; [done|split; [done|split; [done|split]]]].
  - rewrite Hnew. destruct (active_messages n !! message_id) eqn:Hm; [|done].
    apply dom_insert_lookup_L. by rewrite Hm.
  - intros other Hne. rewrite Hnew.
    destruct (active_messages n !! message_id); [|done]. by rewrite lookup_insert_ne.
  - intros message Hm. rewrite Hnew, Hm. eexists. split; [apply lookup_insert_eq|].
    repeat split; try done. apply keys_record_progress.
Qed.

(** X6. Whatever calls of [update_progress] follow, a tracked
    message stays tracked and its files (the keys of its stage mapping,
    in their order) stay the same: no call adds, drops or reorders a
    file. *)
Theorem tracked_files_never_change {F : Type} `{PyFloat F}
    (r : Rendering F) (n : DiscordLiveNotifier F) (calls : list (Call F))
    (message_id : string) (message : ProgressMessage F) :
  active_messages n !! message_id = Some message →
  ∃ message', active_messages (run_calls r n calls) !! message_id = Some message'
              ∧ (stages message').*1 = (stages message).*1.
Proof.
  unfold run_calls. revert n message.
  induction calls as [|c calls IH]; intros n message Hm; simpl.
  - by exists message.
  - pose proof (lookup_do_call r n c message_id) as Hstep. rewrite Hm in Hstep.
    case_decide.
    + destruct (IH _ _ Hstep) as (message' & Hm' & Hkeys).
      exists message'. split; [done|]. rewrite Hkeys. apply keys_record_progress.
    + destruct (IH _ _ Hstep) as (message' & Hm' & Hkeys). by exists message'.
Qed.

Lemma tracked_files_never_change_witness :
  ∃ message',
    active_messages
      (run_calls sample_rendering sample_notifier
         [sample_call UPLOADING; sample_info_call; sample_call COMPLETED])
    !! "batch-1" = Some message'
    ∧ (stages message').*1 = (stages sample_message).*1.
Proof.
  apply (tracked_files_never_change sample_rendering sample_notifier
           [sample_call UPLOADING; sample_info_call; sample_call COMPLETED]
           "batch-1" sample_message).
  reflexivity.
Defined.

(** X7. Information recorded for a file is never erased: after any
    further calls of [update_progress], the file still has recorded
    information, and every key it held is still held (its value may
    have been replaced by a later call). *)
Theorem recorded_info_is_never_erased {F : Type} `{PyFloat F}
    (r : Rendering F) (n : DiscordLiveNotifier F) (calls : list (Call F))
    (message_id file : string) (info : FileInfo F) :
  info_of n message_id file = Some info →
  ∃ info', info_of (run_calls r n calls) message_id file = Some info'
           ∧ keeps_keys info info'.
Proof.
  unfold run_calls. revert n info.
  induction calls as [|c calls IH]; intros n info Hinfo; simpl.
  - exists info. split; [done|apply keeps_keys_refl].
  - assert (Hstep : ∃ mid, info_of (do_call r n c) message_id file = Some mid
                           ∧ keeps_keys info mid).
    { unfold info_of in *. rewrite lookup_do_call.
      destruct (active_messages n !! message_id) as [message|]; [|done].
      simpl in Hinfo. case_decide; simpl.
      - by apply (info_after_record_progress (call_now c) _ (call_stage c)).
      - exists info. split; [done|apply keeps_keys_refl]. }
    destruct Hstep as (mid & Hmid & Hkeep).
    destruct (IH _ _ Hmid) as (info' & Hinfo' & Hkeep').
    exists info'. split; [done|]. by eapply keeps_keys_trans.
Qed.

Lemma recorded_info_is_never_erased_witness :
  ∃ info',
    info_of (run_calls sample_rendering (do_call sample_rendering sample_notifier
                                           sample_info_call)
               [sample_call UPLOADED; sample_call PROCESSING])
      "batch-1" "sermon_2024_01_01.wav" = Some info'
    ∧ keeps_keys {| progress_percent := Some 40; size := Some 50000000;
                    duration := None; size_reduction := None; error := None |} info'.
Proof.
  apply (recorded_info_is_never_erased sample_rendering
           (do_call sample_rendering sample_notifier sample_info_call)
           [sample_call UPLOADED; sample_call PROCESSING]
           "batch-1" "sermon_2024_01_01.wav").
  reflexivity.
Defined.

End TrackingTheorems.

Module EmbedTheorems.
Import Notifier NotifierFacts TrackingFacts.

Section WithArith.
Context {F : Type} `{PyFloat F}.

Lemma existsb_is_error (values : list ProcessingStage) :
  existsb (fun st => bool_decide (st = ERROR)) values = true ↔ ERROR ∈ values.
Proof.
  rewrite existsb_exists. split.
  - intros (s & Hin & Hs). apply bool_decide_eq_true in Hs. subst s.
    by apply list_elem_of_In.
  - intros Hin. exists ERROR. split; [by apply list_elem_of_In|].
    by apply bool_decide_eq_true.
Qed.

Lemma forallb_is_completed (values : list ProcessingStage) :
  forallb (fun st => bool_decide (st = COMPLETED)) values = true
  ↔ Forall (fun st => st = COMPLETED) values.
Proof.
  rewrite forallb_forall, Forall_forall. split.
  - intros Hall s Hin. eapply bool_decide_eq_true_1, Hall. by apply list_elem_of_In.
  - intros Hall s Hin. apply bool_decide_eq_true_2, Hall. by apply list_elem_of_In.
Qed.

Lemma embed_color_cases (r : Rendering F) now title stages file_info :
  embed_color (_create_progress_embed r now title stages file_info)
  = if decide (ERROR ∈ dict_values stages) then 0xff0000
    else if decide (Forall (fun st => st = COMPLETED) (dict_values stages))
         then 0x00ff00 else 0xffaa00.
Proof.
  unfold _create_progress_embed. cbn [embed_color].
  pose proof (existsb_is_error (dict_values stages)) as He.
  pose proof (forallb_is_completed (dict_values stages)) as Hc.
  destruct (existsb _ _).
  - rewrite decide_True; [done|]. by apply He.
  - rewrite decide_False by (intros Hin; apply He in Hin; done).
    destruct (forallb _ _).
    + rewrite decide_True; [done|]. by apply Hc.
    + rewrite decide_False; [done|]. intros Hall. apply Hc in Hall. done.
Qed.

End WithArith.

(** X8. The colour of the embed reflects the stages: red exactly
    when some file is at ERROR, green exactly when every file is at
    COMPLETED (an empty batch included), orange exactly when no file is
    at ERROR and some file is not at COMPLETED; and the embed has one
    field per file and one summary field. *)
Theorem embed_colour_reflects_stages {F : Type} `{PyFloat F}
    (r : Rendering F) (now : datetime) (title : string)
    (stages : pydict ProcessingStage) (file_info : pydict (FileInfo F)) :
  let embed := _create_progress_embed r now title stages file_info in
  (embed_color embed = 0xff0000 ↔ ERROR ∈ dict_values stages)
  ∧ (embed_color embed = 0x00ff00
     ↔ Forall (fun st => st = COMPLETED) (dict_values stages))
  ∧ (embed_color embed = 0xffaa00
     ↔ (ERROR ∉ dict_values stages)
       ∧ ¬ Forall (fun st => st = COMPLETED) (dict_values stages))
  ∧ length (embed_fields embed) = S (length stages).
Proof.
  intros embed. subst embed. rewrite embed_color_cases.
  split; [|split; [|split]].
  - repeat case_decide; split; try done.
  - repeat case_decide; split; try done.
    intros Hall. exfalso.
    match goal with Hin : ERROR ∈ _ |- _ =>
      rewrite Forall_forall in Hall; by specialize (Hall _ Hin) end.
  - repeat case_decide; split; try done; try (by intros [? ?]).
  - unfold _create_progress_embed. cbn [embed_fields].
    rewrite length_app, length_map. simpl. lia.
Qed.

(** X9. [mark_file_error] on a file of a tracked batch records ERROR
    for the file and the first 200 characters of the error text in its
    information, and sends one edit whose embed is red, whatever the
    remote service answers; it returns true exactly when the answer is
    status 200. *)
Theorem error_turns_the_message_red {F : Type} `{PyFloat F}
    (r : Rendering F) (remote : Remote) (now : datetime) (n : DiscordLiveNotifier F)
    (batch_id filename text : string) (message : ProgressMessage F) :
  active_messages n !! batch_id = Some message →
  is_Some (dict_get filename (stages message)) →
  ∃ n' request ok,
    mark_file_error r remote now n batch_id filename text = (n', [request], ok)
    ∧ embed_color (patch_embed request) = 0xff0000
    ∧ stage_of n' batch_id filename = Some ERROR
    ∧ (∃ info, info_of n' batch_id filename = Some info
               ∧ error info = Some (String.substring 0 200 text))
    ∧ (ok = true ↔ remote request = Returned 200).
Proof.
  intros Hm Hfile. unfold mark_file_error, update_progress. rewrite Hm.
  set (info := {| progress_percent := None; size := None; duration := None;
                  size_reduction := None;
                  error := Some (String.substring 0 200 text) |}).
  set (message' := record_progress now filename ERROR (Some info) message).
  set (request := {| patch_url := _; patch_embed := _ |}).
  assert (Hstage : dict_get filename (stages message') = Some ERROR).
  { subst message'. rewrite stage_after_record_progress. by rewrite decide_True. }
  assert (Hred : embed_color (patch_embed request) = 0xff0000).
  { subst request. cbn [patch_embed]. rewrite embed_color_cases.
    rewrite decide_True; [done|]. unfold dict_values.
    clear -Hstage. induction (stages message') as [|[k v] d IH]; [done|].
    simpl in Hstage. rewrite fmap_cons. case_decide.
    - simplify_eq. apply list_elem_of_here.
    - apply list_elem_of_further. by apply IH. }
  assert (Hinfo : ∃ i, dict_get filename (file_info message') = Some i
                       ∧ error i = Some (String.substring 0 200 text)).
  { subst message'. unfold record_progress. simpl. rewrite dict_get_set_eq.
    eexists. split; [done|]. done. }
  assert (Hlookup :
    stage_of ({| notifier_webhook_url := notifier_webhook_url n;
                 webhook_id := webhook_id n;
                 webhook_token := webhook_token n;
                 active_messages := <[batch_id := message']> (active_messages n) |})
      batch_id filename = Some ERROR
    ∧ ∃ i, info_of ({| notifier_webhook_url := notifier_webhook_url n;
                       webhook_id := webhook_id n;
                       webhook_token := webhook_token n;
                       active_messages := <[batch_id := message']> (active_messages n) |})
             batch_id filename = Some i
           ∧ error i = Some (String.substring 0 200 text)).
  { unfold stage_of, info_of. simpl. rewrite lookup_insert_eq. simpl.
    split; [done|]. exact Hinfo. }
  destruct (remote request) as [status|e] eqn:Hr.
  - eexists _, request, _. split; [done|]. split; [done|].
    destruct Hlookup as [? ?]. split; [done|]. split; [done|].
    rewrite bool_decide_eq_true, Hr. split; congruence.
  - eexists _, request, false. split; [done|]. split; [done|].
    destruct Hlookup as [? ?]. split; [done|]. split; [done|].
    rewrite Hr. split; [done|congruence].
Qed.

Lemma error_turns_the_message_red_witness :
  ∃ n' request ok,
    mark_file_error sample_rendering (fun _ => Returned 200) 0 sample_notifier
      "batch-1" "sermon_2024_01_08.wav" "Conversion failed" = (n', [request], ok)
    ∧ embed_color (patch_embed request) = 0xff0000
    ∧ stage_of n' "batch-1" "sermon_2024_01_08.wav" = Some ERROR
    ∧ (∃ info, info_of n' "batch-1" "sermon_2024_01_08.wav" = Some info
               ∧ error info = Some (String.substring 0 200 "Conversion failed"))
    ∧ (ok = true ↔ (fun _ => Returned 200) request = Returned 200).
Proof.
  apply (error_turns_the_message_red sample_rendering (fun _ => Returned 200) 0
           sample_notifier "batch-1" "sermon_2024_01_08.wav" "Conversion failed"
           sample_message).
  - reflexivity.
  - by eexists.
Defined.

(** X10. [cleanup_old_messages] forgets exactly the tracked messages
    whose age in hours exceeds the limit and keeps the others as they
    are; after it, an update addressed to a forgotten message returns
    false, sends nothing and changes nothing. *)
Theorem cleanup_old_messages_keeps_or_forgets {F : Type} `{PyFloat F}
    (cutoff : datetime) (hours : Z) (n : DiscordLiveNotifier F) (message_id : string) :
  let n' := cleanup_old_messages cutoff hours n in
  match active_messages n !! message_id with
  | None => active_messages n' !! message_id = None
  | Some message =>
      if fltb (of_Z hours) (age_hours cutoff message)
      then active_messages n' !! message_id = None
           ∧ ∀ r remote now file stage info,
               update_progress r remote now n' message_id file stage info
               = (n', [], false)
      else active_messages n' !! message_id = Some message
  end.
Proof.
  intros n'. subst n'. unfold cleanup_old_messages.
  destruct (active_messages n !! message_id) as [message|] eqn:Hm; cbn [active_messages].
  - destruct (fltb (of_Z hours) (age_hours cutoff message)) eqn:Hold.
    + assert (Hgone : filter (fun entry : string * ProgressMessage F =>
                                fltb (of_Z hours) (age_hours cutoff entry.2) = false)
                        (active_messages n) !! message_id = None).
      { apply map_lookup_filter_None. right. intros x Hx. simpl.
        rewrite Hm in Hx. simplify_eq. by rewrite Hold. }
      split; [done|]. intros. unfold update_progress. cbn [active_messages].
      by rewrite Hgone.
    + apply map_lookup_filter_Some. done.
  - apply map_lookup_filter_None. by left.
Qed.

End EmbedTheorems.

Module UploadFacts.
Import ApiUploadTests.
Section WithArith.
Context {F : Type} `{PyFloat F}.
Implicit Types (env : Env F) (r : UploadResult F) (test_file : TestFile).

(** The failure payloads of the client hold a text under "error". *)
Lemma error_text_http_error (response : Response F) :
  ∃ text, (e ← json_get (http_error response) "error"; mret (error_text e))
          = Returned (Some text).
Proof. by eexists. Qed.

Lemma error_text_exception_error (e : exn) :
  (e' ← json_get (exception_error (F:=F) e) "error"; mret (error_text e'))
  = Returned (Some (exn_text e)).
Proof. done. Qed.

(** What [upload_direct] and [get_presigned_url] return, by what the
    request meets. *)
Lemma post_result (met : outcome (Response F)) (w : Stopwatch F) :
  try_except
    (response ← met;
     let duration := elapsed w in
     if decide (status_code response = 200) then
       payload ← json_body response; mret (true, payload, duration)
     else mret (false, http_error response, duration))
    (fun e => mret (false, exception_error e, elapsed w))
  = Returned
      match met with
      | Returned response =>
          if decide (status_code response = 200) then
            match json_body response with
            | Returned payload => (true, payload, elapsed w)
            | Raised e => (false, exception_error e, elapsed w)
            end
          else (false, http_error response, elapsed w)
      | Raised e => (false, exception_error e, elapsed w)
      end.
Proof.
  destruct met as [response|e]; simpl; [|done].
  case_decide; [|done]. by destruct (json_body response).
Qed.

Lemma put_result (session : Session F) (w : Stopwatch F) (u : string) (file_data : bytes) :
  upload_presigned session w (Some (JStr u)) file_data
  = Returned
      match session (put_request u file_data) with
      | Returned response =>
          if bool_decide (status_code response = 200 ∨ status_code response = 204)
          then (true, JDict [("message", JStr "Upload successful")], elapsed w)
          else (false, http_error response, elapsed w)
      | Raised e => (false, exception_error e, elapsed w)
      end.
Proof.
  unfold upload_presigned. destruct (session _) as [response|e]; simpl; [|done].
  by case_bool_decide.
Qed.

Lemma put_result_not_a_string (session : Session F) (w : Stopwatch F)
    (value : option (json F)) (file_data : bytes) :
  (∀ u, value ≠ Some (JStr u)) →
  upload_presigned session w value file_data
  = Returned (false,
              exception_error (Exn "MissingSchema" "Invalid URL: No scheme supplied"),
              elapsed w).
Proof.
  intros Hnot. unfold upload_presigned.
  destruct value as [[| | | |u| |]|]; try done. by destruct (Hnot u).
Qed.

(** A result of [_test_direct_upload] can be logged. *)
Lemma direct_upload_logs env base_url test_file file_data :
  ∃ r, _test_direct_upload env base_url test_file file_data = Returned r
       ∧ file_name r = name test_file
       ∧ is_Some (throughput_mbps r).
Proof.
  unfold _test_direct_upload, upload_direct. rewrite post_result.
  destruct (session env _) as [response|e]; simpl.
  - case_decide; simpl.
    + destruct (json_body response); simpl; eexists; (split; [done|]); simpl; eauto.
    + eexists; (split; [done|]); simpl; eauto.
  - eexists; (split; [done|]); simpl; eauto.
Qed.

(** What [upload_presigned] returns can be turned into a result. *)
Lemma put_outcome (session : Session F) (w : Stopwatch F) (value : option (json F))
    (file_data : bytes) :
  ∃ ok response t,
    upload_presigned session w value file_data = Returned (ok, response, t)
    ∧ ∃ err, (if ok then mret None
              else e ← json_get response "error"; mret (error_text e))
             = Returned err
             ∧ (ok = true → err = None)
             ∧ (ok = false → ∃ text, err = Some text).
Proof.
  assert (Hcase : (∃ u, value = Some (JStr u)) ∨ ∀ u, value ≠ Some (JStr u)).
  { destruct value as [[| | | |u| |]|]; eauto. }
  destruct Hcase as [[u ->]|Hnot].
  - rewrite put_result. destruct (session _) as [response|e].
    + case_bool_decide.
      * eexists _, _, _. split; [done|]. exists None. by repeat split.
      * eexists _, _, _. split; [done|]. eexists. split; [done|]. split; [done|]. eauto.
    + eexists _, _, _. split; [done|]. eexists. split; [done|]. split; [done|]. eauto.
  - rewrite put_result_not_a_string by done.
    eexists _, _, _. split; [done|]. eexists. split; [done|]. split; [done|]. eauto.
Qed.

(** A result of [_test_presigned_upload] can be logged. *)
Lemma presigned_upload_logs env base_url test_file file_data r :
  _test_presigned_upload env base_url test_file file_data = Returned r →
  file_name r = name test_file
  ∧ (success r = true → is_Some (throughput_mbps r)).
Proof.
  unfold _test_presigned_upload, get_presigned_url. rewrite post_result.
  destruct (match session env _ with Returned _ => _ | Raised _ => _ end)
    as [[[] response] api_time]; simpl.
  - destruct (json_get response "upload_url") as [value|]; simpl; [|done].
    destruct (put_outcome (session env) (put_clock env) value file_data)
      as (ok & upload_response & t & -> & err & Herr & _).
    simpl. rewrite Herr. simpl. intros [= <-]. simpl. eauto.
  - destruct (json_get response "error"); simpl; [|done]. by intros [= <-].
Qed.

End WithArith.
End UploadFacts.

Module UploadTheorems.
Import ApiUploadTests UploadFacts ClientTheorems.

(** X11. The other operations of the client never raise either.
    [get_presigned_urls_batch] surfaces failures as the three upload
    operations do. [check_duplicate] decodes the body whatever the
    status: with a JSON body it returns that body and whether the
    status is 200; a body that is not JSON, or an exception of the
    session, gives a failure with the text of the exception.
    [health_check] is true exactly when the GET returns status 200. *)
Theorem other_operations_surface_failures {F : Type} `{PyFloat F}
    (session : Session F) (w : Stopwatch F) (get : string → outcome (Response F))
    (base_url file_hash : string) (filenames : list string) :
  surfaces_failures (session (batch_request base_url filenames))
    (get_presigned_urls_batch session w base_url filenames)
  ∧ check_duplicate session w base_url file_hash
    = Returned
        match session (duplicate_request base_url file_hash) with
        | Returned response =>
            match json_body response with
            | Returned payload =>
                (bool_decide (status_code response = 200), payload, elapsed w)
            | Raised e => (false, JDict [("error", JStr (exn_text e))], elapsed w)
            end
        | Raised e => (false, JDict [("error", JStr (exn_text e))], elapsed w)
        end
  ∧ (health_check get base_url = true
     ↔ ∃ response, get (base_url +:+ "/api/health") = Returned response
                   ∧ status_code response = 200).
Proof.
  split; [apply post_surfaces_failures|]. split.
  - unfold check_duplicate. destruct (session _) as [response|e]; simpl; [|done].
    by destruct (json_body response).
  - unfold health_check. destruct (get _) as [response|e].
    + rewrite bool_decide_eq_true. split; [eauto|]. by intros (? & [= <-] & ?).
    + split; [done|]. by intros (? & ? & _).
Qed.

(** X12. [_test_direct_upload] always returns a result for its file.
    The result is a success exactly when the POST returned status 200
    with a JSON body; a success has no error, a failure always has an
    error text, and the throughput is always set (it is computed from
    the duration of the result). *)
Theorem direct_upload_always_reports {F : Type} `{PyFloat F}
    (env : Env F) (base_url : string) (test_file : TestFile) (file_data : bytes) :
  ∃ r, _test_direct_upload env base_url test_file file_data = Returned r
       ∧ file_name r = name test_file
       ∧ file_size r = size test_file
       ∧ (success r = true
          ↔ ∃ response payload,
              session env (direct_request base_url file_data (name test_file))
              = Returned response
              ∧ status_code response = 200
              ∧ json_body response = Returned payload)
       ∧ (success r = true → error r = None)
       ∧ (success r = false → ∃ text, error r = Some text)
       ∧ throughput_mbps r = Some (throughput (size test_file) (duration r)).
Proof.
  unfold _test_direct_upload, upload_direct. rewrite post_result.
  destruct (session env _) as [response|e]; simpl.
  - destruct (decide (status_code response = 200)) as [H200|Hne]; simpl.
    + destruct (json_body response) as [payload|e] eqn:Hjson; simpl.
      * eexists. split; [done|]. simpl. repeat split; try done. eauto.
      * eexists. split; [done|]. simpl. repeat split; try done; eauto.
        intros (? & ? & [= <-] & _ & ?). congruence.
    + eexists. split; [done|]. simpl. repeat split; try done; eauto.
      intros (? & ? & [= <-] & ? & _). congruence.
  - eexists. split; [done|]. simpl. repeat split; try done; eauto.
    intros (? & ? & ? & _). congruence.
Qed.

(** X13. [_test_presigned_upload] raises in exactly one case: the
    request for the upload URL is answered with status 200 and a JSON
    body that is not an object; the exception is then an
    [AttributeError]. In every other case it returns a result for its
    file in which a success has no error and has a throughput, and a
    failure has an error text. *)
Theorem presigned_upload_raises_only_on_malformed_answer {F : Type} `{PyFloat F}
    (env : Env F) (base_url : string) (test_file : TestFile) (file_data : bytes) :
  match _test_presigned_upload env base_url test_file file_data with
  | Raised e =>
      exn_class e = "AttributeError" ∧ malformed_answer env base_url test_file
  | Returned r =>
      ¬ malformed_answer env base_url test_file
      ∧ file_name r = name test_file
      ∧ file_size r = size test_file
      ∧ (success r = true → error r = None ∧ is_Some (throughput_mbps r))
      ∧ (success r = false → ∃ text, error r = Some text)
  end.
Proof.
  unfold _test_presigned_upload, get_presigned_url, malformed_answer.
  rewrite post_result.
  destruct (session env _) as [response|e] eqn:Hpost; simpl.
  - destruct (decide (status_code response = 200)) as [H200|Hne]; simpl.
    + destruct (json_body response) as [payload|e] eqn:Hjson; simpl.
      * destruct payload as [| | | | |l|d]; simpl;
          try (split; [done|]; exists response; eexists; repeat split; done).
        destruct (put_outcome (session env) (put_clock env) (dict_get "upload_url" d)
                    file_data) as (ok & upload_response & t & -> & err & Herr & Hok & Hbad).
        simpl. rewrite Herr. simpl. split.
        { intros (? & payload & ? & _ & Hbody & Hnot). simplify_eq.
          rewrite Hjson in Hbody. injection Hbody as <-. by destruct (Hnot d). }
        split; [done|]. split; [done|]. split.
        -- intros ->. split; [by apply Hok|]. eauto.
        -- done.
      * split; [|split; [done|split; [done|split; [done|eauto]]]].
        intros (? & ? & ? & _ & ? & _). congruence.
    + split; [|split; [done|split; [done|split; [done|eauto]]]].
      intros (? & ? & ? & ? & _). congruence.
  - split; [|split; [done|split; [done|split; [done|eauto]]]].
    intros (? & ? & ? & _). congruence.
Qed.

End UploadTheorems.

(** The results of a loop that appends exactly one result per round. *)
Lemma mjoin_imap_singletons {A B} (f : nat → A → list B) (R : A → B → Prop)
    (l : list A) :
  (∀ i x, ∃ r, f i x = [r] ∧ R x r) →
  Forall2 R l (mjoin (imap f l)).
Proof.
  revert f. induction l as [|x l IH]; intros f Hf; [constructor|].
  rewrite imap_cons. cbn [mjoin list_join].
  destruct (Hf 0%nat x) as (r & -> & Hr). simpl. constructor; [done|].
  apply IH. intros i y. apply Hf.
Qed.

Module SingleFileFacts.
Import ApiUploadTests UploadFacts.
Section WithArith.
Context {F : Type} `{PyFloat F}.

Lemma single_upload_appends_one base_url method (i : nat) test_file (t : Transfer F) :
  ∃ r, single_upload base_url method i (test_file, t) = [r]
       ∧ file_name r = name test_file
       ∧ (method ≠ "direct" → method ≠ "presigned" → success r = false).
Proof.
  unfold single_upload.
  destruct (transfer_read t) as [file_data|e]; simpl; [|by eexists].
  destruct (decide (method = "direct")) as [->|Hd].
  - destruct (direct_upload_logs (transfer_env t) base_url test_file file_data)
      as (r & -> & Hname & [x Hx]).
    exists r. unfold log_upload. rewrite Hx. by destruct (success r).
  - destruct (decide (method = "presigned")) as [->|Hp]; [|by eexists].
    destruct (_test_presigned_upload _ _ _ _) as [r|e] eqn:Hr; [|by eexists].
    destruct (presigned_upload_logs _ _ _ _ _ Hr) as [Hname Hlog].
    exists r. unfold log_upload. destruct (success r); [|done].
    destruct (Hlog eq_refl) as [x ->]. done.
Qed.

End WithArith.
End SingleFileFacts.

Module SingleFileTheorems.
Import ApiUploadTests UploadFacts SingleFileFacts MetricsFacts.

(** X14. [test_single_file_upload] returns metrics whose results are
    exactly one per file, in the order of the files, whatever the reads
    and the requests meet and whatever the method; with a method that
    is neither "direct" nor "presigned", every upload is a failure. *)
Theorem single_file_test_reports_every_file {F : Type} `{PyFloat F}
    (base_url : string) (start_time end_time : F)
    (test_files : list (TestFile * Transfer F)) (method : string) :
  ∃ m, test_single_file_upload base_url start_time end_time test_files method
       = Returned m
       ∧ file_name <$> results m = name <$> test_files.*1
       ∧ total_files m = Z.of_nat (length test_files)
       ∧ (method ≠ "direct" → method ≠ "presigned" →
          successful_uploads m = 0 ∧ failed_uploads m = Z.of_nat (length test_files)).
Proof.
  unfold test_single_file_upload. cbv zeta.
  set (results := mjoin (imap _ test_files)).
  destruct (calculate_metrics_returns ("single_" +:+ method) start_time end_time results)
    as (m & Hm & Hresults & Htotal & Hsucc & Hfail & _).
  assert (Hall : Forall2 (fun (entry : TestFile * Transfer F) r =>
                            file_name r = name entry.1
                            ∧ (method ≠ "direct" → method ≠ "presigned"
                               → success r = false))
                   test_files results).
  { apply mjoin_imap_singletons. intros i [test_file t].
    apply single_upload_appends_one. }
  assert (Hlen : length results = length test_files)
    by (symmetry; by eapply Forall2_length).
  exists m. split; [done|]. rewrite Hresults, Htotal, Hsucc, Hfail, Hlen.
  split; [|split; [done|]].
  - clear -Hall. induction Hall as [|entry r ? ? [Hname _] _ IH]; [done|].
    rewrite !fmap_cons. by rewrite Hname, IH.
  - intros Hd Hp.
    assert (Hfailed : Forall (fun r => success r = false) results).
    { clear -Hall Hd Hp. induction Hall as [|entry r ? ? [_ Hr] _ IH]; constructor; auto. }
    rewrite <- Hlen. clear -Hfailed.
    induction Hfailed as [|r results Hr _ IH]; [done|].
    rewrite !filter_cons. rewrite decide_False by (rewrite Hr; done).
    rewrite decide_True by done. destruct IH as [IH1 IH2]. split; [done|].
    simpl length. lia.
Qed.

End SingleFileTheorems.

Lemma slice_to_sublist {A} (xs : list A) (stop : Z) : slice_to xs stop `sublist_of` xs.
Proof. unfold slice_to. case_decide; apply sublist_take. Qed.

Lemma slice_to_positive {A} (xs : list A) (stop : Z) :
  0 ≤ stop → slice_to xs stop = take (Z.to_nat stop) xs.
Proof. intros Hstop. unfold slice_to. by rewrite decide_False by lia. Qed.

Module SelectionTheorems.
Import ApiUploadTests.

(** X15. [select_test_files] returns a sub-list of the discovered
    files, in their order. With a non-empty category every selected
    file has that category; with a positive count the selection is the
    first [count] matching files; a count of zero sets no limit. *)
Theorem select_test_files_selects (test_files : list TestFile)
    (wanted : option string) (count : option Z) :
  let selected := select_test_files test_files wanted count in
  let matching := select_test_files test_files wanted None in
  selected `sublist_of` test_files
  ∧ (∀ c, wanted = Some c → c ≠ "" →
          Forall (fun f => category f = c) selected
          ∧ matching = filter (fun f => category f = c) test_files)
  ∧ (∀ k, count = Some k → 0 < k → selected = take (Z.to_nat k) matching)
  ∧ (count = Some 0 → selected = matching).
Proof.
  intros selected matching. subst selected matching. unfold select_test_files.
  cbv zeta.
  set (files := match wanted with
                | Some c => if decide (c = "") then test_files
                            else filter (fun f => category f = c) test_files
                | None => test_files
                end).
  assert (Hfiles : files `sublist_of` test_files).
  { subst files. destruct wanted as [c|]; [|done].
    case_decide; [done|]. apply sublist_filter. }
  assert (Hsel : match count with
                 | Some k => if decide (k = 0) then files else slice_to files k
                 | None => files
                 end `sublist_of` files).
  { destruct count as [k|]; [|done]. case_decide; [done|]. apply slice_to_sublist. }
  split; [by etrans|]. split; [|split].
  - intros c -> Hc. subst files. rewrite decide_False in * by done. split; [|done].
    apply Forall_forall. intros f Hf.
    apply (elem_of_sublist _ _ _ Hf) in Hsel. by apply list_elem_of_filter in Hsel as [? _].
  - intros k -> Hk. rewrite decide_False by lia. apply slice_to_positive. lia.
  - intros ->. by rewrite decide_True.
Qed.

End SelectionTheorems.

(** The element that a left-to-right scan keeps is an element of the
    list, whatever the comparison. *)
Lemma scan_keeps_an_element {A} (better : A → A → bool) (xs : list A) (x : A) :
  foldl (fun m y => if better y m then y else m) x xs ∈ x :: xs.
Proof.
  revert x. induction xs as [|y xs IH]; intros x; simpl; [apply list_elem_of_here|].
  destruct (better y x).
  - apply list_elem_of_further, IH.
  - specialize (IH x). apply elem_of_cons in IH as [->|Hin];
      [apply list_elem_of_here|by do 2 apply list_elem_of_further].
Qed.

Module ExtremesTheorems.
Import ApiUploadTests MetricsFacts.

(** X16. When some result has a positive duration, [min_duration] and
    [max_duration] are durations of results and are positive: the zero
    durations of the failures built in the [except] branches never
    enter the extremes. This holds in any arithmetic. *)
Theorem duration_extremes_are_positive_durations {F : Type} `{PyFloat F}
    (test_name : string) (start_time end_time : F) (results : list (UploadResult F)) :
  positive_durations results ≠ [] →
  ∃ m, _calculate_metrics test_name start_time end_time results = Returned m
       ∧ (∃ r, r ∈ results ∧ duration r = min_duration m)
       ∧ (∃ r, r ∈ results ∧ duration r = max_duration m)
       ∧ fltb (of_Z 0) (min_duration m) = true
       ∧ fltb (of_Z 0) (max_duration m) = true.
Proof.
  intros Hne.
  destruct (calculate_metrics_returns test_name start_time end_time results)
    as (m & Hm & _ & _ & _ & _ & _ & Hmin & Hmax & _).
  exists m. split; [done|].
  rewrite or_zero_nonempty in Hmin, Hmax by done.
  assert (Hpos : ∀ d, d ∈ positive_durations results →
                      (∃ r, r ∈ results ∧ duration r = d) ∧ fltb (of_Z 0) d = true).
  { intros d Hd. unfold positive_durations in Hd.
    apply list_elem_of_fmap in Hd as (r & -> & Hr).
    apply list_elem_of_filter in Hr as [Hr Hin]. split; [by exists r|done]. }
  destruct (positive_durations results) as [|d ds]; [done|].
  simpl in Hmin, Hmax. injection Hmin as Hmin. injection Hmax as Hmax.
  destruct (Hpos (min_duration m)) as [? ?];
    [rewrite <- Hmin; apply scan_keeps_an_element|].
  destruct (Hpos (max_duration m)) as [? ?];
    [rewrite <- Hmax; apply (scan_keeps_an_element (fun y m => fltb m y))|].
  done.
Qed.

Lemma duration_extremes_are_positive_durations_witness :
  ∃ m, _calculate_metrics "immediate" (inject_Z 0) (inject_Z 10)
         [sample_result (inject_Z 2); sample_failure; sample_result (inject_Z 3)]
       = Returned m
       ∧ (∃ r, r ∈ [sample_result (inject_Z 2); sample_failure;
                    sample_result (inject_Z 3)]
               ∧ duration r = min_duration m)
       ∧ (∃ r, r ∈ [sample_result (inject_Z 2); sample_failure;
                    sample_result (inject_Z 3)]
               ∧ duration r = max_duration m)
       ∧ fltb (of_Z 0) (min_duration m) = true
       ∧ fltb (of_Z 0) (max_duration m) = true.
Proof.
  apply (duration_extremes_are_positive_durations "immediate" (inject_Z 0) (inject_Z 10)
           [sample_result (inject_Z 2); sample_failure; sample_result (inject_Z 3)]).
  by vm_compute.
Defined.

End ExtremesTheorems.

Module BatchFacts.
Import ApiUploadTests.

(** The batches of [b] elements taken at 0, [b], 2 [b], ... *)
Lemma chunks_take {A} (xs : list A) (b n : nat) :
  mjoin ((fun k => take b (drop (k * b) xs)) <$> seq 0 n) = take (n * b) xs.
Proof.
  induction n as [|n IH]; [done|].
  rewrite seq_S, fmap_app, join_app, IH. simpl. rewrite app_nil_r.
  rewrite take_take_drop. f_equal. lia.
Qed.

Lemma batch_starts_positive (n batch_size : Z) :
  0 < batch_size →
  batch_starts n batch_size
  = Returned ((fun k => Z.of_nat k * batch_size)
                <$> seq 0 (Z.to_nat ((n + batch_size - 1) `div` batch_size))).
Proof.
  intros Hb. unfold batch_starts. rewrite !decide_False by lia. f_equal.
  unfold seqZ. rewrite <- list_fmap_compose. apply list_fmap_ext.
  intros i k _. simpl. lia.
Qed.

Lemma batches_join {A} (xs : list A) (batch_size : Z) (count : nat) :
  0 < batch_size →
  Z.of_nat (length xs) ≤ Z.of_nat count * batch_size →
  mjoin (batch_at xs batch_size
           <$> ((fun k => Z.of_nat k * batch_size) <$> seq 0 count)) = xs.
Proof.
  intros Hb Hcount. rewrite <- list_fmap_compose.
  trans (mjoin ((fun k => take (Z.to_nat batch_size)
                             (drop (k * Z.to_nat batch_size) xs)) <$> seq 0 count)).
  - f_equal. apply list_fmap_ext. intros i k _. simpl. unfold batch_at.
    do 2 f_equal. nia.
  - rewrite chunks_take. apply take_ge. nia.
Qed.

Section WithArith.
Context {F : Type} `{PyFloat F}.
Implicit Types (batch : list (TestFile * Transfer F)) (job : Job F).

Lemma submit_upload_job urls (entry : TestFile * Transfer F) job :
  submit_upload urls entry = Returned (Some job) → job.1.1 = entry.1.
Proof.
  destruct entry as [test_file t]. unfold submit_upload.
  destruct (json_contains urls (name test_file)) as [[]|]; simpl; try done.
  destruct (json_item urls (name test_file)); simpl; [|done].
  destruct (transfer_read t); simpl; [|done]. by intros [= <-].
Qed.

Lemma submitted_jobs urls batch futures :
  statistics.for_each (submit_upload urls) batch = Returned futures →
  (fun job => job.1.1) <$> omap id futures `sublist_of` batch.*1.
Proof.
  revert futures. induction batch as [|entry batch IH]; intros futures; simpl.
  - by intros [= <-].
  - destruct (submit_upload urls entry) as [future|] eqn:Hjob; simpl; [|done].
    destruct (statistics.for_each (submit_upload urls) batch) as [rest|]; simpl; [|done].
    intros [= <-]. specialize (IH rest eq_refl).
    destruct future as [job|]; simpl.
    + rewrite (submit_upload_job _ _ _ Hjob). by constructor.
    + by constructor.
Qed.

Lemma file_name_collect_upload (n_batch : Z) (api_time : F) job :
  file_name (collect_upload n_batch api_time job) = name job.1.1.
Proof.
  destruct job as [[test_file t] future]. unfold collect_upload.
  destruct future as [[[ok response] upload_time]|e]; simpl; [|done].
  destruct ok; simpl; [done|]. by destruct (json_get response "error").
Qed.

Lemma batch_upload_names (as_completed : list (Job F) → list (Job F)) api w base_url
    batch :
  (∀ jobs, as_completed jobs ≡ₚ jobs) →
  file_name <$> batch_upload as_completed api w base_url batch ⊆+ name <$> batch.*1.
Proof.
  intros Hperm. unfold batch_upload.
  remember (name <$> batch.*1) as names eqn:Hnames.
  destruct (get_presigned_urls_batch _ _ _ _) as [[[ok response] api_time]|];
    simpl; [|apply submseteq_nil_l].
  destruct ok; simpl; [|apply submseteq_nil_l].
  destruct (json_item response "urls") as [urls|]; simpl; [|apply submseteq_nil_l].
  unfold _upload_batch_concurrent.
  destruct batch as [|entry batch]; [apply submseteq_nil_l|].
  destruct (statistics.for_each _ _) as [futures|] eqn:Hfutures; simpl;
    [|apply submseteq_nil_l].
  rewrite <- list_fmap_compose.
  trans (name <$> ((fun job : Job F => job.1.1) <$> omap id futures)).
  - rewrite <- list_fmap_compose, Hperm.
    erewrite list_fmap_ext; [reflexivity|]. intros i job _.
    apply file_name_collect_upload.
  - subst names. apply fmap_submseteq, sublist_submseteq.
    by apply (submitted_jobs urls).
Qed.

End WithArith.
End BatchFacts.

Module BatchTheorems.
Import ApiUploadTests BatchFacts.

Lemma batches_partition_the_lists {A : Type} (xs : list A) (batch_size : Z) :
  0 < batch_size →
  ∃ starts, batch_starts (Z.of_nat (length xs)) batch_size = Returned starts
            ∧ mjoin (batch_at xs batch_size <$> starts) = xs.
Proof.
  intros Hb. rewrite batch_starts_positive by done. eexists. split; [done|].
  apply batches_join; [done|]. zlia.
Qed.

(** X17. For a positive batch size, the batches of
    [test_batch_upload] partition the files: joined in order they give
    the files back, no batch is empty and none is longer than the batch
    size. *)
Theorem batches_partition_the_files {A : Type} (xs : list A) (batch_size : Z) :
  0 < batch_size →
  ∃ starts, batch_starts (Z.of_nat (length xs)) batch_size = Returned starts
            ∧ mjoin (batch_at xs batch_size <$> starts) = xs
            ∧ Forall (fun i => batch_at xs batch_size i ≠ []
                               ∧ Z.of_nat (length (batch_at xs batch_size i)) ≤ batch_size)
                starts.
Proof.
  intros Hb. rewrite batch_starts_positive by done. eexists. split; [done|].
  set (count := Z.to_nat ((Z.of_nat (length xs) + batch_size - 1) `div` batch_size)).
  assert (Hcount : Z.of_nat count
                   = (Z.of_nat (length xs) + batch_size - 1) `div` batch_size)
    by (subst count; zlia).
  split.
  - apply batches_join; [done|]. rewrite Hcount. zlia.
  - apply Forall_fmap, Forall_forall. intros k Hk. simpl.
    apply elem_of_seq in Hk. unfold batch_at. split.
    + intros Hnil. apply (f_equal length) in Hnil.
      rewrite length_take, length_drop in Hnil. simpl in Hnil.
      assert (Z.of_nat k * batch_size < Z.of_nat (length xs)).
      { assert (Z.of_nat k ≤ Z.of_nat count - 1) by lia.
        assert (Z.of_nat k * batch_size ≤ (Z.of_nat count - 1) * batch_size) by nia.
        rewrite Hcount in *. zlia. }
      lia.
    + rewrite length_take. lia.
Qed.

Lemma batches_partition_the_files_witness :
  ∃ starts, batch_starts (Z.of_nat (length [1; 2; 3; 4; 5; 6; 7])) 3 = Returned starts
            ∧ mjoin (batch_at [1; 2; 3; 4; 5; 6; 7] 3 <$> starts) = [1; 2; 3; 4; 5; 6; 7]
            ∧ Forall (fun i => batch_at [1; 2; 3; 4; 5; 6; 7] 3 i ≠ []
                               ∧ Z.of_nat (length (batch_at [1; 2; 3; 4; 5; 6; 7] 3 i)) ≤ 3)
                starts.
Proof. apply (batches_partition_the_files [1; 2; 3; 4; 5; 6; 7] 3). lia. Defined.

(** X18. Whatever order the uploads of a batch complete in,
    [test_batch_upload] with a non-zero batch size returns metrics
    whose results belong to files of the test, at most one result per
    file (a file without upload URL, or of a batch that failed, has
    none); a negative batch size gives no result at all, and a batch
    size of zero raises [ValueError]. *)
Theorem batch_test_reports_each_file_at_most_once {F : Type} `{PyFloat F}
    (as_completed : list (Job F) → list (Job F)) (api : Session F)
    (clock : Z → Stopwatch F) (base_url : string) (start_time end_time : F)
    (test_files : list (TestFile * Transfer F)) (batch_size : Z) :
  (∀ jobs, as_completed jobs ≡ₚ jobs) →
  if decide (batch_size = 0) then
    test_batch_upload as_completed api clock base_url start_time end_time test_files
      batch_size
    = Raised (Exn "ValueError" "range() arg 3 must not be zero")
  else
    ∃ m, test_batch_upload as_completed api clock base_url start_time end_time
           test_files batch_size = Returned m
         ∧ file_name <$> results m ⊆+ name <$> test_files.*1
         ∧ (batch_size < 0 → results m = []).
Proof.
  intros Hperm. unfold test_batch_upload. case_decide as Hzero.
  { subst. done. }
  destruct (decide (batch_size < 0)) as [Hneg|Hpos].
  - unfold batch_starts. rewrite decide_False, decide_True by done. simpl.
    destruct (MetricsFacts.calculate_metrics_returns "batch_presigned" start_time
                end_time []) as (m & Hm & Hresults & _).
    exists m. split; [done|]. rewrite Hresults. split; [apply submseteq_nil_l|done].
  - destruct (batches_partition_the_lists test_files batch_size) as (starts & -> & Hjoin);
      [lia|].
    simpl.
    match goal with |- context [_calculate_metrics _ _ _ ?rs] =>
      destruct (MetricsFacts.calculate_metrics_returns "batch_presigned" start_time
                  end_time rs) as (m & Hm & Hresults & _) end.
    exists m. split; [done|]. rewrite Hresults. split; [|lia].
    trans (name <$> (mjoin (batch_at test_files batch_size <$> starts)).*1);
      [|by rewrite Hjoin].
    clear Hjoin Hm Hresults.
    induction starts as [|i starts IH]; [done|].
    rewrite !fmap_cons. cbn [mjoin list_join]. rewrite !fmap_app.
    apply submseteq_app; [by apply batch_upload_names|exact IH].
Qed.

Lemma batch_test_reports_each_file_at_most_once_witness :
  if decide (2 = 0) then
    test_batch_upload reverse SundayMorningStressTest.sample_batch_api
      (fun _ => {| started := inject_Z 0; stopped := inject_Z 1 |})
      "http://localhost:8000" (inject_Z 0) (inject_Z 5)
      SundayMorningStressTest.sample_transfers 2
    = Raised (Exn "ValueError" "range() arg 3 must not be zero")
  else
    ∃ m, test_batch_upload reverse SundayMorningStressTest.sample_batch_api
           (fun _ => {| started := inject_Z 0; stopped := inject_Z 1 |})
           "http://localhost:8000" (inject_Z 0) (inject_Z 5)
           SundayMorningStressTest.sample_transfers 2 = Returned m
         ∧ file_name <$> results m
           ⊆+ name <$> SundayMorningStressTest.sample_transfers.*1
         ∧ (2 < 0 → results m = []).
Proof.
  apply (batch_test_reports_each_file_at_most_once reverse
           SundayMorningStressTest.sample_batch_api
           (fun _ => {| started := inject_Z 0; stopped := inject_Z 1 |})
           "http://localhost:8000" (inject_Z 0) (inject_Z 5)
           SundayMorningStressTest.sample_transfers 2).
  intros jobs. apply reverse_Permutation.
Defined.

End BatchTheorems.

Lemma str_split_pieces (sep : Ascii.ascii) (s piece : string) :
  piece ∈ str_split sep s → sep ∉ chars piece.
Proof.
  revert piece. induction s as [|c s IH]; intros piece; simpl.
  - intros ->%list_elem_of_singleton. by intros ?%elem_of_nil.
  - case_decide as Hc.
    + intros [->|Hin]%elem_of_cons; [by intros ?%elem_of_nil|by apply IH].
    + destruct (str_split sep s) as [|p ps].
      * intros ->%list_elem_of_singleton. simpl.
        intros [?|?%elem_of_nil]%elem_of_cons; [congruence|done].
      * intros [->|Hin]%elem_of_cons.
        -- simpl. intros [?|Hin]%elem_of_cons; [congruence|].
           by apply (IH p); [apply list_elem_of_here|].
        -- apply IH. by apply list_elem_of_further.
Qed.

Section DictKeyFacts.
Context {V : Type}.
Implicit Types (d : pydict V) (k : string) (v : V).

Lemma dict_get_None k d : dict_get k d = None ↔ k ∉ d.*1.
Proof.
  induction d as [|[k' v'] d IH]; simpl.
  - split; [intros _ ?%elem_of_nil; done|done].
  - rewrite not_elem_of_cons. case_decide; [|tauto]. split; [done|tauto].
Qed.

End DictKeyFacts.

Lemma sum_dict_set (k : string) (v : Z) (d : pydict Z) :
  dict_get k d = Some v →
  foldr Z.add 0 (dict_set k (v + 1) d).*2 = foldr Z.add 0 d.*2 + 1.
Proof.
  induction d as [|[k' v'] d IH]; cbn [dict_set dict_get]; [done|].
  case_decide.
  - intros [= ->]. rewrite !fmap_cons. simpl. lia.
  - intros Hk. rewrite !fmap_cons. cbn [foldr]. rewrite IH by done. simpl. lia.
Qed.

Lemma foldr_add_from (a : Z) (l : list Z) : foldr Z.add a l = foldr Z.add 0 l + a.
Proof. induction l as [|x l IH]; simpl; lia. Qed.

Module CatalogFacts.
Import ApiUploadTests.

Lemma categorize_file_known {F : Type} `{PyFloat F} (size : Z) :
  _categorize_file size ∈ known_categories.
Proof.
  unfold _categorize_file, known_categories. cbv zeta.
  repeat match goal with |- context [if ?b then _ else _] => destruct b end;
    set_solver.
Qed.

(** The counting never meets an unknown key when every file has one of
    the four categories. *)
Lemma distribution_returns (files : list TestFile) :
  Forall (fun f => category f ∈ known_categories) files →
  ∃ categories total_size,
    _log_file_distribution files = Returned (categories, total_size)
    ∧ categories.*1 = known_categories.
Proof.
  unfold _log_file_distribution.
  induction files as [|file files IH] using rev_ind; intros Hall.
  - by eexists _, _.
  - apply Forall_app in Hall as [Hall Hfile]. apply Forall_inv in Hfile.
    destruct (IH Hall) as (categories & total_size & Hfold & Hkeys).
    rewrite foldl_app, Hfold. simpl.
    destruct (dict_get (category file) categories) as [count|] eqn:Hget.
    + eexists _, _. split; [done|]. rewrite dict_set_keys; [done|by rewrite Hget].
    + apply dict_get_None in Hget. rewrite Hkeys in Hget. by destruct Hget.
Qed.

Lemma discover_line_well_formed {F : Type} `{PyFloat F} (p : Parsing) (line : string)
    (f : TestFile) :
  discover_line p line = Some f →
  0 < size f
  ∧ category f = _categorize_file (size f)
  ∧ category f ∈ known_categories
  ∧ remote_path f = path f
  ∧ name f = basename (path f)
  ∧ ("/"%char ∉ chars (name f))
  ∧ hash_sha256 f = None
  ∧ (∃ size_str, split_once "|"%char (str_strip p line) = Some (path f, size_str)
                 ∧ int_of_str p size_str = Some (size f)).
Proof.
  unfold discover_line.
  destruct (split_once _ _) as [[path size_str]|]; simpl; [|done].
  destruct (int_of_str p size_str) as [size|] eqn:Hint; simpl; [|done].
  case_decide; [|done]. intros [= <-]. simpl.
  split; [done|]. split; [done|]. split; [apply categorize_file_known|].
  split; [done|]. split; [done|]. split; [|split; [done|eauto]].
  unfold basename. pose proof (str_split_nonempty "/" path) as Hne.
  destruct (last (str_split "/" path)) as [piece|] eqn:Hlast.
  - simpl. apply (str_split_pieces "/" path). apply last_Some in Hlast as [l ->].
    apply elem_of_app. right. apply list_elem_of_here.
  - by apply last_None in Hlast.
Qed.

End CatalogFacts.

Module DiscoveryTheorems.
Import ApiUploadTests CatalogFacts.

(** X19. [discover_wav_files] returns for every listing. Each file it
    returns comes from a line [path|size] of the listing, has a
    positive size, the category that [_categorize_file] gives its size
    (one of the four categories), its path as remote path, the text
    after the last slash of the path as name, and no hash; there are
    at most as many files as lines. *)
Theorem discovered_files_are_well_formed {F : Type} `{PyFloat F}
    (p : Parsing) (listing : list string) :
  ∃ files, discover_wav_files p listing = Returned files
           ∧ (length files ≤ length listing)%nat
           ∧ Forall (fun f =>
                       0 < size f
                       ∧ category f = _categorize_file (size f)
                       ∧ category f ∈ known_categories
                       ∧ remote_path f = path f
                       ∧ name f = basename (path f)
                       ∧ ("/"%char ∉ chars (name f))
                       ∧ hash_sha256 f = None
                       ∧ (∃ line size_str,
                            line ∈ listing
                            ∧ split_once "|"%char (str_strip p line)
                              = Some (path f, size_str)
                            ∧ int_of_str p size_str = Some (size f))) files.
Proof.
  unfold discover_wav_files. cbv zeta.
  set (files := omap (discover_line p) listing).
  assert (Hall : Forall (fun f =>
                       0 < size f
                       ∧ category f = _categorize_file (size f)
                       ∧ category f ∈ known_categories
                       ∧ remote_path f = path f
                       ∧ name f = basename (path f)
                       ∧ ("/"%char ∉ chars (name f))
                       ∧ hash_sha256 f = None
                       ∧ (∃ line size_str,
                            line ∈ listing
                            ∧ split_once "|"%char (str_strip p line)
                              = Some (path f, size_str)
                            ∧ int_of_str p size_str = Some (size f))) files).
  { apply Forall_forall. intros f Hf. subst files.
    apply list_elem_of_omap in Hf as (line & Hline & Hf).
    destruct (discover_line_well_formed p line f Hf)
      as (? & ? & ? & ? & ? & ? & ? & size_str & ? & ?).
    repeat split; try done. by exists line, size_str. }
  destruct (distribution_returns files) as (categories & total_size & -> & _).
  { eapply Forall_impl; [exact Hall|]. by intros f (_ & _ & ? & _). }
  exists files. split; [done|]. split; [|done].
  subst files. clear. induction listing as [|line listing IH]; [done|].
  cbn [omap list_omap]. destruct (discover_line p line); simpl in *; lia.
Qed.

(** X20. [_log_file_distribution] returns exactly when every file has
    one of the four categories, and raises [KeyError] otherwise. When
    it returns, the count of each category is the number of files of
    that category, the counts add up to the number of files, and the
    total size is the sum of the sizes. *)
Theorem file_distribution_counts (files : list TestFile) :
  match _log_file_distribution files with
  | Returned (categories, total_size) =>
      Forall (fun f => category f ∈ known_categories) files
      ∧ categories.*1 = known_categories
      ∧ (∀ c, c ∈ known_categories → dict_get c categories = Some (counted files c))
      ∧ total_size = foldr Z.add 0 (size <$> files)
      ∧ foldr Z.add 0 categories.*2 = Z.of_nat (length files)
  | Raised e =>
      exn_class e = "KeyError" ∧ ¬ Forall (fun f => category f ∈ known_categories) files
  end.
Proof.
  unfold _log_file_distribution.
  induction files as [|file files IH] using rev_ind.
  - simpl. split; [done|]. split; [done|]. split; [|done].
    intros c Hc. unfold known_categories in Hc.
    repeat (apply elem_of_cons in Hc as [->|Hc]; [done|]). by apply elem_of_nil in Hc.
  - rewrite foldl_app. simpl.
    destruct (foldl count_file _ files) as [[categories total_size]|e]; simpl.
    + destruct IH as (Hall & Hkeys & Hcount & Htotal & Hsum).
      destruct (dict_get (category file) categories) as [count|] eqn:Hget.
      * assert (Hknown : category file ∈ known_categories).
        { rewrite <- Hkeys. destruct (decide (category file ∈ categories.*1)); [done|].
          apply dict_get_None in n. congruence. }
        split; [apply Forall_app; split; [done|by constructor]|].
        split; [rewrite dict_set_keys; [done|by rewrite Hget]|].
        split; [|split].
        -- intros c Hc. unfold counted. rewrite filter_app, length_app.
           rewrite filter_cons, filter_nil.
           destruct (decide (category file = c)) as [<-|Hne].
           ++ rewrite dict_get_set_eq. rewrite Hcount in Hget by done.
              injection Hget as <-. unfold counted. simpl. f_equal. lia.
           ++ rewrite dict_get_set_ne by done. rewrite Hcount by done.
              unfold counted. simpl. f_equal. lia.
        -- rewrite fmap_app, foldr_app. simpl. subst total_size.
           rewrite (foldr_add_from (size file + 0)). lia.
        -- rewrite sum_dict_set by done. rewrite length_app. simpl. lia.
      * split; [done|]. intros [_ Hfile]%Forall_app.
        apply Forall_inv in Hfile. rewrite <- Hkeys in Hfile.
        apply dict_get_None in Hget. by destruct Hget.
    + destruct IH as [? Hnot]. split; [done|]. by intros [? _]%Forall_app.
Qed.


End DiscoveryTheorems.

(** The results of a loop that appends one result in the rounds that
    satisfy [P] and none in the others. *)
Lemma mjoin_imap_filtered {A B C} (f : nat → A → list B) (P : A → Prop)
    `{!∀ x, Decision (P x)} (key : B → C) (key' : A → C) (l : list A) :
  (∀ i x, if decide (P x) then ∃ r, f i x = [r] ∧ key r = key' x else f i x = []) →
  key <$> mjoin (imap f l) = key' <$> filter P l.
Proof.
  revert f. induction l as [|x l IH]; intros f Hf; [done|].
  rewrite imap_cons.
  change (mjoin (f 0%nat x :: imap (f ∘ S) l))
    with (f 0%nat x ++ mjoin (imap (f ∘ S) l))%list.
  rewrite fmap_app, filter_cons.
  rewrite (IH (f ∘ S)) by (intros i y; apply Hf).
  specialize (Hf 0%nat x). destruct (decide (P x)).
  - destruct Hf as (r & -> & Hr). simpl. by rewrite Hr.
  - by rewrite Hf.
Qed.

Module CollectionFacts.
Import ApiUploadTests SundayMorningStressTest UploadFacts MetricsFacts.
Section WithArith.
Context {F : Type} `{PyFloat F}.
Implicit Types (t : Task F) (r : UploadResult F).

Lemma monitored_upload_logs t base_url test_file test_id scenario :
  ∃ r, _upload_with_monitoring t base_url test_file test_id scenario = Returned r
       ∧ file_name r = name test_file
       ∧ (success r = true → is_Some (throughput_mbps r)).
Proof.
  unfold _upload_with_monitoring.
  destruct (read_file_chunk t) as [file_data|e]; simpl; [|by eexists].
  destruct (_test_presigned_upload _ _ _ _) as [r|e] eqn:Hr; simpl; [|by eexists].
  destruct (presigned_upload_logs _ _ _ _ _ Hr) as [Hname Hlog]. by exists r.
Qed.

Lemma collect_immediate_appends_one base_url scenario (i : nat) test_file t :
  ∃ r, collect_immediate base_url scenario i (test_file, t) = [r]
       ∧ file_name r = name test_file
       ∧ (finishes t = false → success r = false).
Proof.
  unfold collect_immediate, future_result.
  destruct (finishes t); [|by eexists].
  destruct (monitored_upload_logs t base_url test_file ("immediate_" +:+ pretty i)
              scenario) as (r & -> & Hname & Hlog).
  exists r. unfold log_result. destruct (success r); [|done].
  by destruct (Hlog eq_refl) as [x ->].
Qed.

Lemma collect_staggered_cases base_url scenario (i : nat) (entry : TestFile * Task F) :
  if decide (finishes entry.2 = true)
  then ∃ r, collect_staggered base_url scenario i entry = [r]
            ∧ file_name r = name entry.1
  else collect_staggered base_url scenario i entry = [].
Proof.
  destruct entry as [test_file t]. unfold collect_staggered, future_result. simpl.
  destruct (finishes t); simpl; [|done].
  destruct (monitored_upload_logs t base_url test_file ("staggered_" +:+ pretty i)
              scenario) as (r & -> & Hname & _).
  by exists r.
Qed.

Lemma collect_random_cases base_url scenario (i : nat) (entry : TestFile * Task F) :
  if decide (finishes entry.2 = true)
  then ∃ r, collect_random base_url scenario i entry = [r]
            ∧ file_name r = name entry.1
  else collect_random base_url scenario i entry = [].
Proof.
  destruct entry as [test_file t]. unfold collect_random, future_result. simpl.
  destruct (finishes t); simpl; [|done].
  destruct (monitored_upload_logs t base_url test_file ("random_" +:+ pretty i)
              scenario) as (r & -> & Hname & _).
  by exists r.
Qed.

Lemma submitted_prefix {A} (late : nat → bool) (i : nat) (xs : list A) :
  submitted late i xs `prefix_of` xs.
Proof.
  revert i. induction xs as [|x xs IH]; intros i; simpl; [done|].
  destruct (late i); [apply prefix_nil|]. by apply prefix_cons.
Qed.

End WithArith.
End CollectionFacts.

Module CollectionTheorems.
Import ApiUploadTests SundayMorningStressTest UploadFacts MetricsFacts CollectionFacts.




End CollectionTheorems.

Lemma length_slice_to {A} (xs : list A) (stop : Z) :
  0 ≤ stop → Z.of_nat (length (slice_to xs stop)) ≤ stop.
Proof. intros Hstop. rewrite slice_to_positive, length_take by done. lia. Qed.

Module SelectionFacts.
Import ApiUploadTests.

(** The files of a category, for each category of a list without
    repetition, are together a part of the files. *)
Lemma files_by_category_cons (cs : list string) (x : TestFile) (l : list TestFile) :
  NoDup cs →
  mjoin ((fun c => filter (fun f => category f = c) (x :: l)) <$> cs)
  ≡ₚ (if decide (category x ∈ cs) then [x] else [])
     ++ mjoin ((fun c => filter (fun f => category f = c) l) <$> cs).
Proof.
  induction 1 as [|c cs Hc Hcs IH].
  - rewrite decide_False; [done|]. by intros ?%elem_of_nil.
  - rewrite !fmap_cons. cbn [mjoin list_join]. rewrite filter_cons, IH.
    destruct (decide (category x = c)) as [Hx|Hx];
      destruct (decide (category x ∈ cs)) as [Hin|Hnot];
      destruct (decide (category x ∈ c :: cs)) as [Hin'|Hnot']; simpl.
    + by rewrite Hx in Hin.
    + by rewrite Hx in Hin.
    + done.
    + destruct Hnot'. rewrite Hx. apply list_elem_of_here.
    + by rewrite Permutation_middle.
    + destruct Hnot'. by apply list_elem_of_further.
    + by apply elem_of_cons in Hin' as [?|?].
    + done.
Qed.

Lemma files_by_category (cs : list string) (l : list TestFile) :
  NoDup cs →
  mjoin ((fun c => filter (fun f => category f = c) l) <$> cs) ⊆+ l.
Proof.
  intros Hcs. induction l as [|x l IH].
  - induction cs as [|c cs IHcs]; [done|].
    rewrite fmap_cons. cbn [mjoin list_join]. rewrite filter_nil. simpl.
    apply IHcs. by apply NoDup_cons in Hcs as [_ ?].
  - rewrite files_by_category_cons by done. case_decide; simpl.
    + by apply submseteq_skip.
    + by apply submseteq_cons.
Qed.

End SelectionFacts.

Module ScenarioSelectionTheorems.
Import ApiUploadTests SundayMorningStressTest SelectionFacts MetricsFacts.

(** X24. For any shuffle that permutes its list, the files selected
    for a scenario are files of the discovered list, each at most as
    often as it occurs there, and at most [file_count] of them; with the
    preference "large" they are all large or xlarge, with "xlarge" all
    xlarge, and with any other preference (mixed) there are at most 20
    of them, whatever [file_count] asks. *)
Theorem scenario_files_are_selected_files (shuffle : list TestFile → list TestFile)
    (scenario : StressScenario) (all_files : list TestFile) :
  (∀ l, shuffle l ≡ₚ l) →
  let selected := _select_scenario_files shuffle scenario all_files in
  selected ⊆+ all_files
  ∧ (0 ≤ file_count scenario → Z.of_nat (length selected) ≤ file_count scenario)
  ∧ (file_size_preference scenario = "large" →
     Forall (fun f => category f = "large" ∨ category f = "xlarge") selected)
  ∧ (file_size_preference scenario = "xlarge" →
     Forall (fun f => category f = "xlarge") selected)
  ∧ (file_size_preference scenario ≠ "large" →
     file_size_preference scenario ≠ "xlarge" →
     (length selected ≤ 20)%nat).
Proof.
  intros Hperm selected. subst selected. unfold _select_scenario_files. cbv zeta.
  set (files := if decide (file_size_preference scenario = "large") then _ else _).
  assert (Hsel : slice_to (shuffle files) (file_count scenario) ⊆+ files).
  { rewrite <- (Hperm files) at 2. apply sublist_submseteq, slice_to_sublist. }
  assert (Hall : ∀ P : TestFile → Prop,
             Forall P files → Forall P (slice_to (shuffle files) (file_count scenario))).
  { intros P HP. rewrite Forall_forall in *. intros f Hf. apply HP.
    by eapply elem_of_submseteq. }
  split; [|split; [|split; [|split]]].
  - etrans; [exact Hsel|]. subst files. repeat case_decide.
    + apply sublist_submseteq, sublist_filter.
    + apply sublist_submseteq, sublist_filter.
    + etrans; [|apply (files_by_category ["small"; "medium"; "large"; "xlarge"])].
      * cbn [fmap list_fmap mjoin list_join]. rewrite app_nil_r.
        repeat apply submseteq_app; apply sublist_submseteq, slice_to_sublist.
      * by apply (bool_decide_unpack _).
  - intros Hcount. by apply length_slice_to.
  - intros Hpref. apply Hall. subst files. rewrite decide_True by done.
    apply Forall_forall. intros f [Hf _]%list_elem_of_filter.
    apply elem_of_cons in Hf as [?|Hf]; [by left|].
    apply list_elem_of_singleton in Hf. by right.
  - intros Hpref. apply Hall. subst files.
    rewrite decide_False by (rewrite Hpref; done). rewrite decide_True by done.
    apply Forall_forall. by intros f [Hf _]%list_elem_of_filter.
  - intros Hl Hx. apply submseteq_length in Hsel. etrans; [exact Hsel|].
    subst files. rewrite !decide_False by done. rewrite !length_app.
    pose proof (length_slice_to (filter (fun f => category f = "small") all_files) 2).
    pose proof (length_slice_to (filter (fun f => category f = "medium") all_files) 3).
    pose proof (length_slice_to (filter (fun f => category f = "large") all_files) 10).
    pose proof (length_slice_to (filter (fun f => category f = "xlarge") all_files) 5).
    lia.
Qed.

Lemma scenario_files_are_selected_files_witness :
  let selected := _select_scenario_files reverse staggered_600
                    [sample_file "a.wav"; sample_file "b.wav"] in
  selected ⊆+ [sample_file "a.wav"; sample_file "b.wav"]
  ∧ (0 ≤ file_count staggered_600 → Z.of_nat (length selected) ≤ file_count staggered_600)
  ∧ (file_size_preference staggered_600 = "large" →
     Forall (fun f => category f = "large" ∨ category f = "xlarge") selected)
  ∧ (file_size_preference staggered_600 = "xlarge" →
     Forall (fun f => category f = "xlarge") selected)
  ∧ (file_size_preference staggered_600 ≠ "large" →
     file_size_preference staggered_600 ≠ "xlarge" →
     (length selected ≤ 20)%nat).
Proof.
  apply (scenario_files_are_selected_files reverse staggered_600
           [sample_file "a.wav"; sample_file "b.wav"]).
  intros l. apply reverse_Permutation.
Defined.



End ScenarioSelectionTheorems.

Module ReportCountTheorems.
Import ApiUploadTests MetricsFacts.

(** X26. For every list of results, [_calculate_metrics] returns and
    the entry [test_result] of the report that [generate_report] saves
    agrees with its own counts: [files_tested] is the number of results,
    the list [failed_uploads] has [failed_uploads] entries, the list
    [detailed_results] has one dictionary per result, in order, and the
    successes and the failures listed add up to [total_files]. *)
Theorem report_lists_match_the_counts {F : Type} `{PyFloat F}
    (test_name : string) (start_time end_time : F) (results : list (UploadResult F)) :
  ∃ m fields failed detailed,
    _calculate_metrics test_name start_time end_time results = Returned m
    ∧ test_result m = JDict fields
    ∧ dict_get "files_tested" fields = Some (JInt (Z.of_nat (length results)))
    ∧ dict_get "failed_uploads" fields = Some (JList failed)
    ∧ Z.of_nat (length failed) = failed_uploads m
    ∧ dict_get "detailed_results" fields = Some (JList detailed)
    ∧ Z.of_nat (length detailed) = total_files m
    ∧ detailed = asdict <$> results
    ∧ total_files m = successful_uploads m + Z.of_nat (length failed).
Proof.
  destruct (calculate_metrics_returns test_name start_time end_time results)
    as (m & Hm & Hresults & Htotal & Hsucc & Hfail & _).
  exists m. eexists _, _, _. split; [done|]. split; [reflexivity|].
  split; [by rewrite <- Htotal|]. split; [reflexivity|].
  split; [by rewrite length_map, Hfail, Hresults|]. split; [reflexivity|].
  split; [by rewrite length_map, Htotal, Hresults|]. split; [by rewrite Hresults|].
  rewrite length_map, Htotal, Hsucc, Hresults.
  clear. induction results as [|r results IH]; [done|].
  rewrite !filter_cons. destruct (success r); simpl; lia.
Qed.

End ReportCountTheorems.

Module TrackerFacts.
Import Notifier NotifierFacts TrackingFacts Tracker.
Section WithArith.
Context {F : Type} `{PyFloat F}.
Implicit Types (t : SermonPipelineTracker F) (message : ProgressMessage F).

Lemma lookup_notifier t message_id :
  active_messages (notifier t) !! message_id
  = a ← message_refs t !! message_id; store t !! a.
Proof. unfold notifier. simpl. apply lookup_omap. Qed.

(** A call through the tracker changes the store only. *)
Lemma tracker_call_unfold r t c :
  tracker_call r t c
  = {| store :=
         match message_refs t !! call_message c,
               active_messages (do_call r (notifier t) c) !! call_message c with
         | Some a, Some message' => <[a := message']> (store t)
         | _, _ => store t
         end;
       tracker_webhook_url := tracker_webhook_url t;
       tracker_webhook_id := tracker_webhook_id t;
       tracker_webhook_token := tracker_webhook_token t;
       message_refs := message_refs t;
       active_batches := active_batches t |}.
Proof.
  unfold tracker_call, do_call, notifier_update_progress.
  by destruct (update_progress _ _ _ _ _ _ _ _) as [[n' requests] ok].
Qed.

Lemma tracker_call_refs r t c :
  message_refs (tracker_call r t c) = message_refs t
  ∧ active_batches (tracker_call r t c) = active_batches t
  ∧ length (store (tracker_call r t c)) = length (store t).
Proof.
  rewrite tracker_call_unfold. simpl. repeat split.
  destruct (message_refs t !! call_message c); [|done].
  destruct (active_messages _ !! call_message c); [|done].
  apply length_insert.
Qed.

Lemma well_formed_tracker_call r t c : well_formed t → well_formed (tracker_call r t c).
Proof.
  destruct (tracker_call_refs r t c) as (Hrefs & Hbatches & Hlen).
  unfold well_formed. rewrite Hrefs, Hbatches, Hlen. done.
Qed.

(** Seen from the notifier, a call through the tracker is the call of
    [update_progress]. *)
Lemma notifier_tracker_call r t c :
  well_formed t → notifier (tracker_call r t c) = do_call r (notifier t) c.
Proof.
  intros (_ & _ & Hinj).
  destruct (update_progress_identity r (call_remote c) (call_now c) (notifier t)
              (call_message c) (call_file c) (call_stage c) (call_info c))
    as (Hurl & Hid & Htoken).
  fold (do_call r (notifier t) c) in Hurl, Hid, Htoken.
  assert (active_messages (notifier (tracker_call r t c))
          = active_messages (do_call r (notifier t) c)) as Hactive.
  { apply map_eq. intros id. rewrite lookup_notifier.
    rewrite tracker_call_unfold. cbn [message_refs store].
    rewrite !lookup_do_call. rewrite !lookup_notifier.
    rewrite decide_True by done.
    destruct (decide (call_message c = id)) as [->|Hne].
    - destruct (message_refs t !! id) as [a|] eqn:Href; [|done]. simpl.
      destruct (store t !! a) as [message|] eqn:Hstore; simpl; [|by rewrite Hstore].
      apply list_lookup_insert_eq. by eapply lookup_lt_Some.
    - destruct (message_refs t !! id) as [a'|] eqn:Href'; [|done]. simpl.
      destruct (message_refs t !! call_message c) as [a|] eqn:Href; [|done]. simpl.
      destruct (store t !! a) as [message|]; [|done]. simpl.
      apply list_lookup_insert_ne. intros ->. apply Hne. by eapply Hinj. }
  revert Hurl Hid Htoken Hactive.
  destruct (do_call r (notifier t) c) as [url id token active].
  destruct (notifier (tracker_call r t c)) as [url' id' token' active'] eqn:Hview.
  assert (url' = tracker_webhook_url t ∧ id' = tracker_webhook_id t
          ∧ token' = tracker_webhook_token t) as (-> & -> & ->).
  { revert Hview. rewrite tracker_call_unfold. unfold notifier. simpl.
    by intros [= <- <- <- _]. }
  simpl. by intros -> -> -> ->.
Qed.

Lemma run_tracker_calls r t calls :
  well_formed t →
  let t' := foldl (tracker_call r) t calls in
  well_formed t'
  ∧ notifier t' = run_calls r (notifier t) calls
  ∧ message_refs t' = message_refs t
  ∧ active_batches t' = active_batches t.
Proof.
  revert t. induction calls as [|c calls IH]; intros t Hwf; [done|].
  simpl. destruct (IH (tracker_call r t c)) as (Hwf' & Hn & Hrefs & Hbatches).
  { by apply well_formed_tracker_call. }
  destruct (tracker_call_refs r t c) as (Hrefs1 & Hbatches1 & _).
  split; [done|]. split; [|split].
  - rewrite Hn. unfold run_calls. simpl. by rewrite notifier_tracker_call.
  - by rewrite Hrefs, Hrefs1.
  - by rewrite Hbatches, Hbatches1.
Qed.

(** What a successful [start_batch_upload] leaves. *)
Lemma start_batch_upload_started r icons webhook now created updated t files t1 id :
  well_formed t →
  start_batch_upload r icons webhook now created updated t files = (t1, Some id) →
  ∃ message,
    well_formed t1
    ∧ shared t1 id
    ∧ active_messages (notifier t1) !! id = Some message
    ∧ stages message = dict_from_keys files DETECTED
    ∧ file_info message = []
    ∧ message_id message = id
    ∧ tracker_webhook_id t1 = tracker_webhook_id t
    ∧ tracker_webhook_token t1 = tracker_webhook_token t
    ∧ (∀ other, other ≠ id →
         active_messages (notifier t1) !! other = active_messages (notifier t) !! other
         ∧ active_batches t1 !! other = active_batches t !! other).
Proof.
  intros (Hrefs & Hbatches & Hinj). unfold start_batch_upload. cbv zeta.
  destruct (create_progress_message _ _ _ _ _ _ _ _).2 as [message|] eqn:Hcreate;
    [|done].
  intros [= <- <-]. exists message.
  assert (stages message = dict_from_keys files DETECTED ∧ file_info message = [])
    as [Hstages Hinfo].
  { revert Hcreate. unfold create_progress_message. cbv zeta.
    match goal with |- context [try_except ?body ?handler] =>
      destruct (try_except body handler) as [[created_message|]|] eqn:Hbody end;
      simpl; try done.
    intros [= <-]. revert Hbody.
    destruct (webhook _) as [response|]; simpl; [|done].
    destruct (decide (post_status response = 200)); simpl; [|done].
    destruct (post_json response) as [data|]; simpl; [|done].
    destruct (subscript "id" _); simpl; [|done].
    destruct (subscript "channel_id" _); simpl; [|done].
    by intros [= <-]. }
  split; [|split; [|split; [|split; [|split; [|split; [|split; [|split]]]]]]];
    try done.
  - unfold well_formed. simpl. rewrite length_app. simpl. repeat split.
    + intros id a. destruct (decide (message_id message = id)) as [->|Hne].
      * rewrite lookup_insert_eq. intros [= <-]. lia.
      * rewrite lookup_insert_ne by done. intros Ha. apply Hrefs in Ha. lia.
    + intros id a. destruct (decide (message_id message = id)) as [->|Hne].
      * rewrite lookup_insert_eq. intros [= <-]. lia.
      * rewrite lookup_insert_ne by done. intros Ha. apply Hbatches in Ha. lia.
    + intros id id' a. generalize (message_id message). intros new.
      destruct (decide (new = id)) as [Heq|Hne];
        destruct (decide (new = id')) as [Heq'|Hne']; subst; try done.
      * rewrite lookup_insert_eq, lookup_insert_ne by done.
        intros [= <-] Ha. apply Hrefs in Ha. lia.
      * rewrite lookup_insert_eq, lookup_insert_ne by done.
        intros Ha [= <-]. apply Hrefs in Ha. lia.
      * rewrite !lookup_insert_ne by done. apply Hinj.
  - exists (length (store t)). simpl. by rewrite !lookup_insert_eq.
  - rewrite lookup_notifier. simpl. rewrite lookup_insert_eq. simpl.
    by rewrite lookup_app_r, Nat.sub_diag.
  - intros other Hne. rewrite !lookup_notifier. simpl.
    rewrite !lookup_insert_ne by done. split; [|done].
    destruct (message_refs t !! other) as [a|] eqn:Ha; [|done]. simpl.
    apply lookup_app_l. by eapply Hrefs.
Qed.

(** [complete_batch] on a batch that both dictionaries hold. *)
Lemma complete_batch_shared r icons now t batch_id message :
  well_formed t →
  shared t batch_id →
  active_messages (notifier t) !! batch_id = Some message →
  ∃ t',
    complete_batch r icons now t batch_id
    = (t', [{| patch_url := edit_url (notifier t) batch_id;
               patch_embed :=
                 _create_progress_embed r now (completion_title icons (stages message))
                   (stages message) (file_info message) |}])
    ∧ active_batches t' = delete batch_id (active_batches t)
    ∧ active_messages (notifier t')
      = <[batch_id := {| message_id := message_id message;
                         channel_id := channel_id message;
                         webhook_url := webhook_url message;
                         title := completion_title icons (stages message);
                         created_at := created_at message;
                         last_updated := last_updated message;
                         stages := stages message;
                         file_info := file_info message |}]>
          (active_messages (notifier t)).
Proof.
  intros (_ & _ & Hinj) (a & Hbatch & Href) Hmessage.
  rewrite lookup_notifier, Href in Hmessage. simpl in Hmessage.
  unfold complete_batch. rewrite Hbatch, Hmessage.
  eexists. split; [reflexivity|]. split; [done|].
  apply map_eq. intros id. rewrite lookup_notifier. cbn [message_refs store].
  destruct (decide (batch_id = id)) as [<-|Hne].
  - rewrite lookup_insert_eq, Href. simpl.
    apply list_lookup_insert_eq. by eapply lookup_lt_Some.
  - rewrite lookup_insert_ne by done. rewrite lookup_notifier.
    destruct (message_refs t !! id) as [a'|] eqn:Href'; [|done]. simpl.
    apply list_lookup_insert_ne. intros ->. apply Hne. by eapply Hinj.
Qed.

End WithArith.
End TrackerFacts.

Module ProcessorFacts.
Import Notifier NotifierFacts TrackingFacts Tracker SermonProcessorLive.
Section WithArith.
Context {F : Type} `{PyFloat F}.
Implicit Types (n : DiscordLiveNotifier F) (w : Work F).

Lemma run_calls_app r n (calls calls' : list (Call F)) :
  run_calls r n (calls ++ calls') = run_calls r (run_calls r n calls) calls'.
Proof. apply foldl_app. Qed.

Lemma recorded_app r n message_id file (calls calls' : list (Call F)) :
  recorded r n message_id file (calls ++ calls')
  = (recorded r n message_id file calls
     ++ recorded r (run_calls r n calls) message_id file calls')%list.
Proof.
  revert n. induction calls as [|c calls IH]; intros n; [done|].
  simpl. by rewrite IH.
Qed.

Lemma process_files_cons batch running i processed wav_object w
    (rest : list (string * Work F)) :
  process_files batch running i processed ((wav_object, w) :: rest)
  = if running i then
      let step := process_file w batch processed wav_object in
      let next := process_files batch running (S i) step.1.2 rest in
      ((step.1.1 ++ next.1)%list, next.2)
    else ([], processed).
Proof.
  simpl. destruct (running i); [|done].
  destruct (process_file w batch processed wav_object) as [[calls processed'] ok].
  cbn [fst snd]. by destruct (process_files batch running (S i) processed' rest).
Qed.

(** The calls of [process_file] are for the batch and for the file
    name; there are none without a batch, and else two. *)
Lemma process_file_calls w batch processed wav_object :
  (process_file w batch processed wav_object).1.1
  = match batch with
    | Some batch_id =>
        if decide (batch_id = "") then []
        else [processing_call (processing_remote w) (processing_now w) batch_id
                (basename wav_object);
              match convert w with
              | Returned (conversion_time, size_reduction) =>
                  complete_call (final_remote w) (final_now w) batch_id
                    (basename wav_object) (Some conversion_time) (Some size_reduction)
              | Raised e =>
                  error_call (final_remote w) (final_now w) batch_id
                    (basename wav_object) (exn_text e)
              end]
    | None => []
    end.
Proof.
  unfold process_file, when_tracking. cbv zeta.
  destruct (convert w) as [[conversion_time size_reduction]|e];
    destruct batch as [batch_id|]; simpl; try done;
    destruct (decide (batch_id = "")); done.
Qed.

Lemma process_file_processed w batch processed wav_object :
  (process_file w batch processed wav_object).1.2
  = match convert w with
    | Returned _ => {[ basename wav_object ]} ∪ processed
    | Raised _ => processed
    end.
Proof.
  unfold process_file. cbv zeta.
  by destruct (convert w) as [[conversion_time size_reduction]|e].
Qed.

(** The stages of one file of one message while [process_file] runs. *)
Lemma stages_during_file r n w batch processed wav_object message_id file s :
  stage_of n message_id file = Some s →
  let calls := (process_file w batch processed wav_object).1.1 in
  let addressed :=
    bool_decide (batch = Some message_id ∧ message_id ≠ ""
                 ∧ basename wav_object = file) in
  stage_of (run_calls r n calls) message_id file
  = Some (if addressed then final_stage w else s)
  ∧ recorded r n message_id file calls
    = Some <$> (if addressed then [PROCESSING; final_stage w]
                else replicate (length calls) s).
Proof.
  intros Hs. cbv zeta. rewrite process_file_calls.
  destruct batch as [batch_id|]; [|by rewrite bool_decide_eq_false_2 by (by intros [? ?])].
  destruct (decide (batch_id = "")) as [->|Hne].
  { rewrite bool_decide_eq_false_2; [done|]. intros ([= <-] & ? & _). done. }
  set (c1 := processing_call _ _ _ _).
  set (c2 := match convert w with Returned _ => _ | Raised _ => _ end).
  assert (call_message c2 = batch_id ∧ call_file c2 = basename wav_object
          ∧ call_stage c2 = final_stage w) as (Hm2 & Hf2 & Hs2).
  { unfold c2, final_stage. by destruct (convert w) as [[? ?]|?]. }
  unfold run_calls. cbn [foldl recorded length replicate].
  pose proof (stage_of_do_call r n c1 _ _ _ Hs) as H1.
  pose proof (stage_of_do_call r (do_call r n c1) c2 _ _ _ H1) as H2.
  rewrite H2, H1, Hm2, Hf2, Hs2. unfold c1. cbn [processing_call call_message call_file call_stage].
  destruct (decide (batch_id = message_id ∧ basename wav_object = file)) as [[-> Hfile]|Hno].
  - rewrite bool_decide_eq_true_2; [done|]. done.
  - rewrite bool_decide_eq_false_2; [done|]. intros ([= ->] & _ & ?). by apply Hno.
Qed.

End WithArith.
End ProcessorFacts.

Module LoopFacts.
Import Notifier NotifierFacts TrackingFacts Tracker SermonProcessorLive ProcessorFacts.
Section WithArith.
Context {F : Type} `{PyFloat F}.
Implicit Types (n : DiscordLiveNotifier F) (w : Work F).

Lemma stage_of_do_call_none r n (c : Call F) message_id file :
  stage_of n message_id file = None →
  stage_of (do_call r n c) message_id file = None.
Proof.
  unfold stage_of. rewrite lookup_do_call.
  destruct (active_messages n !! message_id) as [message|];
    [|by destruct (decide _)].
  cbn [mbind option_bind]. intros Hnone. destruct (decide _); [|done].
  cbn [fmap option_fmap option_map mbind option_bind].
  rewrite stage_after_record_progress, Hnone.
  rewrite decide_False; [done|]. intros [-> [? ?]]. congruence.
Qed.

Lemma stage_of_run_calls_none r n (calls : list (Call F)) message_id file :
  stage_of n message_id file = None →
  stage_of (run_calls r n calls) message_id file = None.
Proof.
  revert n. induction calls as [|c calls IH]; intros n Hnone; [done|].
  apply IH. by apply stage_of_do_call_none.
Qed.

Lemma stage_after_loop r running message_id file :
  message_id ≠ "" → (∀ j, running j = true) →
  ∀ pending n i processed s,
    stage_of n message_id file = Some s →
    stage_of (run_calls r n (process_files (Some message_id) running i processed
                               pending).1) message_id file
    = Some (stage_left file s pending).
Proof.
  intros Hid Hrunning. induction pending as [|[wav_object w] rest IH];
    intros n i processed s Hs; [done|].
  rewrite process_files_cons, Hrunning. cbv zeta. cbn [fst].
  rewrite run_calls_app.
  destruct (stages_during_file r n w (Some message_id) processed wav_object
              message_id file s Hs) as [Hafter _].
  erewrite IH by exact Hafter. unfold stage_left. cbn [foldl fst snd].
  do 2 f_equal. destruct (decide (basename wav_object = file)) as [Hfile|Hfile].
  - by rewrite bool_decide_eq_true_2.
  - rewrite bool_decide_eq_false_2; [done|]. by intros (_ & _ & ?).
Qed.

Lemma stage_left_final file s (pending : list (string * Work F)) :
  file ∈ basename <$> pending.*1 →
  stage_left file s pending = COMPLETED ∨ stage_left file s pending = ERROR.
Proof.
  induction pending as [|[wav_object w] rest IH] using rev_ind; [by intros ?%elem_of_nil|].
  rewrite !fmap_app. simpl. unfold stage_left. rewrite foldl_app. simpl.
  destruct (decide (basename wav_object = file)) as [_|Hne].
  - intros _. unfold final_stage. destruct (convert w); eauto.
  - rewrite elem_of_app, list_elem_of_singleton. intros [Hin|Heq]; [|done].
    by apply IH.
Qed.

Lemma stage_left_other file s (pending : list (string * Work F)) :
  file ∉ basename <$> pending.*1 → stage_left file s pending = s.
Proof.
  revert s. induction pending as [|[wav_object w] rest IH]; intros s; [done|].
  rewrite !fmap_cons, not_elem_of_cons. simpl. intros [Hne Hin].
  unfold stage_left. simpl. rewrite decide_False by done. by apply IH.
Qed.

Lemma stage_left_at file s (pending : list (string * Work F)) k wav_object w :
  NoDup (basename <$> pending.*1) →
  pending !! k = Some (wav_object, w) →
  basename wav_object = file →
  stage_left file s pending = final_stage w.
Proof.
  revert s k. induction pending as [|[o' w'] rest IH]; intros s k; [done|].
  rewrite !fmap_cons. simpl. intros [Hnotin Hnodup]%NoDup_cons Hk Hfile.
  unfold stage_left. simpl. destruct k as [|k]; simpl in Hk.
  - injection Hk as -> ->. rewrite decide_True by done.
    apply stage_left_other. by rewrite <- Hfile.
  - rewrite decide_False.
    + by eapply IH.
    + intros Heq. apply Hnotin. rewrite Heq, <- Hfile.
      apply list_elem_of_fmap. exists wav_object. split; [done|].
      apply list_elem_of_fmap. exists (wav_object, w). split; [done|].
      by eapply list_elem_of_lookup_2.
Qed.

(** The stages of a file that the loop does not process stay as they
    are. *)
Lemma loop_leaves_others r batch running message_id file :
  ∀ pending n i processed s,
    stage_of n message_id file = Some s →
    (batch = Some message_id → message_id ≠ "" → file ∉ basename <$> pending.*1) →
    let calls := (process_files batch running i processed pending).1 in
    recorded r n message_id file calls = Some <$> replicate (length calls) s
    ∧ stage_of (run_calls r n calls) message_id file = Some s.
Proof.
  induction pending as [|[wav_object w] rest IH];
    intros n i processed s Hs Hnot; [done|].
  cbv zeta. rewrite process_files_cons. destruct (running i); [|done].
  cbv zeta. cbn [fst]. rewrite recorded_app, run_calls_app, length_app, replicate_add,
    fmap_app.
  destruct (stages_during_file r n w batch processed wav_object message_id file s Hs)
    as [Hafter Htrace].
  rewrite bool_decide_eq_false_2 in Hafter, Htrace.
  2,3: intros (Hb & Hm & Hf); apply (Hnot Hb Hm); rewrite <- Hf, !fmap_cons;
    apply elem_of_cons; by left.
  destruct (IH _ (S i) (process_file w batch processed wav_object).1.2 s Hafter)
    as [Hrest Hstage].
  { intros Hb Hm Hin. apply (Hnot Hb Hm). rewrite !fmap_cons. apply elem_of_cons.
    by right. }
  by rewrite Htrace, Hrest, Hstage.
Qed.

Lemma monotone_from_replicate s k trace :
  monotone_from s trace → monotone_from s (replicate k s ++ trace).
Proof.
  intros Htrace. induction k as [|k IH]; [done|].
  cbn [replicate app monotone_from]. split; [|split; [done|exact IH]].
  unfold regresses. destruct (stage_index s); [lia|tauto].
Qed.

Lemma last_replicate_app (s : ProcessingStage) k trace :
  default s (last (replicate k s ++ trace)) = default s (last trace).
Proof.
  destruct trace as [|s' trace] using rev_ind.
  - rewrite app_nil_r. destruct k as [|k]; [done|].
    by rewrite replicate_S_end, last_snoc.
  - by rewrite app_assoc, !last_snoc.
Qed.

(** The set [processed_files] after the loop. *)
Lemma processed_after_loop batch running name :
  ∀ (pending : list (string * Work F)) i processed,
    name ∈ (process_files batch running i processed pending).2
    ↔ name ∈ processed
      ∨ ∃ k wav_object w,
          pending !! k = Some (wav_object, w)
          ∧ (∀ j, (j ≤ k)%nat → running (i + j)%nat = true)
          ∧ basename wav_object = name
          ∧ ∃ value, convert w = Returned value.
Proof.
  induction pending as [|[wav_object w] rest IH]; intros i processed.
  - simpl. split; [by left|]. intros [?|(k & ? & ? & Hk & _)]; done.
  - rewrite process_files_cons. destruct (running i) eqn:Hrun.
    + cbv zeta. cbn [snd]. rewrite IH, process_file_processed. split.
      * intros [Hin|(k & o' & w' & Hk & Hruns & Hname & Hconv)].
        -- destruct (convert w) as [value|e] eqn:Hconv; [|by left].
           apply elem_of_union in Hin as [->%elem_of_singleton|Hin]; [|by left].
           right. exists 0%nat, wav_object, w. repeat split; eauto.
           intros j Hj. replace j with 0%nat by lia. by rewrite Nat.add_0_r.
        -- right. exists (S k), o', w'. repeat split; eauto.
           intros [|j] Hj; [by rewrite Nat.add_0_r|].
           rewrite <- Nat.add_succ_comm. apply Hruns. lia.
      * intros [Hin|([|k] & o' & w' & Hk & Hruns & Hname & value & Hconv)].
        -- left. destruct (convert w); [|done]. apply elem_of_union. by right.
        -- simpl in Hk. injection Hk as <- <-. left. rewrite Hconv.
           apply elem_of_union. left. by apply elem_of_singleton.
        -- right. exists k, o', w'. repeat split; eauto.
           intros j Hj. rewrite Nat.add_succ_comm. apply Hruns. lia.
    + cbn [snd]. split; [by left|]. intros [?|(k & o' & w' & _ & Hruns & _)]; [done|].
      specialize (Hruns 0%nat). rewrite Nat.add_0_r in Hruns. rewrite Hruns in Hrun; [done|lia].
Qed.

End WithArith.
End LoopFacts.

Module TrackerTheorems.
Import Notifier NotifierFacts TrackingFacts Tracker TrackerFacts.

Lemma run_calls_tracked {F : Type} `{PyFloat F} (r : Rendering F)
    (n : DiscordLiveNotifier F) (calls : list (Call F)) (message_id : string) :
  is_Some (active_messages n !! message_id) →
  is_Some (active_messages (run_calls r n calls) !! message_id).
Proof.
  revert n. induction calls as [|c calls IH]; intros n Hn; [done|].
  apply IH. rewrite lookup_do_call. destruct (decide _); [|done].
  by apply fmap_is_Some.
Qed.

(** X27. The tracker and its notifier share the message of a batch.
    Once [start_batch_upload] has returned the id of a batch, and after
    any calls of [update_progress] made through the tracker,
    [complete_batch] sends one edit, to the URL of the batch message,
    that shows the stages and the information which the notifier holds
    after those calls, under a title that counts them. The batch then
    leaves [active_batches], so that a second [complete_batch] sends
    nothing, while the notifier goes on tracking the message, with the
    new title and the same stages and information; its other messages
    are as the calls left them. *)
Theorem completed_batch_summarises_the_updates {F : Type} `{PyFloat F}
    (r : Rendering F) (icons : Icons) (webhook : Webhook)
    (now created updated final_now : datetime) (t t1 : SermonPipelineTracker F)
    (files : list string) (id : string) (calls : list (Call F)) :
  well_formed t →
  start_batch_upload r icons webhook now created updated t files = (t1, Some id) →
  let t2 := foldl (tracker_call r) t1 calls in
  ∃ message t3,
    active_messages (run_calls r (notifier t1) calls) !! id = Some message
    ∧ complete_batch r icons final_now t2 id
      = (t3, [{| patch_url := edit_url (notifier t) id;
                 patch_embed :=
                   _create_progress_embed r final_now
                     (completion_title icons (stages message)) (stages message)
                     (file_info message) |}])
    ∧ active_batches t3 !! id = None
    ∧ complete_batch r icons final_now t3 id = (t3, [])
    ∧ (∃ message', active_messages (notifier t3) !! id = Some message'
                   ∧ title message' = completion_title icons (stages message)
                   ∧ stages message' = stages message
                   ∧ file_info message' = file_info message)
    ∧ (∀ other, other ≠ id →
         active_messages (notifier t3) !! other
         = active_messages (run_calls r (notifier t1) calls) !! other).
Proof.
  intros Hwf Hstart t2.
  destruct (start_batch_upload_started _ _ _ _ _ _ _ _ _ _ Hwf Hstart)
    as (message1 & Hwf1 & Hshared1 & Hmessage1 & _ & _ & _ & Hid & Htoken & _).
  destruct (run_tracker_calls r t1 calls Hwf1) as (Hwf2 & Hview & Hrefs & Hbatches).
  fold t2 in Hwf2, Hview, Hrefs, Hbatches.
  assert (shared t2 id) as Hshared2.
  { destruct Hshared1 as (a & ? & ?). exists a. by rewrite Hbatches, Hrefs. }
  destruct (run_calls_tracked r (notifier t1) calls id) as [message Hmessage].
  { by rewrite Hmessage1. }
  rewrite <- Hview in Hmessage |- *.
  destruct (complete_batch_shared r icons final_now t2 id message Hwf2 Hshared2 Hmessage)
    as (t3 & Hcomplete & Hbatches3 & Hactive3).
  exists message, t3. split; [done|]. split; [|split; [|split; [|split]]].
  - rewrite Hcomplete. do 3 f_equal. unfold edit_url, notifier. cbn [webhook_id webhook_token].
    assert (tracker_webhook_id t2 = tracker_webhook_id t1
            ∧ tracker_webhook_token t2 = tracker_webhook_token t1) as [-> ->].
    { unfold t2. clear. induction calls as [|c calls IH] using rev_ind; [done|].
      rewrite foldl_app. simpl. rewrite tracker_call_unfold. done. }
    by rewrite Hid, Htoken.
  - rewrite Hbatches3. apply lookup_delete_eq.
  - unfold complete_batch. by rewrite Hbatches3, lookup_delete_eq.
  - eexists. rewrite Hactive3, lookup_insert_eq. by repeat split.
  - intros other Hne. rewrite Hactive3. by rewrite lookup_insert_ne.
Qed.

Lemma completed_batch_summarises_the_updates_witness :
  let t1 :=
    (start_batch_upload sample_rendering sample_icons sample_webhook 0 0 0
       sample_tracker ["sermon_2024_01_01.wav"]).1 in
  let calls := [sample_call PROCESSING; sample_call COMPLETED] in
  let t2 := foldl (tracker_call sample_rendering) t1 calls in
  ∃ message t3,
    active_messages (run_calls sample_rendering (notifier t1) calls) !! "batch-1"
    = Some message
    ∧ complete_batch sample_rendering sample_icons 0 t2 "batch-1"
      = (t3, [{| patch_url := edit_url (notifier sample_tracker) "batch-1";
                 patch_embed :=
                   _create_progress_embed sample_rendering 0
                     (completion_title sample_icons (stages message)) (stages message)
                     (file_info message) |}])
    ∧ active_batches t3 !! "batch-1" = None
    ∧ complete_batch sample_rendering sample_icons 0 t3 "batch-1" = (t3, [])
    ∧ (∃ message', active_messages (notifier t3) !! "batch-1" = Some message'
                   ∧ title message' = completion_title sample_icons (stages message)
                   ∧ stages message' = stages message
                   ∧ file_info message' = file_info message)
    ∧ (∀ other, other ≠ "batch-1" →
         active_messages (notifier t3) !! other
         = active_messages (run_calls sample_rendering (notifier t1) calls) !! other).
Proof.
  intros t1 calls t2.
  apply (completed_batch_summarises_the_updates sample_rendering sample_icons
           sample_webhook 0 0 0 0 sample_tracker t1 ["sermon_2024_01_01.wav"]
           "batch-1" calls).
  - unfold well_formed. simpl. repeat split; intros *; by rewrite lookup_empty.
  - reflexivity.
Defined.

End TrackerTheorems.

Module ProcessorTheorems.
Import Notifier NotifierFacts TrackingFacts Tracker TrackerFacts SermonProcessorLive
  ProcessorFacts LoopFacts.

(** X28. While the loop of [process_pending_files] runs over pending
    files whose base names differ, the stage recorded for any file of
    any tracked message that is not yet at [COMPLETED] or [ERROR] never
    regresses and never leaves [ERROR]; when the loop ends the file is
    at the stage it had, at [COMPLETED] or at [ERROR], never left at
    [PROCESSING]. This holds whatever the downloads, conversions and
    uploads meet, with or without a batch, and when the loop stops
    early. *)
Theorem processing_never_regresses {F : Type} `{PyFloat F} (r : Rendering F)
    (n : DiscordLiveNotifier F) (batch : option string) (running : nat → bool)
    (processed : gset string) (pending : list (string * Work F))
    (message_id file : string) (s : ProcessingStage) :
  NoDup (basename <$> pending.*1) →
  stage_of n message_id file = Some s →
  s ≠ COMPLETED → s ≠ ERROR →
  ∃ trace,
    recorded r n message_id file (process_files batch running 0 processed pending).1
    = Some <$> trace
    ∧ monotone_from s trace
    ∧ default s (last trace) ∈ [s; COMPLETED; ERROR].
Proof.
  intros Hnodup Hs Hc He. generalize 0%nat as i. revert n processed Hs Hnodup.
  induction pending as [|[wav_object w] rest IH]; intros n processed Hs Hnodup i.
  { exists []. split; [done|]. split; [done|]. simpl. apply elem_of_cons. by left. }
  rewrite process_files_cons. destruct (running i).
  2:{ exists []. split; [done|]. split; [done|]. simpl. apply elem_of_cons. by left. }
  cbv zeta. cbn [fst]. rewrite recorded_app.
  rewrite !fmap_cons in Hnodup. apply NoDup_cons in Hnodup as [Hnotin Hnodup].
  destruct (stages_during_file r n w batch processed wav_object message_id file s Hs)
    as [Hafter Htrace].
  rewrite Htrace.
  destruct (bool_decide (batch = Some message_id ∧ message_id ≠ ""
                         ∧ basename wav_object = file)) eqn:Haddressed.
  - apply bool_decide_eq_true_1 in Haddressed as (_ & _ & Hfile).
    destruct (loop_leaves_others r batch running message_id file rest _ (S i)
                (process_file w batch processed wav_object).1.2 _ Hafter)
      as [Hrest _].
    { intros _ _. by rewrite <- Hfile. }
    rewrite Hrest. set (k := length _). rewrite <- fmap_app.
    eexists. split; [reflexivity|].
    assert (final_stage w = COMPLETED ∨ final_stage w = ERROR) as Hfinal.
    { unfold final_stage. destruct (convert w); eauto. }
    split.
    + cbn [app monotone_from]. split; [|split; [done|split; [|split]]].
      * unfold regresses. destruct s; simpl; try lia; done.
      * unfold regresses. destruct Hfinal as [-> | ->]; simpl; [lia|tauto].
      * done.
      * rewrite <- (app_nil_r (replicate k _)). by apply monotone_from_replicate.
    + change ([PROCESSING; final_stage w] ++ replicate k (final_stage w))%list
        with ([PROCESSING] ++ (replicate (S k) (final_stage w)))%list.
      rewrite replicate_S_end, !app_assoc, last_snoc. simpl.
      destruct Hfinal as [-> | ->]; set_unfold; tauto.
  - destruct (IH _ (process_file w batch processed wav_object).1.2 Hafter Hnodup (S i))
      as (trace & Hrest & Hmono & Hlast).
    rewrite Hrest, <- fmap_app. eexists. split; [reflexivity|]. split.
    + by apply monotone_from_replicate.
    + by rewrite last_replicate_app.
Qed.

Lemma processing_never_regresses_witness :
  ∃ trace,
    recorded sample_rendering sample_notifier "batch-1" "sermon_2024_01_01.wav"
      (process_files (Some "batch-1") (fun _ => true) 0 ∅
         [("wav/sermon_2024_01_01.wav", sample_work true);
          ("wav/sermon_2024_01_08.wav", sample_work false)]).1
    = Some <$> trace
    ∧ monotone_from DETECTED trace
    ∧ default DETECTED (last trace) ∈ [DETECTED; COMPLETED; ERROR].
Proof.
  apply (processing_never_regresses sample_rendering sample_notifier (Some "batch-1")
           (fun _ => true) ∅
           [("wav/sermon_2024_01_01.wav", sample_work true);
            ("wav/sermon_2024_01_08.wav", sample_work false)]
           "batch-1" "sermon_2024_01_01.wav" DETECTED).
  - by apply (bool_decide_unpack _).
  - reflexivity.
  - done.
  - done.
Defined.

(** X29. After the loop of [process_pending_files], an object is
    pending at the next scan of a listing exactly when it was pending
    for that listing before the loop and every processing, during the
    loop, of a file with its base name failed: a file that was converted
    is not processed again, a file whose processing failed, or that the
    loop did not reach, is. *)
Theorem converted_files_are_not_pending_again {F : Type} `{PyFloat F}
    (batch : option string) (running : nat → bool) (processed : gset string)
    (pending : list (string * Work F)) (listing : list string) (wav_object : string) :
  wav_object ∈ get_pending_files listing
                 (process_files batch running 0 processed pending).2
  ↔ wav_object ∈ get_pending_files listing processed
    ∧ ∀ k other w,
        pending !! k = Some (other, w) →
        (∀ j, (j ≤ k)%nat → running j = true) →
        basename other = basename wav_object →
        ∃ e, convert w = Raised e.
Proof.
  unfold get_pending_files. rewrite !list_elem_of_filter.
  rewrite (processed_after_loop batch running (basename wav_object) pending 0 processed).
  split.
  - intros [[Hwav Hnot] Hin]. split; [split; [split|]|]; try done.
    + intros Hold. apply Hnot. by left.
    + intros k other w Hk Hruns Hname.
      destruct (convert w) as [value|e] eqn:Hconv; [|by eexists].
      exfalso. apply Hnot. right. exists k, other, w. repeat split; eauto.
  - intros [[[Hwav Hnot] Hin] Hfailed]. split; [split|]; try done.
    intros [Hold|(k & other & w & Hk & Hruns & Hname & value & Hconv)]; [done|].
    destruct (Hfailed k other w Hk Hruns Hname) as [e He]. congruence.
Qed.

(** X30. A round of [process_pending_files] that finds pending
    files, with a webhook that accepts the new batch message under a
    non-empty id and a processor that keeps running: at the end the
    notifier tracks the batch message under the title that
    [complete_batch] gives it, its files are the base names of the
    pending files, every one of them is at [COMPLETED] or at [ERROR],
    and the batch has left [active_batches]. When the base names
    differ, a file is at [COMPLETED] exactly when its conversion and
    upload succeeded. *)
Theorem round_ends_with_every_file_completed_or_failed {F : Type} `{PyFloat F}
    (r : Rendering F) (icons : Icons) (webhook : Webhook)
    (now created updated final_now : datetime) (running : nat → bool)
    (work_at : nat → Work F) (t : SermonPipelineTracker F) (processed : gset string)
    (listing : list string) (id channel : string) :
  well_formed t →
  (∀ request,
     webhook request
     = Returned {| post_status := 200;
                   post_json := Returned {| data_id := Some id;
                                            data_channel_id := Some channel |} |}) →
  id ≠ "" →
  (∀ j, running j = true) →
  let pending := get_pending_files listing processed in
  pending ≠ [] →
  let t' := (process_pending_files r icons webhook now created updated running work_at
               final_now t processed listing).1 in
  ∃ message,
    active_messages (notifier t') !! id = Some message
    ∧ title message = completion_title icons (stages message)
    ∧ (∀ file, is_Some (dict_get file (stages message)) ↔ file ∈ basename <$> pending)
    ∧ (∀ file stage, dict_get file (stages message) = Some stage →
                     stage = COMPLETED ∨ stage = ERROR)
    ∧ (NoDup (basename <$> pending) →
       ∀ k wav_object, pending !! k = Some wav_object →
         dict_get (basename wav_object) (stages message)
         = Some match convert (work_at k) with
                | Returned _ => COMPLETED
                | Raised _ => ERROR
                end)
    ∧ active_batches t' !! id = None.
Proof.
  intros Hwf Hwebhook Hid Hrunning pending Hpending t'.
  unfold t', process_pending_files. cbv zeta. fold pending.
  rewrite decide_False by done.
  destruct (start_batch_upload r icons webhook now created updated t
              (basename <$> pending)) as [t1 current] eqn:Hstart.
  assert (current = Some id) as ->.
  { revert Hstart. unfold start_batch_upload, create_progress_message. cbv zeta.
    rewrite Hwebhook. simpl. by intros [= _ <-]. }
  destruct (start_batch_upload_started _ _ _ _ _ _ _ _ _ _ Hwf Hstart)
    as (message1 & Hwf1 & Hshared1 & Hmessage1 & Hstages1 & _).
  set (jobs := imap (fun k wav_object => (wav_object, work_at k)) pending).
  assert (jobs.*1 = pending) as Hjobs.
  { unfold jobs. clear. generalize work_at. induction pending as [|o pending IH];
      intros work; [done|]. simpl. f_equal. apply IH. }
  destruct (process_files (Some id) running 0 processed jobs) as [calls processed']
    eqn:Hloop.
  cbv beta iota. rewrite decide_False by done. cbn [fst].
  destruct (run_tracker_calls r t1 calls Hwf1) as (Hwf2 & Hview & Hrefs & Hbatches).
  set (t2 := foldl (tracker_call r) t1 calls) in *.
  assert (shared t2 id) as Hshared2.
  { destruct Hshared1 as (a & ? & ?). exists a. by rewrite Hbatches, Hrefs. }
  assert (∀ file, stage_of (notifier t2) id file
                  = if decide (file ∈ basename <$> pending)
                    then Some (stage_left file DETECTED jobs) else None) as Hstage.
  { intros file. rewrite Hview.
    replace calls with (process_files (Some id) running 0 processed jobs).1
      by (by rewrite Hloop).
    assert (stage_of (notifier t1) id file
            = if decide (file ∈ basename <$> pending) then Some DETECTED else None)
      as Hbefore.
    { unfold stage_of. rewrite Hmessage1. simpl. rewrite Hstages1.
      apply dict_get_from_keys. }
    destruct (decide (file ∈ basename <$> pending)).
    - by apply stage_after_loop.
    - by apply stage_of_run_calls_none. }
  destruct (active_messages (notifier t2) !! id) as [message2|] eqn:Hmessage2.
  2:{ exfalso. destruct pending as [|o pending']; [done|].
      specialize (Hstage (basename o)). unfold stage_of in Hstage.
      rewrite Hmessage2 in Hstage. rewrite decide_True in Hstage; [done|].
      rewrite fmap_cons. apply elem_of_cons. by left. }
  assert (∀ file, dict_get file (stages message2)
                  = if decide (file ∈ basename <$> pending)
                    then Some (stage_left file DETECTED jobs) else None) as Hget.
  { intros file. rewrite <- Hstage. unfold stage_of. by rewrite Hmessage2. }
  destruct (complete_batch_shared r icons final_now t2 id message2 Hwf2 Hshared2
              Hmessage2) as (t3 & Hcomplete & Hbatches3 & Hactive3).
  rewrite Hcomplete. cbn [fst].
  eexists. split; [by rewrite Hactive3, lookup_insert_eq|]. cbn [title stages].
  split; [done|]. split; [|split; [|split]].
  - intros file. rewrite Hget. destruct (decide _) as [Hin|Hout].
    + split; eauto.
    + split; [by intros [? ?]|done].
  - intros file stage. rewrite Hget. destruct (decide _) as [Hin|]; [|done].
    intros [= <-]. apply stage_left_final. by rewrite Hjobs.
  - intros Hnodup k wav_object Hk. rewrite Hget.
    rewrite decide_True by (apply list_elem_of_fmap; exists wav_object; split; [done|];
                            by eapply list_elem_of_lookup_2).
    f_equal. apply (stage_left_at _ _ _ k wav_object (work_at k)); [by rewrite Hjobs| |done].
    unfold jobs. rewrite list_lookup_imap, Hk. done.
  - rewrite Hbatches3. apply lookup_delete_eq.
Qed.

Lemma round_ends_with_every_file_completed_or_failed_witness :
  let listing := ["wav/sermon_2024_01_01.wav"; "wav/sermon_2024_01_08.wav"] in
  let work_at := fun k : nat => sample_work (bool_decide (k = 0%nat)) in
  let pending := get_pending_files listing ∅ in
  let t' :=
    (process_pending_files sample_rendering sample_icons sample_webhook 0 0 0
       (fun _ => true) work_at 0 sample_tracker ∅ listing).1 in
  ∃ message,
    active_messages (notifier t') !! "batch-1" = Some message
    ∧ title message = completion_title sample_icons (stages message)
    ∧ (∀ file, is_Some (dict_get file (stages message)) ↔ file ∈ basename <$> pending)
    ∧ (∀ file stage, dict_get file (stages message) = Some stage →
                     stage = COMPLETED ∨ stage = ERROR)
    ∧ (NoDup (basename <$> pending) →
       ∀ k wav_object, pending !! k = Some wav_object →
         dict_get (basename wav_object) (stages message)
         = Some match convert (work_at k) with
                | Returned _ => COMPLETED
                | Raised _ => ERROR
                end)
    ∧ active_batches t' !! "batch-1" = None.
Proof.
  apply (round_ends_with_every_file_completed_or_failed sample_rendering sample_icons
           sample_webhook 0 0 0 0 (fun _ => true)
           (fun k : nat => sample_work (bool_decide (k = 0%nat))) sample_tracker ∅
           ["wav/sermon_2024_01_01.wav"; "wav/sermon_2024_01_08.wav"]
           "batch-1" "channel-1").
  - unfold well_formed. simpl. repeat split; intros *; by rewrite lookup_empty.
  - reflexivity.
  - done.
  - reflexivity.
  - by vm_compute.
Defined.

End ProcessorTheorems.
